(** * The example-cache plugin of dnscrypt-proxy, embedded in Rocq

    Source: [src/plugins/example-cache/example-cache.c].

    The plugin keeps a small most-recent-first list of DNS responses.  The
    pre-filter answers a query from that list, the post-filter stores a
    response in it.  Both walk the raw wire format with [skip_name] and
    [next_rr].

    Conventions of the embedding
    - a packet byte is a [Byte.byte]; [byte_Z] is the integer promotion of a
      [uint8_t], [u8] the cast [(uint8_t)];
    - [size_t] values are [Z]; every [size_t] subtraction of the source is
      [size_sub], with the wrap-around at [2^64] written out;
    - [uint16_t] and [uint32_t] assignments are [u16] and [u32];
    - [time_t] is a plain [Z] (signed overflow is undefined in C);
    - the singly linked list [cache->cache_entries] is a [list CacheEntry],
      head first; a pointer into it is a position, [NULL] is [None];
    - what the outside world answers during one call ([time], [calloc],
      [malloc], [realloc], the indeterminate content of an uninitialised
      local) is an [Env]; the calls made are recorded as a list of [event]s. *)

From Stdlib Require Import ZArith Lia Bool.
From Stdlib Require Import Init.Byte Strings.Byte.
From stdpp Require Import base tactics option list.

Local Open Scope Z_scope.

(** ** Machine integers and bytes *)

Definition byte_Z (b : byte) : Z := Z.of_N (Byte.to_N b).

#[global] Instance byte_eq_decision : EqDecision byte := Byte.byte_eq_dec.

Definition u8 (z : Z) : byte := default x00 (Byte.of_N (Z.to_N (z mod 256))).

Definition u16 (z : Z) : Z := z mod 2 ^ 16.

Definition u32 (z : Z) : Z := z mod 2 ^ 32.

Definition size_sub (a b : Z) : Z := (a - b) mod 2 ^ 64.

(** [p[i]] for a byte buffer.  The parsers only look at bytes below the
    message length ([skip_name_ext], [next_rr_ext]), so the default is not
    observed on a buffer that holds the whole message. *)
Definition byte_at (p : list byte) (i : Z) : Z :=
  byte_Z (default x00 (p !! Z.to_nat i)).

(** [p[i] = (uint8_t) v].  A store past the message length lands in the
    packet's spare capacity, which no later read looks at: it is dropped. *)
Definition store (p : list byte) (i : Z) (v : Z) : list byte :=
  <[Z.to_nat i := u8 v]> p.

(** [memcpy(&dst[i], src, length src)] *)
Definition memcpy (dst : list byte) (i : Z) (src : list byte) : list byte :=
  list_inserts (Z.to_nat i) src dst.

(** The [n] bytes at [&p[i]]. *)
Definition bytes_at (p : list byte) (i n : Z) : list byte :=
  take (Z.to_nat n) (drop (Z.to_nat i) p).

(** [memcmp(a, b, n) == 0] *)
Definition memcmp_eq (a b : list byte) (n : Z) : bool :=
  bool_decide (take (Z.to_nat n) a = take (Z.to_nat n) b).

(** [(hi << 8) | lo] of two bytes, as the source reads a 16-bit field. *)
Definition be16 (p : list byte) (i : Z) : Z :=
  u16 (Z.lor (Z.shiftl (byte_at p i) 8) (byte_at p (i + 1))).

(** The 32-bit big-endian read of [next_rr]. *)
Definition be32 (p : list byte) (i : Z) : Z :=
  u32 (Z.lor (Z.lor (Z.lor (Z.shiftl (byte_at p i) 24)
                           (Z.shiftl (byte_at p (i + 1)) 16))
                    (Z.shiftl (byte_at p (i + 2)) 8))
             (byte_at p (i + 3))).

(** The four stores of the pre-filter's TTL rewrite. *)
Definition store_be32 (p : list byte) (i : Z) (v : Z) : list byte :=
  store (store (store (store p i (Z.shiftr v 24))
                      (i + 1) (Z.shiftr v 16))
               (i + 2) (Z.shiftr v 8))
        (i + 3) v.

(** [tolower] and [toupper] of <ctype.h> in the "C" locale (the plugin never
    calls [setlocale]). *)
Definition tolower (c : Z) : Z :=
  if (65 <=? c) && (c <=? 90) then c + 32 else c.

Definition toupper (c : Z) : Z :=
  if (97 <=? c) && (c <=? 122) then c - 32 else c.

(** ** Constants *)

Definition DEFAULT_CACHE_ENTRIES_MAX : Z := 50.
Definition DEFAULT_MIN_TTL : Z := 60.
Definition MAX_TTL : Z := 86400.
Definition DNS_MAX_HOSTNAME_LEN : Z := 256.

(** ** Data *)

Record CacheEntry := mkCacheEntry {
  response : list byte;
  response_len : Z;
  qname : list byte;
  qtype : Z;
  deadline : Z
}.

Record Cache := mkCache {
  cache_entries : list CacheEntry;
  cache_entries_max : Z;
  now : Z;
  min_ttl : Z
}.

(** Modelled from the spec: the host's packet handle of <dnscrypt/plugin.h>,
    which is not part of the sources at hand.  "A packet exposes: raw bytes,
    raw length, maximum capacity, and a replace-contents operation."  The raw
    length is the length of [dns_wire_data]. *)
Record DCPluginDNSPacket := mkPacket {
  dns_wire_data : list byte;
  dns_wire_data_max_len : Z
}.

Definition dcplugin_get_wire_data_len (p : DCPluginDNSPacket) : Z :=
  Z.of_nat (length (dns_wire_data p)).

(** Modelled from the spec: the results a filter hands to the host, from the
    same absent header: "pre_filter -> {OK, DIRECT, ERROR}". *)
Inductive DCPluginSyncFilterResult :=
| DCP_SYNC_FILTER_RESULT_OK
| DCP_SYNC_FILTER_RESULT_DIRECT
| DCP_SYNC_FILTER_RESULT_ERROR.

(** What the environment answers during one filter call. *)
Record Env := mkEnv {
  env_time : Z;            (* what [time] stores into [cache->now] *)
  env_calloc_ok : bool;    (* [calloc] of a new entry succeeds *)
  env_malloc_ok : bool;    (* [malloc] of its response succeeds *)
  env_realloc_ok : bool;   (* [realloc] of a resident response succeeds *)
  env_ttl_indet : Z        (* content of the local [ttl] before any store *)
}.

Inductive event :=
| Ev_time
| Ev_realloc (ok : bool)
| Ev_free_response (e : CacheEntry)
| Ev_free_entry (e : CacheEntry)
| Ev_calloc (ok : bool)
| Ev_malloc (ok : bool).

(** The end of one filter call.  [Fault] stands for the places where the
    source leaves defined behaviour around its 256-byte [qname] buffers:
    on a question name longer than 256 bytes, the failing [assert] of the
    pre-filter and the [memcmp]/[memcpy] of the post-filter running past
    [qname]; on a question name without a zero byte, the loop of
    [name_tolower] running past the bytes that were copied into [qname]. *)
Inductive outcome :=
| Returns (r : DCPluginSyncFilterResult) (c : Cache) (p : DCPluginDNSPacket)
          (tr : list event)
| Fault.

(** ** dcplugin_init *)

Definition dcplugin_init : Cache :=
  {| cache_entries := [];
     cache_entries_max := DEFAULT_CACHE_ENTRIES_MAX;
     now := 0;
     min_ttl := DEFAULT_MIN_TTL |}.

(** ** dcplugin_destroy

    Lines 73-94.  [user_data] is what [dcplugin_get_user_data] hands back,
    [None] for [NULL].  The result is the value returned, the calls of
    [free] that the loop makes, in order, and whether [free(cache)] was
    called. *)
Fixpoint destroy_entries (cache_entry : list CacheEntry) : list event :=
  match cache_entry with
  | [] => []
  | e :: next => Ev_free_response e :: destroy_entries next
  end.

Definition dcplugin_destroy (user_data : option Cache)
    : Z * list event * bool :=
  match user_data with
  | None => (0, [], false)
  | Some cache => (0, destroy_entries (cache_entries cache), true)
  end.

(** ** name_tolower

    Lower-cases every byte up to the first zero byte, length bytes of labels
    included.  The loop of the source stops at a zero byte and nowhere
    else.  [name] is the [qname_len] bytes that line 220 copied into the
    uninitialised buffer [qname]: when one of them is zero
    ([name_terminated]) the loop ends among them and this is what it
    leaves.  When none is, the loop goes on into the bytes of [qname] that
    were never written, and past the buffer if it meets no zero there; the
    pre-filter is cut short at that point ([pre_filter_question] gives
    [Abort]), so that the function is not used on such a name. *)
Fixpoint name_tolower (name : list byte) : list byte :=
  match name with
  | [] => []
  | c :: rest =>
      if byte_Z c =? 0 then name
      else u8 (tolower (byte_Z c)) :: name_tolower rest
  end.

(** Whether the loop of [name_tolower] meets its zero byte among the bytes
    of [name]. *)
Definition name_terminated (name : list byte) : bool :=
  existsb (fun c => byte_Z c =? 0) name.

(** ** skip_name *)

Fixpoint skip_name_loop (fuel : nat) (dns_packet : list byte)
    (dns_packet_len offset name_len : Z) : option Z :=
  match fuel with
  | O => None
  | S fuel' =>
      let label_len := byte_at dns_packet offset in
      if Z.land label_len 192 =? 192 then
        if 2 >? size_sub dns_packet_len offset then None
        else Some (offset + 2)
      else if label_len >=? size_sub (size_sub dns_packet_len offset) 1 then None
      else
        let name_len := name_len + label_len + 1 in
        if name_len >? DNS_MAX_HOSTNAME_LEN then None
        else
          let offset := offset + (label_len + 1) in
          if label_len =? 0 then Some offset
          else skip_name_loop fuel' dns_packet dns_packet_len offset name_len
  end.

(** [None] is the return value [-1]; [Some offset] is [0] with [*offset_p]
    updated.  Every turn of the loop moves [offset] forward by at least one
    byte and stays below [dns_packet_len], so the length of the packet is
    fuel enough ([skip_name_loop_fuel]). *)
Definition skip_name (dns_packet : list byte) (dns_packet_len offset : Z)
    : option Z :=
  if (dns_packet_len <? 1) || (offset >=? size_sub dns_packet_len 1) then None
  else
    match skip_name_loop (Z.to_nat dns_packet_len) dns_packet dns_packet_len
                         offset 0 with
    | None => None
    | Some offset' => if offset' >=? dns_packet_len then None else Some offset'
    end.

(** ** next_rr

    The out-parameters of the source are written one by one, some of them
    before a later check fails; a caller may read them after a failed call
    (the post-filter does so with [ttl]).  [RR] records which stores
    happened: a field is [Some v] when the function stores [v] through the
    corresponding pointer, provided the caller passed one.  [rr_offset] is
    set exactly when the function returns [0]. *)
Record RR := mkRR {
  rr_name_len : option Z;
  rr_qtype : option Z;
  rr_qclass : option Z;
  rr_ttl : option Z;
  rr_offset : option Z
}.

Definition next_rr (dns_packet : list byte) (dns_packet_len : Z)
    (is_question : bool) (offset0 : Z) : RR :=
  match skip_name dns_packet dns_packet_len offset0 with
  | None => mkRR None None None None None
  | Some offset =>
      let name_len := size_sub offset offset0 in
      if (if is_question then 6 else 10) >? size_sub dns_packet_len offset
      then mkRR (Some name_len) None None None None
      else
        let qtype := be16 dns_packet offset in
        let qclass := be16 dns_packet (offset + 2) in
        let offset := offset + 4 in
        if is_question
        then mkRR (Some name_len) (Some qtype) (Some qclass) None (Some offset)
        else
          let ttl := be32 dns_packet offset in
          let offset := offset + 4 in
          let rdlen := be16 dns_packet offset in
          let offset := offset + 2 in
          if rdlen >? size_sub dns_packet_len offset
          then mkRR (Some name_len) (Some qtype) (Some qclass) (Some ttl) None
          else mkRR (Some name_len) (Some qtype) (Some qclass) (Some ttl)
                    (Some (offset + rdlen))
  end.

(** ** The two filters

    Each filter is cut at the point where its parsing ends and its work on
    the cache begins; [stage] is what the first half hands over: a result
    returned early, the failed assertion, or the values the second half
    continues with. *)
Inductive stage (A : Type) :=
| Stop (r : DCPluginSyncFilterResult)
| Abort
| Continue (a : A).

Arguments Stop {A} r.
Arguments Abort {A}.
Arguments Continue {A} a.

(** [memcmp(e->qname, name, name_len) == 0 && e->qtype == type], the test of
    both scans. *)
Definition entry_matches (e : CacheEntry) (name : list byte)
    (name_len type : Z) : bool :=
  memcmp_eq (qname e) name name_len && (qtype e =? type).

(** *** dcplugin_sync_pre_filter *)

(** The locals the lookup starts from: the buffer [qname] (its first
    [qname_len] bytes), [qname_len], [qtype], and the packet bytes, which the
    store through [wire_qname] may have changed. *)
Record Lookup := mkLookup {
  lk_qname : list byte;
  lk_qname_len : Z;
  lk_qtype : Z;
  lk_wire_data : list byte
}.

(** Lines 207-239.  When [next_rr] returns 0 it has stored every value it
    was given a pointer for, so the defaults below are never used.
    [Abort] is the failing assertion of line 219, and the [name_tolower]
    of line 221 on a name that has no zero byte among its [qname_len]
    bytes (a name closed by a compression pointer, with no zero byte in
    it): the loop then runs past the bytes copied. *)
Definition pre_filter_question (wire_data : list byte) : stage Lookup :=
  let wire_data_len := Z.of_nat (length wire_data) in
  if (wire_data_len <? 15)
     || negb (byte_at wire_data 4 =? 0) || negb (byte_at wire_data 5 =? 1)
     || negb (byte_at wire_data 10 =? 0) || (byte_at wire_data 11 >? 1)
  then Stop DCP_SYNC_FILTER_RESULT_ERROR
  else
    let q := next_rr wire_data wire_data_len true 12 in
    match rr_offset q with
    | None => Stop DCP_SYNC_FILTER_RESULT_ERROR
    | Some i =>
        let q_name_len := default 0 (rr_name_len q) in
        let q_type := default 0 (rr_qtype q) in
        let q_class := default 0 (rr_qclass q) in
        if negb (q_class =? 1) then Stop DCP_SYNC_FILTER_RESULT_OK
        else if q_name_len >? DNS_MAX_HOSTNAME_LEN then Abort
        else if negb (name_terminated (bytes_at wire_data 12 q_name_len))
        then Abort
        else
          let q_name := name_tolower (bytes_at wire_data 12 q_name_len) in
          if byte_at wire_data 11 =? 1 then
            let opt := next_rr wire_data wire_data_len false i in
            match rr_offset opt with
            | None => Stop DCP_SYNC_FILTER_RESULT_ERROR
            | Some _ =>
                let opt_type := default 0 (rr_qtype opt) in
                let opt_ttl := default 0 (rr_ttl opt) in
                if negb (opt_type =? 41) then Stop DCP_SYNC_FILTER_RESULT_OK
                else if (Z.land opt_ttl 32768 =? 32768) && (q_name_len >=? 2)
                then
                  let k := size_sub q_name_len 2 in
                  let q_name := store q_name k (toupper (byte_at q_name k)) in
                  let wire_data := store wire_data (12 + k) (byte_at q_name k) in
                  Continue (mkLookup q_name q_name_len q_type wire_data)
                else Continue (mkLookup q_name q_name_len q_type wire_data)
            end
          else Continue (mkLookup q_name q_name_len q_type wire_data)
    end.

(** Lines 240-247: the first entry, from the head, that matches. *)
Fixpoint pre_filter_scan (entries : list CacheEntry) (name : list byte)
    (name_len type : Z) : option CacheEntry :=
  match entries with
  | [] => None
  | e :: rest =>
      if entry_matches e name name_len type then Some e
      else pre_filter_scan rest name name_len type
  end.

(** Lines 274-285.  [false] is the [return DCP_SYNC_FILTER_RESULT_ERROR] of
    line 278.  Every turn consumes at least eleven bytes of the message. *)
Fixpoint rewrite_ttls (fuel : nat) (wire_data : list byte)
    (wire_data_len i aname_i ttl : Z) : bool * list byte :=
  match fuel with
  | O => (true, wire_data)
  | S fuel' =>
      let r := next_rr wire_data wire_data_len false i in
      match rr_offset r with
      | None => (true, wire_data)
      | Some i' =>
          let aname_len := default 0 (rr_name_len r) in
          let ttl_i := aname_i + aname_len + 4 in
          if 4 >? size_sub wire_data_len ttl_i then (false, wire_data)
          else rewrite_ttls fuel' (store_be32 wire_data ttl_i ttl)
                            wire_data_len i' i' ttl
      end
  end.

(** Lines 258-265: the cached response put in the packet, the query's
    transaction ID and question name written over its own.  Bytes of the
    name that fall past the length of the cached response land in the
    packet's spare capacity (the query itself was longer) and are dropped
    here, as no later read goes there. *)
Definition pre_filter_overwrite (e : CacheEntry) (lk : Lookup) : list byte :=
  let wire_data := lk_wire_data lk in
  let tid := be16 wire_data 0 in
  let q_name := bytes_at wire_data 12 (lk_qname_len lk) in
  let wire_data := take (Z.to_nat (response_len e)) (response e) in
  let wire_data := store wire_data 0 (Z.shiftr tid 8) in
  let wire_data := store wire_data 1 tid in
  memcpy wire_data 12 q_name.

(** Lines 253-286, entered with the entry found, after [time(&cache->now)]. *)
Definition pre_filter_hit (now_ : Z) (e : CacheEntry) (lk : Lookup)
    : DCPluginSyncFilterResult * list byte :=
  let wire_data := pre_filter_overwrite e lk in
  let wire_data_len := response_len e in
  match rr_offset (next_rr wire_data wire_data_len true 12) with
  | None => (DCP_SYNC_FILTER_RESULT_ERROR, wire_data)
  | Some i =>
      let ttl := u32 (deadline e - now_) in
      match rewrite_ttls (Z.to_nat wire_data_len) wire_data wire_data_len
                         i i ttl with
      | (false, wire_data) => (DCP_SYNC_FILTER_RESULT_ERROR, wire_data)
      | (true, wire_data) => (DCP_SYNC_FILTER_RESULT_DIRECT, wire_data)
      end
  end.

(** [time(&cache->now)] with the clock at [t]. *)
Definition set_now (cache : Cache) (t : Z) : Cache :=
  {| cache_entries := cache_entries cache;
     cache_entries_max := cache_entries_max cache;
     now := t;
     min_ttl := min_ttl cache |}.

Definition dcplugin_sync_pre_filter (env : Env) (cache : Cache)
    (dcp_packet : DCPluginDNSPacket) : outcome :=
  match pre_filter_question (dns_wire_data dcp_packet) with
  | Stop r => Returns r cache dcp_packet []
  | Abort => Fault
  | Continue lk =>
      let scanned_cache_entry :=
        pre_filter_scan (cache_entries cache)
                        (lk_qname lk) (lk_qname_len lk) (lk_qtype lk) in
      let cache := set_now cache (env_time env) in
      let max_len := dns_wire_data_max_len dcp_packet in
      match scanned_cache_entry with
      | Some e =>
          if (response_len e <=? max_len) && (now cache <? deadline e) then
            let '(r, wire_data) := pre_filter_hit (now cache) e lk in
            Returns r cache (mkPacket wire_data max_len) [Ev_time]
          else
            Returns DCP_SYNC_FILTER_RESULT_OK cache
                    (mkPacket (lk_wire_data lk) max_len) [Ev_time]
      | None =>
          Returns DCP_SYNC_FILTER_RESULT_OK cache
                  (mkPacket (lk_wire_data lk) max_len) [Ev_time]
      end
  end.

(** *** dcplugin_sync_post_filter *)

(** Lines 330-335: the locals [ttl] and [min_ttl] after the loop.  A failing
    [next_rr] may still have stored a TTL before its last check. *)
Fixpoint answers_loop (fuel : nat) (wire_data : list byte)
    (wire_data_len i ttl min_ttl_ : Z) : Z * Z :=
  match fuel with
  | O => (ttl, min_ttl_)
  | S fuel' =>
      let r := next_rr wire_data wire_data_len false i in
      let ttl := default ttl (rr_ttl r) in
      match rr_offset r with
      | None => (ttl, min_ttl_)
      | Some i' =>
          let min_ttl_ := if ttl <? min_ttl_ then ttl else min_ttl_ in
          answers_loop fuel' wire_data wire_data_len i' ttl min_ttl_
      end
  end.

(** What the parsing half hands to the store: [qname_len], [qtype] and the
    local [ttl] after line 338 (and the local [min_ttl], which nothing reads
    after the loop). *)
Record Capture := mkCapture {
  cp_qname_len : Z;
  cp_qtype : Z;
  cp_ttl : Z;
  cp_min_ttl : Z
}.

(** Lines 312-328: what is not stored, and, for the rest, [qname_len],
    [qtype] and the offset [i] after the question. *)
Definition post_filter_gate (wire_data : list byte) : stage (Z * Z * Z) :=
  let wire_data_len := Z.of_nat (length wire_data) in
  if (wire_data_len <? 15)
     || negb (byte_at wire_data 4 =? 0) || negb (byte_at wire_data 5 =? 1)
  then Stop DCP_SYNC_FILTER_RESULT_ERROR
  else if negb (Z.land (byte_at wire_data 2) 2 =? 0)
  then Stop DCP_SYNC_FILTER_RESULT_OK
  else if negb (Z.land (byte_at wire_data 3) 15 =? 0)
          && negb (Z.land (byte_at wire_data 3) 15 =? 3)
  then Stop DCP_SYNC_FILTER_RESULT_OK
  else
    let q := next_rr wire_data wire_data_len true 12 in
    match rr_offset q with
    | None => Stop DCP_SYNC_FILTER_RESULT_ERROR
    | Some i =>
        let q_name_len := default 0 (rr_name_len q) in
        let q_type := default 0 (rr_qtype q) in
        let q_class := default 0 (rr_qclass q) in
        if negb (q_class =? 1) then Stop DCP_SYNC_FILTER_RESULT_OK
        else Continue (q_name_len, q_type, i)
    end.

(** Lines 312-338. *)
Definition post_filter_question (env : Env) (cache : Cache)
    (wire_data : list byte) : stage Capture :=
  let wire_data_len := Z.of_nat (length wire_data) in
  match post_filter_gate wire_data with
  | Stop r => Stop r
  | Abort => Abort
  | Continue (q_name_len, q_type, i) =>
      let '(ttl, min_ttl_) :=
        answers_loop (Z.to_nat wire_data_len) wire_data wire_data_len i
                     (u32 (env_ttl_indet env)) MAX_TTL in
      let ttl := if ttl <? min_ttl cache then u32 (min_ttl cache) else ttl in
      Continue (mkCapture q_name_len q_type ttl min_ttl_)
  end.

(** Lines 339-351.  The three pointers are positions in the list; the one
    to the entry found comes with the entry it points to. *)
Record Scan := mkScan {
  scanned_cache_entry : option (nat * CacheEntry);
  last_cache_entry : option nat;
  last_cache_entry_parent : option nat;
  cache_entries_count : Z
}.

Fixpoint post_filter_scan (entries : list CacheEntry) (pos : nat)
    (name : list byte) (name_len type : Z)
    (last parent : option nat) (count : Z) : Scan :=
  match entries with
  | [] => mkScan None last parent count
  | e :: rest =>
      let count := count + 1 in
      let parent := last in
      let last := Some pos in
      if entry_matches e name name_len type
      then mkScan (Some (pos, e)) last parent count
      else post_filter_scan rest (S pos) name name_len type last parent count
  end.

Definition set_entries (cache : Cache) (entries : list CacheEntry) : Cache :=
  {| cache_entries := entries;
     cache_entries_max := cache_entries_max cache;
     now := now cache;
     min_ttl := min_ttl cache |}.

(** Lines 353-368, for the entry [e] found at position [k].
    [last_cache_entry_parent->next = NULL] ends the list right after the
    parent, at position [p]: what the list keeps is [take (S p)]. *)
Definition post_filter_update (env : Env) (cache : Cache)
    (wire_data : list byte) (ttl : Z) (s : Scan) (k : nat) (e : CacheEntry)
    : Cache * list event :=
  let wire_data_len := Z.of_nat (length wire_data) in
  let grow := wire_data_len >? response_len e in
  if grow && negb (env_realloc_ok env) then (cache, [Ev_realloc false])
  else
    let buffer :=
      if grow then wire_data
      else wire_data ++ drop (length wire_data) (response e) in
    let e' :=
      {| response := buffer;
         response_len := u16 wire_data_len;
         qname := qname e;
         qtype := qtype e;
         deadline := now cache + ttl |} in
    let entries :=
      match last_cache_entry_parent s with
      | Some p => e' :: take (S p) (cache_entries cache)
      | None => <[k := e']> (cache_entries cache)
      end in
    (set_entries cache entries, if grow then [Ev_realloc true] else []).

(** The [qname] of a new entry: zeroed by [calloc], then the question name
    copied to its front (line 384). *)
Definition qname_buffer (name : list byte) : list byte :=
  memcpy (replicate (Z.to_nat DNS_MAX_HOSTNAME_LEN) x00) 0 name.

(** Lines 370-394.  [None] is the [memcpy] of more than 256 bytes into
    [cache_entry->qname]. *)
Definition post_filter_insert (env : Env) (cache : Cache)
    (wire_data : list byte) (c : Capture) (s : Scan)
    : option (Cache * list event) :=
  let wire_data_len := Z.of_nat (length wire_data) in
  let entries := cache_entries cache in
  let '(entries, evicted) :=
    match last_cache_entry_parent s, last_cache_entry s with
    | Some p, Some l =>
        if cache_entries_count s >=? cache_entries_max cache then
          (take (S p) entries,
           match entries !! l with
           | Some last => [Ev_free_response last; Ev_free_entry last]
           | None => []
           end)
        else (entries, [])
    | _, _ => (entries, [])
    end in
  if negb (env_calloc_ok env)
  then Some (set_entries cache entries, evicted ++ [Ev_calloc false])
  else if cp_qname_len c >? DNS_MAX_HOSTNAME_LEN then None
  else
    let cache_entry_qname :=
      qname_buffer (bytes_at wire_data 12 (cp_qname_len c)) in
    if negb (env_malloc_ok env)
    then Some (set_entries cache entries,
               evicted ++ [Ev_calloc true; Ev_malloc false;
                           Ev_free_entry
                             {| response := [];
                                response_len := 0;
                                qname := cache_entry_qname;
                                qtype := cp_qtype c;
                                deadline := 0 |}])
    else
      let cache_entry :=
        {| response := wire_data;
           response_len := u16 wire_data_len;
           qname := cache_entry_qname;
           qtype := cp_qtype c;
           deadline := now cache + cp_ttl c |} in
      Some (set_entries cache (cache_entry :: entries),
            evicted ++ [Ev_calloc true; Ev_malloc true]).

(** The post-filter only reads its packet: the packet it returns is the one
    it was given.  A question name of more than 256 bytes makes the
    [memcmp] of the scan read past [qname] as soon as there is an entry to
    compare with. *)
Definition dcplugin_sync_post_filter (env : Env) (cache : Cache)
    (dcp_packet : DCPluginDNSPacket) : outcome :=
  let wire_data := dns_wire_data dcp_packet in
  match post_filter_question env cache wire_data with
  | Stop r => Returns r cache dcp_packet []
  | Abort => Fault
  | Continue c =>
      let entries := cache_entries cache in
      if (cp_qname_len c >? DNS_MAX_HOSTNAME_LEN)
         && (0 <? Z.of_nat (length entries))
      then Fault
      else
        let wire_qname := bytes_at wire_data 12 (cp_qname_len c) in
        let s := post_filter_scan entries 0 wire_qname (cp_qname_len c)
                                  (cp_qtype c) None None 0 in
        match scanned_cache_entry s with
        | Some (k, e) =>
            let '(cache, tr) :=
              post_filter_update env cache wire_data (cp_ttl c) s k e in
            Returns DCP_SYNC_FILTER_RESULT_OK cache dcp_packet tr
        | None =>
            match post_filter_insert env cache wire_data c s with
            | Some (cache, tr) =>
                Returns DCP_SYNC_FILTER_RESULT_OK cache dcp_packet tr
            | None => Fault
            end
        end
  end.

(** * Reading the header, and sample messages

    The header fields the properties below speak of, as the 16-bit values
    at their RFC 1035 positions, and the messages the worked examples run
    on. *)

Definition qdcount (p : list byte) : Z := be16 p 4.
Definition ancount (p : list byte) : Z := be16 p 6.
Definition arcount (p : list byte) : Z := be16 p 10.

(** QR = 0 and OPCODE = 0: the top five bits of the first flag byte. *)
Definition standard_query (p : list byte) : bool :=
  Z.land (byte_at p 2) 248 =? 0.

(** TC: bit 1 of the first flag byte.  RCODE: low four bits of the second. *)
Definition truncated (p : list byte) : bool :=
  negb (Z.land (byte_at p 2) 2 =? 0).

Definition rcode (p : list byte) : Z := Z.land (byte_at p 3) 15.

Definition bytes (l : list Z) : list byte := u8 <$> l.

(** "example.com", "EXAMPLE.com" and "example.coM" in wire format. *)
Definition example_com : list Z :=
  [7; 101; 120; 97; 109; 112; 108; 101; 3; 99; 111; 109; 0].
Definition EXAMPLE_com : list Z :=
  [7; 69; 88; 65; 77; 80; 76; 69; 3; 99; 111; 109; 0].
Definition example_coM : list Z :=
  [7; 101; 120; 97; 109; 112; 108; 101; 3; 99; 111; 77; 0].

(** An A record for the name at offset 12, with a TTL below 256. *)
Definition answer_a (ttl last : Z) : list Z :=
  [192; 12; 0; 1; 0; 1; 0; 0; 0; ttl; 0; 4; 93; 184; 216; last].

(** An EDNS0 OPT record; [flags_hi] is the high byte of the flags. *)
Definition opt_rr (flags_hi : Z) : list Z :=
  [0; 0; 41; 16; 0; 0; 0; flags_hi; 0; 0; 0].

(** A message with one question of type A: flag bytes [f1] and [f2],
    [an] answers announced, question class [qclass], and [rest] after the
    question. *)
Definition dns_message (f1 f2 an : Z) (name : list Z) (qclass : Z)
    (rest : list Z) : list byte :=
  bytes ([18; 52; f1; f2; 0; 1; 0; an; 0; 0; 0; 0] ++ name
         ++ [0; 1; 0; qclass] ++ rest).

(** A NOERROR response with [an] answers, and a query with one OPT record. *)
Definition response_for (name : list Z) (an : Z) (answers : list Z)
    : list byte :=
  dns_message 129 128 an name 1 answers.

Definition query_for (flags : Z) (an : Z) (name : list Z) (opt_flags_hi : Z)
    : list byte :=
  bytes ([171; 205; flags; 0; 0; 1; 0; an; 0; 0; 0; 1] ++ name
         ++ [0; 1; 0; 1] ++ opt_rr opt_flags_hi).

Definition packet_of (p : list byte) : DCPluginDNSPacket := mkPacket p 4096.

(** The answers of the spec's example: TTL 30, then TTL 120. *)
Definition response_30_120 : list byte :=
  response_for example_com 2 (answer_a 30 34 ++ answer_a 120 35).

(** An environment in which every allocation succeeds. *)
Definition env_at (t : Z) : Env := mkEnv t true true true 0.

(** A response message, QR = 1 and OPCODE = 5, that announces one answer,
    handed to the pre-filter. *)
Definition query_not_standard : list byte := query_for 168 1 example_com 0.

(** A query that announces two additional records. *)
Definition query_two_additional : list byte :=
  bytes [0; 0; 1; 0; 0; 1; 0; 0; 0; 0; 0; 2; 0; 0; 1; 0; 1].

(** The cache after a run of post-filter calls; [None] if one of them
    faults. *)
Fixpoint post_filter_run (cache : Cache)
    (calls : list (Env * DCPluginDNSPacket)) : option Cache :=
  match calls with
  | [] => Some cache
  | (env, pkt) :: rest =>
      match dcplugin_sync_post_filter env cache pkt with
      | Returns _ cache' _ _ => post_filter_run cache' rest
      | Fault => None
      end
  end.

(** "a.com", "b.com" and "c.com", and responses for them carrying one
    answer with the given last address byte. *)
Definition x_com (x : Z) : list Z := [1; x; 3; 99; 111; 109; 0].
Definition response_a : list byte := response_for (x_com 97) 1 (answer_a 200 1).
Definition response_b : list byte := response_for (x_com 98) 1 (answer_a 200 2).
Definition response_c : list byte := response_for (x_com 99) 1 (answer_a 200 3).
Definition response_b' : list byte := response_for (x_com 98) 1 (answer_a 200 9).




(** The cache after [dcplugin_init] and one pre-filter lookup at time 1000. *)
Definition cache_1000 : Cache :=
  {| cache_entries := [];
     cache_entries_max := DEFAULT_CACHE_ENTRIES_MAX;
     now := 1000;
     min_ttl := DEFAULT_MIN_TTL |}.

(** The deadlines and the responses a cache holds, head first. *)
Definition deadlines (c : Cache) : list Z := deadline <$> cache_entries c.
Definition responses (c : Cache) : list (list byte) :=
  response <$> cache_entries c.

(** The cache a filter call leaves, [None] on a fault. *)
Definition cache_of (o : outcome) : option Cache :=
  match o with
  | Returns _ c _ _ => Some c
  | Fault => None
  end.

(** The cache after the example response was stored at time 1000. *)
Definition cache_one_entry : Cache :=
  Eval vm_compute in
    default cache_1000
      (cache_of (dcplugin_sync_post_filter (env_at 0) cache_1000
                   (packet_of response_30_120))).

(** The calls a filter made, [[]] on a fault. *)
Definition trace_of (o : outcome) : list event :=
  match o with
  | Returns _ _ _ tr => tr
  | Fault => []
  end.

(** The cache after the responses for c.com, b.com and a.com were stored,
    in this order, from [cache_1000]. *)
Definition cache_abc : Cache :=
  Eval vm_compute in
    default cache_1000
      (post_filter_run cache_1000
         [(env_at 0, packet_of response_c);
          (env_at 0, packet_of response_b);
          (env_at 0, packet_of response_a)]).

(** Flipping the case of an ASCII letter, as the spec words the effect of
    the DO bit. *)
Definition case_flip (c : Z) : Z :=
  if (65 <=? c) && (c <=? 90) then c + 32
  else if (97 <=? c) && (c <=? 122) then c - 32
  else c.

(** A query for a question of name length [n] and type [q_type] that passes
    the pre-filter's checks and carries one additional record, an OPT record
    with the DO bit set.  The name holds a zero byte, as every name closed
    by the root label does, so that [name_tolower] ends inside it. *)
Definition edns_do_query (wd : list byte) (n q_type : Z) : Prop :=
  let len := Z.of_nat (length wd) in
  15 <= len < 2 ^ 64 /\ qdcount wd = 1 /\ arcount wd = 1 /\
  n <= DNS_MAX_HOSTNAME_LEN /\
  name_terminated (bytes_at wd 12 n) = true /\
  exists i opt_end opt_ttl,
    next_rr wd len true 12
    = mkRR (Some n) (Some q_type) (Some 1) None (Some i) /\
    rr_offset (next_rr wd len false i) = Some opt_end /\
    rr_qtype (next_rr wd len false i) = Some 41 /\
    rr_ttl (next_rr wd len false i) = Some opt_ttl /\
    Z.land opt_ttl 32768 = 32768.

(** Queries with the DO bit set, for "example.com" and for "example.coM". *)
Definition query_do_lower : list byte := query_for 1 0 example_com 128.
Definition query_do_upper : list byte := query_for 1 0 example_coM 128.

(** What a parsing half hands over, when it does. *)
Definition continued {A : Type} (s : stage A) : option A :=
  match s with
  | Continue a => Some a
  | _ => None
  end.

(** The fields of an entry hold values of their C types: [response_len]
    and [qtype] are [uint16_t], [qname] is an array of 256 bytes. *)
Definition entry_wf (e : CacheEntry) : Prop :=
  0 <= response_len e < 2 ^ 16 /\ 0 <= qtype e < 2 ^ 16 /\
  length (qname e) = Z.to_nat DNS_MAX_HOSTNAME_LEN.

Definition cache_wf (c : Cache) : Prop := Forall entry_wf (cache_entries c).

(** The result a filter call returns, [None] on a fault. *)
Definition result_of (o : outcome) : option DCPluginSyncFilterResult :=
  match o with
  | Returns r _ _ _ => Some r
  | Fault => None
  end.

(** Two names with labels longer than DNS allows but that [skip_name]
    takes: [name_long_q] starts with a label of 65 bytes, whose length byte
    is the letter A; [name_long_r] is what [name_tolower] makes of it, read
    as a name: a label of 97 bytes (length byte a) and the root. *)
Definition name_long_q : list Z :=
  [65] ++ replicate 65 97 ++ [60] ++ replicate 31 97 ++ replicate 29 0 ++ [0].
Definition name_long_r : list Z :=
  [97] ++ replicate 65 97 ++ [60] ++ replicate 31 97 ++ [0].

Definition response_long : list byte :=
  response_for name_long_r 1 (answer_a 200 1).
Definition query_long : list byte := query_for 1 0 name_long_q 0.

(** The cache after [response_long] was stored. *)
Definition cache_long : Cache :=
  Eval vm_compute in
    default cache_1000
      (cache_of (dcplugin_sync_post_filter (env_at 0) cache_1000
                   (packet_of response_long))).

(** A query for "EXAMPLE.com" without the DO bit, and what the parsing
    half of the pre-filter makes of it. *)
Definition query_upper : list byte := query_for 1 0 EXAMPLE_com 0.

Definition lookup_upper : Lookup :=
  Eval vm_compute in
    default (mkLookup [] 0 0 [])
      (continued (pre_filter_question query_upper)).

(** The name and type under which the post-filter files a response, when
    it gets as far as the cache with it. *)
Definition response_key (wd : list byte) : option (list byte * Z) :=
  match post_filter_gate wd with
  | Continue (n, t, _) =>
      if n <=? DNS_MAX_HOSTNAME_LEN then Some (bytes_at wd 12 n, t) else None
  | _ => None
  end.

(** The caches the plugin can be in: the one [dcplugin_init] makes, and
    what any filter call that returns leaves behind. *)
Inductive reachable : Cache -> Prop :=
| reachable_init : reachable dcplugin_init
| reachable_pre env c pkt r c' pkt' tr :
    reachable c ->
    dcplugin_sync_pre_filter env c pkt = Returns r c' pkt' tr ->
    reachable c'
| reachable_post env c pkt r c' pkt' tr :
    reachable c ->
    dcplugin_sync_post_filter env c pkt = Returns r c' pkt' tr ->
    reachable c'.

(** [wire_name l n]: the first [n] bytes of [l] are one encoded name as
    [skip_name] walks it: labels, closed by the root label or by a two-byte
    compression pointer. *)
Inductive wire_name : list byte -> nat -> Prop :=
| wire_name_pointer b b' rest :
    Z.land (byte_Z b) 192 = 192 ->
    wire_name (b :: b' :: rest) 2
| wire_name_root b rest :
    byte_Z b = 0 ->
    wire_name (b :: rest) 1
| wire_name_label b rest m :
    Z.land (byte_Z b) 192 <> 192 -> byte_Z b <> 0 ->
    (Z.to_nat (byte_Z b) <= length rest)%nat ->
    wire_name (drop (Z.to_nat (byte_Z b)) rest) m ->
    wire_name (b :: rest) (S (Z.to_nat (byte_Z b) + m)).

(** Making room, as the spec words it: when the list holds [max] entries
    or more, the entry at its tail goes and its storage is released. *)
Definition evict_tail (max : Z) (es : list CacheEntry)
    : list CacheEntry * list event :=
  if max <=? Z.of_nat (length es)
  then (take (length es - 1) es,
        match last es with
        | Some l => [Ev_free_response l; Ev_free_entry l]
        | None => []
        end)
  else (es, []).

(** The entry [e] is the one the post-filter made of the response [wd]. *)
Definition filed (e : CacheEntry) (wd : list byte) : Prop :=
  response e = wd /\
  exists name t,
    response_key wd = Some (name, t) /\
    qname e = qname_buffer name /\ qtype e = t.

(** A post-filter call that is bound to file its response: the response
    passes the gates with a name of at most 256 bytes, the message length
    fits a [size_t], and both allocations succeed. *)
Definition files (call : Env * DCPluginDNSPacket) : Prop :=
  env_calloc_ok call.1 = true /\ env_malloc_ok call.1 = true /\
  dcplugin_get_wire_data_len call.2 < 2 ^ 64 /\
  is_Some (response_key (dns_wire_data call.2)).

Definition call_wire (call : Env * DCPluginDNSPacket) : list byte :=
  dns_wire_data call.2.

Definition call_key (call : Env * DCPluginDNSPacket)
    : option (list byte * Z) :=
  response_key (dns_wire_data call.2).

(** Fifty-one responses for fifty-one different one-letter names, each
    filed with every allocation succeeding; the cache after the first
    fifty; and the fifty-first call. *)
Definition call_51 (k : nat) : Env * DCPluginDNSPacket :=
  (env_at 0,
   packet_of (response_for (x_com (97 + Z.of_nat k)) 1 (answer_a 200 1))).

Definition calls_51 : list (Env * DCPluginDNSPacket) :=
  Eval vm_compute in call_51 <$> seq 0 51.

Definition cache_50 : Cache :=
  Eval vm_compute in
    default dcplugin_init (post_filter_run dcplugin_init (take 50 calls_51)).

(** The offsets of the TTL fields of the records after the question, as
    [next_rr] walks them from offset [i]. *)
Fixpoint ttl_fields (fuel : nat) (p : list byte) (len i : Z) : list Z :=
  match fuel with
  | O => []
  | S fuel' =>
      let r := next_rr p len false i in
      match rr_offset r with
      | None => []
      | Some i' =>
          (i + default 0 (rr_name_len r) + 4) :: ttl_fields fuel' p len i'
      end
  end.

Definition record_ttl_fields (p : list byte) : list Z :=
  let len := Z.of_nat (length p) in
  match rr_offset (next_rr p len true 12) with
  | Some i => ttl_fields (Z.to_nat len) p len i
  | None => []
  end.

(** A response whose question spells the name "EXAMPLE.com", the cache
    after it was stored at time 1000, and a query for "example.com". *)
Definition response_upper : list byte :=
  response_for EXAMPLE_com 2 (answer_a 30 34 ++ answer_a 120 35).

Definition cache_upper : Cache :=
  Eval vm_compute in
    default cache_1000
      (cache_of (dcplugin_sync_post_filter (env_at 0) cache_1000
                   (packet_of response_upper))).

Definition query_lower : list byte := query_for 1 0 example_com 0.

Definition lookup_lower : Lookup :=
  Eval vm_compute in
    default (mkLookup [] 0 0 [])
      (continued (pre_filter_question query_lower)).

(** ** More sample messages and caches *)

(** A query that ends with its question: nothing follows the class. *)
Definition query_bare : list byte :=
  bytes ([171; 205; 1; 0; 0; 1; 0; 0; 0; 0; 0; 0] ++ example_com ++ [0; 1; 0; 1]).

(** The entry at position [k] of a cache; the sample caches are read with it. *)
Definition entry_at (c : Cache) (k : nat) : CacheEntry :=
  default (mkCacheEntry [] 0 [] 0 0) (cache_entries c !! k).

(** An environment in which [calloc] fails. *)
Definition env_no_calloc : Env := mkEnv 0 false true true 0.

(** The stored name and type of an entry: what both scans compare. *)
Definition entry_key (e : CacheEntry) : list byte * Z := (qname e, qtype e).

(** The buffer of an entry holds at least [response_len] bytes. *)
Definition entry_backed (e : CacheEntry) : Prop :=
  0 <= response_len e <= Z.of_nat (length (response e)).

(** A question name of 258 bytes: four labels of 63 bytes and a
    compression pointer; and a query for it. *)
Definition name_258 : list Z :=
  concat (replicate 4 (63 :: replicate 63 97)) ++ [192; 12].

Definition query_258 : list byte :=
  bytes ([171; 205; 1; 0; 0; 1; 0; 0; 0; 0; 0; 0] ++ name_258
         ++ [0; 1; 0; 1; 0; 0]).

(** A query for a name without a zero byte: the label "a" and a
    compression pointer to offset 12. *)
Definition query_pointer : list byte :=
  bytes [171; 205; 1; 0; 0; 1; 0; 0; 0; 0; 0; 0;
         1; 97; 192; 12; 0; 1; 0; 1; 0; 0].

(** A response without any record after its question. *)
Definition response_empty : list byte :=
  dns_message 129 128 0 example_com 1 [0; 0].



(** The cache after a second response for b.com was stored in
    [cache_abc]. *)
Definition cache_ba : Cache :=
  Eval vm_compute in
    default cache_abc
      (cache_of (dcplugin_sync_post_filter (env_at 0) cache_abc
                   (packet_of response_b'))).

(** The packet the pre-filter hands back for the query for "EXAMPLE.com"
    at time 1100, from [cache_one_entry]. *)
Definition answer_upper : DCPluginDNSPacket :=
  Eval vm_compute in
    match dcplugin_sync_pre_filter (env_at 1100) cache_one_entry
            (packet_of query_upper) with
    | Returns _ _ p _ => p
    | Fault => packet_of []
    end.

(** * Properties *)

(** ** Bytes and machine arithmetic *)

Lemma byte_Z_range (b : byte) : 0 <= byte_Z b < 256.
Proof.
  unfold byte_Z. pose proof (Byte.to_N_bounded b) as Hb. lia.
Qed.

Lemma byte_Z_u8 (z : Z) : byte_Z (u8 z) = z mod 256.
Proof.
  unfold u8, byte_Z.
  pose proof (Z.mod_pos_bound z 256 ltac:(lia)) as Hr.
  destruct (Byte.of_N (Z.to_N (z mod 256))) as [b|] eqn:E; simpl.
  - apply Byte.to_of_N in E. rewrite E. lia.
  - apply Byte.of_N_None_iff in E. lia.
Qed.

Lemma u8_byte_Z (b : byte) : u8 (byte_Z b) = b.
Proof.
  unfold u8, byte_Z. pose proof (Byte.to_N_bounded b) as Hb.
  rewrite Z.mod_small by lia. rewrite N2Z.id, Byte.of_to_N. reflexivity.
Qed.

Lemma byte_Z_inj (a b : byte) : byte_Z a = byte_Z b -> a = b.
Proof. intros H. rewrite <- (u8_byte_Z a), <- (u8_byte_Z b), H. reflexivity. Qed.

Lemma byte_at_range (p : list byte) (i : Z) : 0 <= byte_at p i < 256.
Proof. apply byte_Z_range. Qed.

Lemma size_sub_small (a b : Z) : 0 <= b <= a -> a < 2 ^ 64 -> size_sub a b = a - b.
Proof. intros. unfold size_sub. apply Z.mod_small. lia. Qed.

Lemma byte_at_lookup (p : list byte) (i : Z) (b : byte) :
  p !! Z.to_nat i = Some b -> byte_at p i = byte_Z b.
Proof. unfold byte_at. intros ->. reflexivity. Qed.

Lemma store_length (p : list byte) (i v : Z) : length (store p i v) = length p.
Proof. apply length_insert. Qed.

Lemma byte_at_store_ne (p : list byte) (i j v : Z) :
  0 <= i -> 0 <= j -> i <> j -> byte_at (store p i v) j = byte_at p j.
Proof.
  intros Hi Hj Hne. unfold byte_at, store.
  rewrite list_lookup_insert_ne by lia. reflexivity.
Qed.

Lemma byte_at_store_eq (p : list byte) (i v : Z) :
  0 <= i < Z.of_nat (length p) -> byte_at (store p i v) i = v mod 256.
Proof.
  intros Hi. unfold byte_at, store.
  rewrite list_lookup_insert_eq by lia. simpl. apply byte_Z_u8.
Qed.

Lemma store_be32_length (p : list byte) (i v : Z) :
  length (store_be32 p i v) = length p.
Proof. unfold store_be32. rewrite !store_length. reflexivity. Qed.

Lemma byte_at_store_be32_ne (p : list byte) (i j v : Z) :
  0 <= i -> 0 <= j -> j < i \/ i + 4 <= j ->
  byte_at (store_be32 p i v) j = byte_at p j.
Proof.
  intros Hi Hj Hne. unfold store_be32.
  rewrite !byte_at_store_ne by lia. reflexivity.
Qed.

(** Reading back the four bytes of a stored 32-bit value. *)
Lemma be32_bits (b0 b1 b2 b3 v : Z) :
  b0 = Z.shiftr v 24 mod 256 -> b1 = Z.shiftr v 16 mod 256 ->
  b2 = Z.shiftr v 8 mod 256 -> b3 = v mod 256 ->
  Z.lor (Z.lor (Z.lor (Z.shiftl b0 24) (Z.shiftl b1 16)) (Z.shiftl b2 8)) b3
  = v mod 2 ^ 32.
Proof.
  intros -> -> -> ->.
  change 256 with (2 ^ 8).
  apply Z.bits_inj'. intros n Hn.
  rewrite !Z.lor_spec.
  rewrite !Z.shiftl_spec by lia.
  destruct (Z.lt_ge_cases n 8) as [H8|H8].
  { rewrite (Z.mod_pow2_bits_low v 32), (Z.mod_pow2_bits_low v 8) by lia.
    rewrite !(Z.testbit_neg_r _ (n - _)) by lia. reflexivity. }
  rewrite (Z.mod_pow2_bits_high v 8) by lia.
  destruct (Z.lt_ge_cases n 16) as [H16|H16].
  { rewrite (Z.mod_pow2_bits_low v 32) by lia.
    rewrite !(Z.testbit_neg_r _ (n - 24)), !(Z.testbit_neg_r _ (n - 16)) by lia.
    rewrite Z.mod_pow2_bits_low, Z.shiftr_spec by lia.
    simpl. rewrite orb_false_r. f_equal. lia. }
  rewrite (Z.mod_pow2_bits_high _ 8 (n - 8)) by lia.
  destruct (Z.lt_ge_cases n 24) as [H24|H24].
  { rewrite (Z.mod_pow2_bits_low v 32) by lia.
    rewrite !(Z.testbit_neg_r _ (n - 24)) by lia.
    rewrite Z.mod_pow2_bits_low, Z.shiftr_spec by lia.
    simpl. rewrite !orb_false_r. f_equal. lia. }
  rewrite (Z.mod_pow2_bits_high _ 8 (n - 16)) by lia.
  destruct (Z.lt_ge_cases n 32) as [H32|H32].
  { rewrite (Z.mod_pow2_bits_low v 32) by lia.
    rewrite Z.mod_pow2_bits_low, Z.shiftr_spec by lia.
    simpl. rewrite !orb_false_r. f_equal. lia. }
  rewrite (Z.mod_pow2_bits_high _ 8 (n - 24)) by lia.
  rewrite (Z.mod_pow2_bits_high v 32) by lia. reflexivity.
Qed.

Lemma be32_store_be32 (p : list byte) (i v : Z) :
  0 <= i -> i + 4 <= Z.of_nat (length p) ->
  be32 (store_be32 p i v) i = u32 v.
Proof.
  intros Hi Hlen. unfold be32.
  assert (byte_at (store_be32 p i v) i = Z.shiftr v 24 mod 256) as ->.
  { unfold store_be32. rewrite !byte_at_store_ne by lia.
    apply byte_at_store_eq. lia. }
  assert (byte_at (store_be32 p i v) (i + 1) = Z.shiftr v 16 mod 256) as ->.
  { unfold store_be32. rewrite !byte_at_store_ne by lia.
    apply byte_at_store_eq. rewrite store_length. lia. }
  assert (byte_at (store_be32 p i v) (i + 2) = Z.shiftr v 8 mod 256) as ->.
  { unfold store_be32. rewrite !byte_at_store_ne by lia.
    apply byte_at_store_eq. rewrite !store_length. lia. }
  assert (byte_at (store_be32 p i v) (i + 3) = v mod 256) as ->.
  { unfold store_be32. apply byte_at_store_eq. rewrite !store_length. lia. }
  erewrite be32_bits by reflexivity.
  unfold u32. apply Z.mod_mod. lia.
Qed.

(** ** skip_name *)

Ltac zcase :=
  match goal with
  | |- context [?a >? ?b] => rewrite (Z.gtb_ltb a b)
  | |- context [?a >=? ?b] => rewrite (Z.geb_leb a b)
  | |- context [?a <? ?b] => destruct (Z.ltb_spec a b)
  | |- context [?a <=? ?b] => destruct (Z.leb_spec a b)
  | |- context [?a =? ?b] => destruct (Z.eqb_spec a b)
  end.

Ltac zcase_in H :=
  match type of H with
  | context [?a >? ?b] => rewrite (Z.gtb_ltb a b) in H
  | context [?a >=? ?b] => rewrite (Z.geb_leb a b) in H
  | context [?a <? ?b] => destruct (Z.ltb_spec a b)
  | context [?a <=? ?b] => destruct (Z.leb_spec a b)
  | context [?a =? ?b] => destruct (Z.eqb_spec a b)
  end.

Section SkipName.
Variable len : Z.
Hypothesis len_size_t : 0 <= len < 2 ^ 64.

(** Where a successful walk ends: past its start, within the message, and
    with the name length the source accumulates kept within 256. *)
Lemma skip_name_loop_bounds (fuel : nat) (p : list byte) (off nl off' : Z) :
  0 <= off < len -> 0 <= nl <= DNS_MAX_HOSTNAME_LEN ->
  skip_name_loop fuel p len off nl = Some off' ->
  off < off' <= len /\ off' - off <= DNS_MAX_HOSTNAME_LEN - nl + 2.
Proof.
  unfold DNS_MAX_HOSTNAME_LEN.
  revert off nl. induction fuel as [|fuel IH]; intros off nl Hoff Hnl H.
  { discriminate. }
  simpl in H. pose proof (byte_at_range p off) as Hb.
  rewrite !size_sub_small in H by (rewrite ?size_sub_small; lia).
  unfold DNS_MAX_HOSTNAME_LEN in H.
  repeat (zcase_in H; try discriminate);
    solve [ inversion H; subst; lia | apply IH in H; lia ].
Qed.

(** The packet length is fuel enough: more fuel changes nothing. *)
Lemma skip_name_loop_fuel (fuel fuel' : nat) (p : list byte) (off nl : Z) :
  0 <= off < len ->
  (len - off <= Z.of_nat fuel) -> (len - off <= Z.of_nat fuel') ->
  skip_name_loop fuel p len off nl = skip_name_loop fuel' p len off nl.
Proof.
  revert fuel' off nl.
  induction fuel as [|fuel IH]; intros fuel' off nl Hoff Hf Hf'.
  { lia. }
  destruct fuel' as [|fuel']; [lia|].
  simpl. pose proof (byte_at_range p off) as Hb.
  rewrite !size_sub_small by (rewrite ?size_sub_small; lia).
  repeat (zcase; try reflexivity).
  all: apply IH; lia.
Qed.

(** The walk only looks at the bytes from its start to the end of the
    message. *)
Lemma skip_name_loop_ext (fuel : nat) (p p' : list byte) (off nl : Z) :
  0 <= off < len ->
  (forall j, off <= j < len -> byte_at p j = byte_at p' j) ->
  skip_name_loop fuel p len off nl = skip_name_loop fuel p' len off nl.
Proof.
  revert off nl. induction fuel as [|fuel IH]; intros off nl Hoff Hext.
  { reflexivity. }
  simpl. rewrite <- (Hext off) by lia.
  pose proof (byte_at_range p off) as Hb.
  rewrite !size_sub_small by (rewrite ?size_sub_small; lia).
  repeat (zcase; try reflexivity).
  all: apply IH; [lia|]; intros j Hj; apply Hext; lia.
Qed.

(** A successful walk only looks at the bytes of the name it skips. *)
Lemma skip_name_loop_ext_Some (fuel : nat) (p p' : list byte)
    (off nl off' : Z) :
  0 <= off < len -> 0 <= nl <= DNS_MAX_HOSTNAME_LEN ->
  skip_name_loop fuel p len off nl = Some off' ->
  (forall j, off <= j < off' -> byte_at p j = byte_at p' j) ->
  skip_name_loop fuel p' len off nl = Some off'.
Proof.
  revert off nl. induction fuel as [|fuel IH]; intros off nl Hoff Hnl H Hext.
  { discriminate. }
  assert (off < off') as Hlt
    by (apply (skip_name_loop_bounds _ _ _ _ _ Hoff Hnl H)).
  revert H. simpl. rewrite <- (Hext off) by lia.
  pose proof (byte_at_range p off) as Hb.
  rewrite !size_sub_small by (rewrite ?size_sub_small; lia).
  unfold DNS_MAX_HOSTNAME_LEN in *.
  repeat (zcase; try tauto).
  all: intros Hs; apply IH; [lia|lia|auto|]; intros j Hj; apply Hext; lia.
Qed.

Lemma skip_name_bounds (p : list byte) (off off' : Z) :
  0 <= off -> skip_name p len off = Some off' ->
  off < off' < len /\ off' - off <= DNS_MAX_HOSTNAME_LEN + 2.
Proof.
  intros Hoff H. unfold skip_name in H.
  destruct (len <? 1) eqn:E1; [discriminate|].
  apply Z.ltb_ge in E1. simpl in H.
  rewrite size_sub_small in H by lia.
  destruct (off >=? len - 1) eqn:E2; [discriminate|].
  rewrite Z.geb_leb in E2. apply Z.leb_gt in E2.
  destruct (skip_name_loop _ _ _ _ _) as [o|] eqn:E; [|discriminate].
  apply skip_name_loop_bounds in E; [|lia|unfold DNS_MAX_HOSTNAME_LEN; lia].
  destruct (o >=? len) eqn:E3; [discriminate|].
  rewrite Z.geb_leb in E3. apply Z.leb_gt in E3.
  inversion H; subst. lia.
Qed.

Lemma skip_name_ext_Some (p p' : list byte) (off off' : Z) :
  0 <= off ->
  skip_name p len off = Some off' ->
  (forall j, off <= j < off' -> byte_at p j = byte_at p' j) ->
  skip_name p' len off = Some off'.
Proof.
  intros Hoff H Hext. unfold skip_name in *.
  destruct (len <? 1) eqn:E1; [discriminate|].
  apply Z.ltb_ge in E1. simpl in *.
  rewrite size_sub_small in * by lia.
  destruct (off >=? len - 1) eqn:E2; [discriminate|].
  rewrite Z.geb_leb in E2. apply Z.leb_gt in E2.
  destruct (skip_name_loop _ p _ _ _) as [o|] eqn:E; [|discriminate].
  destruct (o >=? len) eqn:E3; [discriminate|].
  inversion H; subst o.
  erewrite skip_name_loop_ext_Some; eauto; [|lia|unfold DNS_MAX_HOSTNAME_LEN; lia].
  rewrite E3. reflexivity.
Qed.

Lemma skip_name_ext (p p' : list byte) (off : Z) :
  0 <= off ->
  (forall j, off <= j < len -> byte_at p j = byte_at p' j) ->
  skip_name p len off = skip_name p' len off.
Proof.
  intros Hoff Hext. unfold skip_name.
  destruct (len <? 1) eqn:E1; [reflexivity|].
  apply Z.ltb_ge in E1. simpl.
  rewrite size_sub_small by lia.
  destruct (off >=? len - 1) eqn:E2; [reflexivity|].
  rewrite Z.geb_leb in E2. apply Z.leb_gt in E2.
  rewrite (skip_name_loop_ext _ p p') by (auto; lia). reflexivity.
Qed.
End SkipName.

(** ** next_rr *)

Lemma be16_ext (p p' : list byte) (i : Z) :
  byte_at p i = byte_at p' i -> byte_at p (i + 1) = byte_at p' (i + 1) ->
  be16 p i = be16 p' i.
Proof. unfold be16. intros -> ->. reflexivity. Qed.

Lemma be32_ext (p p' : list byte) (i : Z) :
  byte_at p i = byte_at p' i -> byte_at p (i + 1) = byte_at p' (i + 1) ->
  byte_at p (i + 2) = byte_at p' (i + 2) ->
  byte_at p (i + 3) = byte_at p' (i + 3) ->
  be32 p i = be32 p' i.
Proof. unfold be32. intros -> -> -> ->. reflexivity. Qed.

Lemma be16_range (p : list byte) (i : Z) : 0 <= be16 p i < 2 ^ 16.
Proof. unfold be16, u16. apply Z.mod_pos_bound. lia. Qed.

Lemma be32_range (p : list byte) (i : Z) : 0 <= be32 p i < 2 ^ 32.
Proof. unfold be32, u32. apply Z.mod_pos_bound. lia. Qed.

Section NextRR.
Variable len : Z.
Hypothesis len_size_t : 0 <= len < 2 ^ 64.

(** A question that parses: the name ends at [o], at least six bytes are
    left there (the source asks for six although it reads four). *)
Lemma next_rr_question_Some (p : list byte) (off i : Z) :
  0 <= off ->
  rr_offset (next_rr p len true off) = Some i ->
  exists o,
    skip_name p len off = Some o /\ i = o + 4 /\ o + 6 <= len /\
    next_rr p len true off
    = mkRR (Some (o - off)) (Some (be16 p o)) (Some (be16 p (o + 2))) None
           (Some (o + 4)).
Proof.
  intros Hoff H. unfold next_rr in *.
  destruct (skip_name p len off) as [o|] eqn:E; [|discriminate].
  pose proof (skip_name_bounds len len_size_t _ _ _ Hoff E) as Hb.
  rewrite !size_sub_small in * by lia.
  destruct (6 >? len - o) eqn:E6; [discriminate|].
  rewrite Z.gtb_ltb in E6. apply Z.ltb_ge in E6.
  simpl in H. inversion H; subst.
  exists o. repeat split; auto; lia.
Qed.

(** A record that parses: name up to [o], then type, class, TTL, RDLENGTH
    and that many bytes of RDATA, all within the message. *)
Lemma next_rr_record_Some (p : list byte) (off i : Z) :
  0 <= off ->
  rr_offset (next_rr p len false off) = Some i ->
  exists o,
    skip_name p len off = Some o /\
    i = o + 10 + be16 p (o + 8) /\ i <= len /\
    next_rr p len false off
    = mkRR (Some (o - off)) (Some (be16 p o)) (Some (be16 p (o + 2)))
           (Some (be32 p (o + 4))) (Some i).
Proof.
  intros Hoff H. unfold next_rr in *.
  destruct (skip_name p len off) as [o|] eqn:E; [|discriminate].
  pose proof (skip_name_bounds len len_size_t _ _ _ Hoff E) as Hb.
  rewrite !(size_sub_small o off), !(size_sub_small len o) in * by lia.
  destruct (10 >? len - o) eqn:E10; [discriminate|].
  rewrite Z.gtb_ltb in E10. apply Z.ltb_ge in E10.
  rewrite size_sub_small in * by lia.
  replace (o + 4 + 4) with (o + 8) in * by lia.
  pose proof (be16_range p (o + 8)) as Hr.
  destruct (be16 p (o + 8) >? len - (o + 8 + 2)) eqn:Erd; [discriminate|].
  rewrite Z.gtb_ltb in Erd. apply Z.ltb_ge in Erd.
  simpl in H. inversion H; subst.
  exists o. repeat split; auto; lia.
Qed.

(** [next_rr] only looks at the bytes from its start to the end of the
    message. *)
Lemma next_rr_ext (p p' : list byte) (q : bool) (off : Z) :
  0 <= off ->
  (forall j, off <= j < len -> byte_at p j = byte_at p' j) ->
  next_rr p len q off = next_rr p' len q off.
Proof.
  intros Hoff Hext. unfold next_rr.
  rewrite <- (skip_name_ext len len_size_t p p' off Hoff Hext).
  destruct (skip_name p len off) as [o|] eqn:E; [|reflexivity].
  pose proof (skip_name_bounds len len_size_t _ _ _ Hoff E) as Hb.
  rewrite !(size_sub_small len o) by lia.
  destruct (_ >? len - o) eqn:E6; [reflexivity|].
  rewrite Z.gtb_ltb in E6. apply Z.ltb_ge in E6.
  assert (6 <= len - o) by (destruct q; lia).
  rewrite <- (be16_ext p p' o), <- (be16_ext p p' (o + 2))
    by (apply Hext; lia).
  destruct q; [reflexivity|].
  rewrite <- (be32_ext p p' (o + 4)), <- (be16_ext p p' (o + 4 + 4))
    by (apply Hext; lia).
  reflexivity.
Qed.

(** The structure [next_rr] finds depends on the name and on the fixed
    fields of the record other than its TTL: with other bytes in the TTL
    field, or after the ten fixed bytes, only [rr_ttl] changes. *)
Lemma next_rr_ext_ttl (p p' : list byte) (off o i : Z) :
  0 <= off ->
  skip_name p len off = Some o ->
  rr_offset (next_rr p len false off) = Some i ->
  (forall j, off <= j < o + 10 -> ~ (o + 4 <= j < o + 8) ->
             byte_at p j = byte_at p' j) ->
  next_rr p' len false off
  = mkRR (Some (o - off)) (Some (be16 p o)) (Some (be16 p (o + 2)))
         (Some (be32 p' (o + 4))) (Some i).
Proof.
  intros Hoff E H Hext.
  destruct (next_rr_record_Some p off i Hoff H) as (o' & E' & Hi & Hlen & _).
  rewrite E in E'. inversion E'; subst o'. clear E'.
  pose proof (skip_name_bounds len len_size_t _ _ _ Hoff E) as Hb.
  pose proof (be16_range p (o + 8)) as Hr.
  unfold next_rr.
  rewrite (skip_name_ext_Some len len_size_t p p' off o Hoff E)
    by (intros j Hj; apply Hext; lia).
  rewrite !(size_sub_small o off), !(size_sub_small len o) by lia.
  destruct (10 >? len - o) eqn:E10.
  { rewrite Z.gtb_ltb in E10. apply Z.ltb_lt in E10. lia. }
  rewrite size_sub_small by lia.
  replace (o + 4 + 4) with (o + 8) by lia.
  rewrite <- (be16_ext p p' o), <- (be16_ext p p' (o + 2)),
    <- (be16_ext p p' (o + 8)) by (apply Hext; lia).
  destruct (be16 p (o + 8) >? len - (o + 8 + 2)) eqn:Erd.
  { rewrite Z.gtb_ltb in Erd. apply Z.ltb_lt in Erd. lia. }
  do 2 f_equal. lia.
Qed.
End NextRR.

(** ** Header fields *)

Lemma lor_shiftl_8 (hi lo : Z) :
  0 <= lo < 256 -> Z.lor (Z.shiftl hi 8) lo = hi * 256 + lo.
Proof.
  intros Hlo.
  pose proof (Z.add_lor_land (Z.shiftl hi 8) lo) as Hadd.
  assert (Z.land (Z.shiftl hi 8) lo = 0) as Hland.
  { apply Z.bits_inj'. intros n Hn.
    rewrite Z.land_spec, Z.bits_0.
    destruct (Z.lt_ge_cases n 8).
    - rewrite Z.shiftl_spec_low by lia. reflexivity.
    - rewrite <- (Z.mod_small lo (2 ^ 8)) by (change (2 ^ 8) with 256; lia).
      rewrite Z.mod_pow2_bits_high by lia. apply andb_false_r. }
  rewrite Hland in Hadd. rewrite Z.shiftl_mul_pow2 in * by lia.
  change (2 ^ 8) with 256 in *. lia.
Qed.

Lemma be16_eq (p : list byte) (i : Z) :
  be16 p i = byte_at p i * 256 + byte_at p (i + 1).
Proof.
  unfold be16, u16.
  pose proof (byte_at_range p i). pose proof (byte_at_range p (i + 1)).
  rewrite lor_shiftl_8 by lia. apply Z.mod_small. lia.
Qed.

(** ** The header checks of the pre-filter *)

Lemma pre_filter_question_header (p : list byte) :
  Z.of_nat (length p) < 15 \/ qdcount p <> 1 \/
    (arcount p <> 0 /\ arcount p <> 1) ->
  pre_filter_question p = Stop DCP_SYNC_FILTER_RESULT_ERROR.
Proof.
  unfold qdcount, arcount. rewrite !be16_eq.
  change (4 + 1) with 5. change (10 + 1) with 11.
  pose proof (byte_at_range p 4). pose proof (byte_at_range p 5).
  pose proof (byte_at_range p 10). pose proof (byte_at_range p 11).
  intros Hbad. unfold pre_filter_question.
  destruct (_ || _) eqn:E; [reflexivity|].
  rewrite !orb_false_iff, !negb_false_iff in E.
  destruct E as [[[[E1 E2] E3] E4] E5].
  apply Z.ltb_ge in E1. apply Z.eqb_eq in E2, E3, E4.
  rewrite Z.gtb_ltb in E5. apply Z.ltb_ge in E5. lia.
Qed.

(** C3, as amended: a packet shorter than 15 bytes, or whose question count
    is not 1, or whose additional count is neither 0 nor 1, makes the
    pre-filter return the error result, with the cache and the packet as
    they were and nothing else done.  (The flag bytes and the answer count
    are not looked at.) *)
Theorem pre_filter_rejects_header (env : Env) (cache : Cache)
    (pkt : DCPluginDNSPacket) :
  dcplugin_get_wire_data_len pkt < 15 \/
    qdcount (dns_wire_data pkt) <> 1 \/
    (arcount (dns_wire_data pkt) <> 0 /\ arcount (dns_wire_data pkt) <> 1) ->
  dcplugin_sync_pre_filter env cache pkt
  = Returns DCP_SYNC_FILTER_RESULT_ERROR cache pkt [].
Proof.
  intros H. unfold dcplugin_sync_pre_filter.
  rewrite pre_filter_question_header by exact H. reflexivity.
Qed.

(** A query announcing two additional records is turned down. *)
Lemma pre_filter_rejects_header_witness :
  (dcplugin_get_wire_data_len (packet_of query_two_additional) < 15 \/
   qdcount (dns_wire_data (packet_of query_two_additional)) <> 1 \/
   (arcount (dns_wire_data (packet_of query_two_additional)) <> 0 /\
    arcount (dns_wire_data (packet_of query_two_additional)) <> 1))
  /\ dcplugin_sync_pre_filter (env_at 0) dcplugin_init
       (packet_of query_two_additional)
     = Returns DCP_SYNC_FILTER_RESULT_ERROR dcplugin_init
         (packet_of query_two_additional) [].
Proof.
  assert (arcount (dns_wire_data (packet_of query_two_additional)) = 2)
    as Har by (vm_compute; reflexivity).
  split.
  - right. right. rewrite Har. split; discriminate.
  - apply pre_filter_rejects_header.
    right. right. rewrite Har. split; discriminate.
Defined.

(** C3 as stated fails: [query_not_standard] has QR = 1 and OPCODE = 5 in
    its flag byte and an answer count of 1, and the pre-filter lets it
    pass (result OK) instead of returning the error result. *)
Lemma pre_filter_accepts_not_standard :
  standard_query query_not_standard = false /\
  ancount query_not_standard = 1 /\
  dcplugin_sync_pre_filter (env_at 0) dcplugin_init
    (packet_of query_not_standard)
  = Returns DCP_SYNC_FILTER_RESULT_OK dcplugin_init
      (packet_of query_not_standard) [Ev_time].
Proof.
  split; [vm_compute; reflexivity|]. split; vm_compute; reflexivity.
Qed.

(** ** The gates of the post-filter *)







(** C10: whenever the post-filter returns, with whatever result and
    whatever it did to the cache, the packet it hands back is the packet it
    was given, bytes, length and capacity. *)
Theorem post_filter_keeps_packet (env : Env) (cache : Cache)
    (pkt : DCPluginDNSPacket) (r : DCPluginSyncFilterResult) (cache' : Cache)
    (pkt' : DCPluginDNSPacket) (tr : list event) :
  dcplugin_sync_post_filter env cache pkt = Returns r cache' pkt' tr ->
  pkt' = pkt.
Proof.
  unfold dcplugin_sync_post_filter.
  destruct (post_filter_question _ _ _) as [r0| |c]; try discriminate.
  { intros H. inversion H. reflexivity. }
  destruct (_ && _); [discriminate|].
  destruct (scanned_cache_entry _) as [[k e]|].
  - destruct (post_filter_update _ _ _ _ _ _ _). intros H. inversion H. reflexivity.
  - destruct (post_filter_insert _ _ _ _ _) as [[c' t]|]; [|discriminate].
    intros H. inversion H. reflexivity.
Qed.

(** Storing the example response: the cache gets its entry, the packet is
    handed back as it came. *)
Lemma post_filter_keeps_packet_witness :
  dcplugin_sync_post_filter (env_at 0) cache_1000 (packet_of response_30_120)
  = Returns DCP_SYNC_FILTER_RESULT_OK cache_one_entry
      (packet_of response_30_120) [Ev_calloc true; Ev_malloc true]
  /\ packet_of response_30_120 = packet_of response_30_120.
Proof.
  assert (dcplugin_sync_post_filter (env_at 0) cache_1000
            (packet_of response_30_120)
          = Returns DCP_SYNC_FILTER_RESULT_OK cache_one_entry
              (packet_of response_30_120) [Ev_calloc true; Ev_malloc true])
    as H by (vm_compute; reflexivity).
  split; [exact H|].
  exact (post_filter_keeps_packet _ _ _ _ _ _ _ H).
Defined.

(** ** The TTL the post-filter stores *)

(** C1 does not hold of the code.  On the spec's own example (answers with
    TTL 30 and 120, [min_ttl] 60, [now] 1000) the loop does track the
    minimum, 30, in its local [min_ttl], but the value clamped and added to
    [now] is the local [ttl], the TTL of the record read last: the entry is
    stored with deadline 1000 + 120, not 1000 + 60. *)
Theorem post_filter_stores_last_ttl :
  min_ttl cache_1000 = 60 /\
  post_filter_question (env_at 0) cache_1000 response_30_120
  = Continue {| cp_qname_len := 13; cp_qtype := 1;
                cp_ttl := 120; cp_min_ttl := 30 |} /\
  deadlines <$> cache_of (dcplugin_sync_post_filter (env_at 0) cache_1000
                            (packet_of response_30_120))
  = Some [1000 + 120].
Proof.
  split; [reflexivity|]. split; vm_compute; reflexivity.
Qed.

(** ** Updating a resident entry *)

(** C2 does not hold of the code.  With a.com, b.com and c.com resident in
    this order, storing a new response for b.com puts the refreshed b.com
    entry first and keeps a.com, but c.com, which came after the entry
    found, is cut off the list, and nothing is released. *)
Theorem post_filter_update_drops_tail :
  post_filter_run cache_1000
    [(env_at 0, packet_of response_c);
     (env_at 0, packet_of response_b);
     (env_at 0, packet_of response_a)] = Some cache_abc /\
  responses cache_abc = [response_a; response_b; response_c] /\
  responses <$> cache_of (dcplugin_sync_post_filter (env_at 0) cache_abc
                            (packet_of response_b'))
  = Some [response_b'; response_a] /\
  trace_of (dcplugin_sync_post_filter (env_at 0) cache_abc
              (packet_of response_b')) = [].
Proof.
  split; [vm_compute; reflexivity|]. split; [vm_compute; reflexivity|].
  split; vm_compute; reflexivity.
Qed.

(** ** The time snapshot *)

Lemma elem_of_insert_inv (l : list CacheEntry) (k : nat) (x e : CacheEntry) :
  e ∈ <[k := x]> l -> e = x \/ e ∈ l.
Proof.
  intros [i Hi]%list_elem_of_lookup.
  rewrite list_lookup_insert in Hi. case_decide.
  - left. congruence.
  - right. eapply list_elem_of_lookup_2; eauto.
Qed.

(** C4 as stated fails for the post-filter: called at time 5000 on a cache
    whose [now] is still the 1000 of the last pre-filter lookup, it writes
    the deadline 1000 + 120, not 5000 + 120. *)
Lemma post_filter_deadline_not_from_clock :
  env_time (env_at 5000) = 5000 /\
  now cache_1000 = 1000 /\
  post_filter_question (env_at 5000) cache_1000 response_30_120
  = Continue {| cp_qname_len := 13; cp_qtype := 1;
                cp_ttl := 120; cp_min_ttl := 30 |} /\
  deadlines <$> cache_of (dcplugin_sync_post_filter (env_at 5000) cache_1000
                            (packet_of response_30_120))
  = Some [1000 + 120] /\
  1000 + 120 <> 5000 + 120.
Proof.
  split; [reflexivity|]. split; [reflexivity|].
  split; [vm_compute; reflexivity|]. split; [vm_compute; reflexivity|].
  discriminate.
Qed.

Ltac no_time_event :=
  rewrite ?elem_of_app, ?elem_of_cons, ?elem_of_nil; intuition discriminate.

Lemma post_filter_update_spec (env : Env) (cache : Cache) (wd : list byte)
    (ttl : Z) (s : Scan) (k : nat) (e : CacheEntry) (cache' : Cache)
    (tr : list event) :
  post_filter_update env cache wd ttl s k e = (cache', tr) ->
  (Ev_time ∉ tr) /\ now cache' = now cache /\
  cache_entries_max cache' = cache_entries_max cache /\
  min_ttl cache' = min_ttl cache /\
  forall x, x ∈ cache_entries cache' ->
    x ∈ cache_entries cache \/ deadline x = now cache + ttl.
Proof.
  unfold post_filter_update.
  destruct (_ && _).
  { intros H. inversion H; subst.
    split; [no_time_event|]. do 3 (split; [reflexivity|]). auto. }
  intros H. inversion H; subst. cbn [set_entries now cache_entries
    cache_entries_max min_ttl].
  split; [destruct (_ >? _); no_time_event|].
  do 3 (split; [reflexivity|]).
  intros x Hx. destruct (last_cache_entry_parent s) as [q|].
  - apply elem_of_cons in Hx as [->|Hx]; [right; reflexivity|].
    left. eapply subseteq_take; eauto.
  - apply elem_of_insert_inv in Hx as [->|Hx]; [right; reflexivity|auto].
Qed.

Lemma post_filter_insert_spec (env : Env) (cache : Cache) (wd : list byte)
    (c : Capture) (s : Scan) (cache' : Cache) (tr : list event) :
  post_filter_insert env cache wd c s = Some (cache', tr) ->
  (Ev_time ∉ tr) /\ now cache' = now cache /\
  cache_entries_max cache' = cache_entries_max cache /\
  min_ttl cache' = min_ttl cache /\
  forall x, x ∈ cache_entries cache' ->
    x ∈ cache_entries cache \/ deadline x = now cache + cp_ttl c.
Proof.
  unfold post_filter_insert.
  set (ev := match last_cache_entry_parent s, last_cache_entry s with
             | Some q, Some l =>
                 if cache_entries_count s >=? cache_entries_max cache
                 then (take (S q) (cache_entries cache),
                       match cache_entries cache !! l with
                       | Some last => [Ev_free_response last; Ev_free_entry last]
                       | None => []
                       end)
                 else (cache_entries cache, [])
             | _, _ => (cache_entries cache, [])
             end).
  assert ((Ev_time ∉ ev.2) /\ ev.1 ⊆ cache_entries cache) as [Hev Hsub].
  { unfold ev. destruct (last_cache_entry_parent s), (last_cache_entry s);
      try (split; [apply not_elem_of_nil|done]).
    destruct (_ >=? _); [|split; [apply not_elem_of_nil|done]].
    split; [|apply subseteq_take]. cbn [snd].
    destruct (_ !! _); no_time_event. }
  destruct ev as [entries evicted]. cbn [fst snd] in *.
  destruct (negb (env_calloc_ok env)).
  { intros H. inversion H; subst. cbn.
    split; [no_time_event|]. do 3 (split; [reflexivity|]). auto. }
  destruct (_ >? _); [discriminate|].
  destruct (negb (env_malloc_ok env)).
  { intros H. inversion H; subst. cbn.
    split; [no_time_event|]. do 3 (split; [reflexivity|]). auto. }
  intros H. inversion H; subst. cbn.
  split; [no_time_event|]. do 3 (split; [reflexivity|]).
  intros x [->|Hx]%elem_of_cons; [right; reflexivity|left; auto].
Qed.

Lemma pre_filter_question_not_direct (wd : list byte) (r : DCPluginSyncFilterResult) :
  pre_filter_question wd = Stop r -> r <> DCP_SYNC_FILTER_RESULT_DIRECT.
Proof.
  unfold pre_filter_question.
  repeat case_match; intros Heq; inversion Heq; done.
Qed.

(** C4, as amended.  The post-filter never asks for the time: it leaves
    [cache->now] as it found it, and every entry it creates or refreshes
    gets the deadline [cache->now + ttl], with the [now] left there by the
    last pre-filter lookup (0 after [dcplugin_init]); the clock of its own
    invocation plays no part.  The pre-filter asks for the time at most
    once: not at all when it returns before the lookup, once when it
    reaches it; that sample is stored in [cache->now], and a synthesized
    answer is only given for an entry whose deadline is after that sample,
    its TTLs being computed from the same sample. *)
Theorem filters_time_snapshot (env : Env) (cache : Cache)
    (pkt : DCPluginDNSPacket) :
  (forall r cache' pkt' tr,
     dcplugin_sync_post_filter env cache pkt = Returns r cache' pkt' tr ->
     (Ev_time ∉ tr) /\ now cache' = now cache /\
     forall e, e ∈ cache_entries cache' ->
       e ∈ cache_entries cache \/
       exists cp,
         post_filter_question env cache (dns_wire_data pkt) = Continue cp /\
         deadline e = now cache + cp_ttl cp)
  /\
  (forall t,
     dcplugin_sync_post_filter
       (mkEnv t (env_calloc_ok env) (env_malloc_ok env) (env_realloc_ok env)
              (env_ttl_indet env)) cache pkt
     = dcplugin_sync_post_filter env cache pkt)
  /\
  (forall r cache' pkt' tr,
     dcplugin_sync_pre_filter env cache pkt = Returns r cache' pkt' tr ->
     ((tr = [] /\ now cache' = now cache) \/
      (tr = [Ev_time] /\ now cache' = env_time env)) /\
     (r = DCP_SYNC_FILTER_RESULT_DIRECT ->
      tr = [Ev_time] /\
      exists lk e,
        pre_filter_question (dns_wire_data pkt) = Continue lk /\
        pre_filter_scan (cache_entries cache) (lk_qname lk) (lk_qname_len lk)
                        (lk_qtype lk) = Some e /\
        env_time env < deadline e /\
        pre_filter_hit (env_time env) e lk
        = (DCP_SYNC_FILTER_RESULT_DIRECT, dns_wire_data pkt'))).
Proof.
  split; [|split].
  - intros r cache' pkt' tr. unfold dcplugin_sync_post_filter.
    destruct (post_filter_question _ _ _) as [r0| |c] eqn:Eq; try discriminate.
    { intros H. inversion H; subst. split; [apply not_elem_of_nil|]. auto. }
    destruct (_ && _); [discriminate|].
    destruct (scanned_cache_entry _) as [[k e]|].
    + destruct (post_filter_update _ _ _ _ _ _ _) as [c' t] eqn:Eu.
      intros H. inversion H; subst.
      apply post_filter_update_spec in Eu as (? & ? & ? & ? & Hx).
      repeat split; auto. intros x Hin. destruct (Hx x Hin); eauto.
    + destruct (post_filter_insert _ _ _ _ _) as [[c' t]|] eqn:Ei; [|discriminate].
      intros H. inversion H; subst.
      apply post_filter_insert_spec in Ei as (? & ? & ? & ? & Hx).
      repeat split; auto. intros x Hin. destruct (Hx x Hin); eauto.
  - intros t. reflexivity.
  - intros r cache' pkt' tr. unfold dcplugin_sync_pre_filter.
    destruct (pre_filter_question _) as [r0| |lk] eqn:Eq; try discriminate.
    { intros H. inversion H; subst. split; [left; auto|].
      intros ->. apply pre_filter_question_not_direct in Eq. done. }
    unfold set_now. cbn [now].
    destruct (pre_filter_scan _ _ _ _) as [e|] eqn:Es.
    + destruct (_ && _) eqn:Eh.
      * destruct (pre_filter_hit _ _ _) as [r1 wd1] eqn:Ehit.
        intros H. inversion H; subst. cbn [now].
        split; [right; auto|]. intros ->. split; [reflexivity|].
        apply andb_true_iff in Eh as [_ Hd]. apply Z.ltb_lt in Hd.
        exists lk, e. auto.
      * intros H. inversion H; subst. cbn [now].
        split; [right; auto|]. discriminate.
    + intros H. inversion H; subst. cbn [now].
      split; [right; auto|]. discriminate.
Qed.

(** ** The DO bit and the question name *)

Lemma tolower_range (c : Z) : 0 <= c < 256 -> 0 <= tolower c < 256.
Proof. unfold tolower. intros. repeat (zcase; cbn [andb]); lia. Qed.

Lemma toupper_range (c : Z) : 0 <= c < 256 -> 0 <= toupper c < 256.
Proof. unfold toupper. intros. repeat (zcase; cbn [andb]); lia. Qed.

Lemma toupper_tolower (c : Z) : toupper (tolower c) = toupper c.
Proof.
  unfold toupper, tolower.
  destruct (Z.leb_spec 65 c), (Z.leb_spec c 90); cbn [andb];
    repeat (zcase; cbn [andb]); lia.
Qed.

Lemma name_tolower_length (l : list byte) :
  length (name_tolower l) = length l.
Proof.
  induction l as [|c l IH]; [reflexivity|]. simpl.
  destruct (byte_Z c =? 0); simpl; congruence.
Qed.

(** Whether or not the loop got as far as position [k], upper-casing what
    it left there is upper-casing the original byte. *)
Lemma toupper_name_tolower (l : list byte) (k : Z) :
  0 <= k ->
  toupper (byte_at (name_tolower l) k) = toupper (byte_at l k).
Proof.
  intros Hk. unfold byte_at.
  generalize (Z.to_nat k). clear k Hk. intros k. revert k.
  induction l as [|c l IH]; intros k; [reflexivity|]. simpl.
  destruct (byte_Z c =? 0); [reflexivity|].
  destruct k as [|k]; simpl; [|apply IH].
  rewrite byte_Z_u8, Z.mod_small by (apply tolower_range, byte_Z_range).
  apply toupper_tolower.
Qed.

Lemma bytes_at_length (p : list byte) (i n : Z) :
  0 <= i -> 0 <= n -> i + n <= Z.of_nat (length p) ->
  Z.of_nat (length (bytes_at p i n)) = n.
Proof.
  intros. unfold bytes_at. rewrite length_take, length_drop. lia.
Qed.

Lemma byte_at_bytes_at (p : list byte) (i n k : Z) :
  0 <= i -> 0 <= k < n -> byte_at (bytes_at p i n) k = byte_at p (i + k).
Proof.
  intros. unfold byte_at, bytes_at.
  rewrite lookup_take_lt by lia. rewrite lookup_drop.
  do 3 f_equal. lia.
Qed.

Lemma pre_filter_question_do (wd : list byte) (n q_type : Z) :
  edns_do_query wd n q_type ->
  pre_filter_question wd
  = Continue
      {| lk_qname :=
           if 2 <=? n
           then store (name_tolower (bytes_at wd 12 n)) (n - 2)
                      (toupper (byte_at wd (12 + (n - 2))))
           else name_tolower (bytes_at wd 12 n);
         lk_qname_len := n;
         lk_qtype := q_type;
         lk_wire_data :=
           if 2 <=? n
           then store wd (12 + (n - 2)) (toupper (byte_at wd (12 + (n - 2))))
           else wd |}.
Proof.
  intros (Hlen & Hqd & Har & Hn & Hterm & i & opt_end & opt_ttl & Hq & Ho & Ht
          & Httl & Hdo).
  unfold qdcount, arcount in *. rewrite !be16_eq in *.
  change (4 + 1) with 5 in *. change (10 + 1) with 11 in *.
  pose proof (byte_at_range wd 4). pose proof (byte_at_range wd 5).
  pose proof (byte_at_range wd 10). pose proof (byte_at_range wd 11).
  assert (byte_at wd 4 = 0 /\ byte_at wd 5 = 1 /\ byte_at wd 10 = 0
          /\ byte_at wd 11 = 1) as (E4 & E5 & E10 & E11) by lia.
  assert (rr_offset (next_rr wd (Z.of_nat (length wd)) true 12) = Some i) as Hoff
    by (rewrite Hq; reflexivity).
  assert (0 <= Z.of_nat (length wd) < 2 ^ 64) as Hlen' by lia.
  destruct (next_rr_question_Some _ Hlen' wd 12 i ltac:(lia) Hoff)
    as (o & Hs & -> & Hend & Hq').
  rewrite Hq in Hq'. inversion Hq' as [[Hno Hty Hcl]]. clear Hq'.
  subst n q_type. set (n := o - 12) in *.
  pose proof (skip_name_bounds _ Hlen' wd 12 o ltac:(lia) Hs) as [Hb _].
  unfold pre_filter_question.
  replace ((Z.of_nat (length wd) <? 15) || negb (byte_at wd 4 =? 0)
           || negb (byte_at wd 5 =? 1) || negb (byte_at wd 10 =? 0)
           || (byte_at wd 11 >? 1)) with false.
  2: { rewrite E4, E5, E10, E11. destruct (Z.ltb_spec (Z.of_nat (length wd)) 15);
       [lia|reflexivity]. }
  rewrite Hq. cbn [rr_offset rr_name_len rr_qtype rr_qclass from_option id].
  cbn [Z.eqb Pos.eqb negb].
  destruct (Z.gtb_spec n DNS_MAX_HOSTNAME_LEN); [lia|].
  rewrite Hterm. cbn [negb].
  rewrite E11. cbn [Z.eqb Pos.eqb].
  rewrite Ho, Ht, Httl. cbn [from_option id Z.eqb Pos.eqb negb].
  rewrite Hdo, Z.eqb_refl. cbn [andb]. rewrite Z.geb_leb.
  destruct (Z.leb_spec 2 n) as [Hn2|Hn2]; [|reflexivity].
  rewrite size_sub_small by lia.
  assert (byte_at
            (store (name_tolower (bytes_at wd 12 n)) (n - 2)
               (toupper (byte_at (name_tolower (bytes_at wd 12 n)) (n - 2))))
            (n - 2)
          = toupper (byte_at wd (12 + (n - 2)))) as Hkey.
  { rewrite byte_at_store_eq.
    2: { rewrite name_tolower_length, bytes_at_length; lia. }
    rewrite toupper_name_tolower by lia.
    rewrite byte_at_bytes_at by lia.
    apply Z.mod_small, toupper_range, byte_at_range. }
  rewrite Hkey.
  rewrite toupper_name_tolower, byte_at_bytes_at by lia. reflexivity.
Qed.

(** C8, as amended.  For a query that passes the checks, whose question
    name holds a zero byte (as every name closed by the root label does)
    and whose one additional record is an OPT record with the DO bit set,
    the pre-filter
    goes on to the lookup with the lower-cased name as key, in which the
    second-to-last byte has been replaced by the upper-case form of that
    byte, and it stores the same upper-case byte at that place of the
    question name in the packet; a name of fewer than 2 bytes leaves key
    and packet as they are.  An upper-case letter in the packet therefore
    stays as it is; only a lower-case one changes case.  The lookup is
    made with that key, and on a miss the host gets the changed packet. *)
Theorem pre_filter_do_bit_uppercases (env : Env) (cache : Cache)
    (pkt : DCPluginDNSPacket) (n q_type : Z) :
  edns_do_query (dns_wire_data pkt) n q_type ->
  pre_filter_question (dns_wire_data pkt)
  = Continue
      {| lk_qname :=
           if 2 <=? n
           then store (name_tolower (bytes_at (dns_wire_data pkt) 12 n)) (n - 2)
                      (toupper (byte_at (dns_wire_data pkt) (12 + (n - 2))))
           else name_tolower (bytes_at (dns_wire_data pkt) 12 n);
         lk_qname_len := n;
         lk_qtype := q_type;
         lk_wire_data :=
           if 2 <=? n
           then store (dns_wire_data pkt) (12 + (n - 2))
                      (toupper (byte_at (dns_wire_data pkt) (12 + (n - 2))))
           else dns_wire_data pkt |}
  /\
  (pre_filter_scan (cache_entries cache)
     (if 2 <=? n
      then store (name_tolower (bytes_at (dns_wire_data pkt) 12 n)) (n - 2)
                 (toupper (byte_at (dns_wire_data pkt) (12 + (n - 2))))
      else name_tolower (bytes_at (dns_wire_data pkt) 12 n))
     n q_type = None ->
   dcplugin_sync_pre_filter env cache pkt
   = Returns DCP_SYNC_FILTER_RESULT_OK (set_now cache (env_time env))
       (mkPacket
          (if 2 <=? n
           then store (dns_wire_data pkt) (12 + (n - 2))
                      (toupper (byte_at (dns_wire_data pkt) (12 + (n - 2))))
           else dns_wire_data pkt)
          (dns_wire_data_max_len pkt))
       [Ev_time]).
Proof.
  intros Hq. pose proof (pre_filter_question_do _ _ _ Hq) as Hlk.
  split; [exact Hlk|].
  intros Hmiss. unfold dcplugin_sync_pre_filter. rewrite Hlk.
  cbn [lk_qname lk_qname_len lk_qtype lk_wire_data].
  rewrite Hmiss. reflexivity.
Qed.

Lemma edns_do_query_lower : edns_do_query query_do_lower 13 1.
Proof.
  unfold edns_do_query.
  assert (Z.of_nat (length query_do_lower) = 40) as -> by (vm_compute; reflexivity).
  split; [lia|]. split; [vm_compute; reflexivity|].
  split; [vm_compute; reflexivity|]. split; [vm_compute; discriminate|].
  split; [vm_compute; reflexivity|].
  exists 29, 40, 32768.
  split; [vm_compute; reflexivity|]. split; [vm_compute; reflexivity|].
  split; [vm_compute; reflexivity|]. split; vm_compute; reflexivity.
Defined.

Lemma edns_do_query_upper : edns_do_query query_do_upper 13 1.
Proof.
  unfold edns_do_query.
  assert (Z.of_nat (length query_do_upper) = 40) as -> by (vm_compute; reflexivity).
  split; [lia|]. split; [vm_compute; reflexivity|].
  split; [vm_compute; reflexivity|]. split; [vm_compute; discriminate|].
  split; [vm_compute; reflexivity|].
  exists 29, 40, 32768.
  split; [vm_compute; reflexivity|]. split; [vm_compute; reflexivity|].
  split; [vm_compute; reflexivity|]. split; vm_compute; reflexivity.
Qed.

(** "example.com" with the DO bit set is looked up as "example.coM" and
    leaves the pre-filter as "example.coM". *)
Lemma pre_filter_do_bit_uppercases_witness :
  edns_do_query (dns_wire_data (packet_of query_do_lower)) 13 1 /\
  (lk_qname <$> continued (pre_filter_question query_do_lower)
   = Some (bytes example_coM)) /\
  dcplugin_sync_pre_filter (env_at 7) cache_abc (packet_of query_do_lower)
  = Returns DCP_SYNC_FILTER_RESULT_OK (set_now cache_abc 7)
      (packet_of query_do_upper) [Ev_time].
Proof.
  pose proof (pre_filter_do_bit_uppercases (env_at 7) cache_abc
                (packet_of query_do_lower) 13 1 edns_do_query_lower)
    as [Hlk Hmiss].
  split; [exact edns_do_query_lower|]. split.
  - cbn [dns_wire_data packet_of] in Hlk. rewrite Hlk. vm_compute. reflexivity.
  - rewrite Hmiss; vm_compute; reflexivity.
Defined.

(** C8 as stated fails for the packet bytes: in "example.coM" the
    second-to-last byte of the name, at offset 23, is the upper-case M (77);
    its case-flip would be m (109), but the packet that goes on to the
    lookup still has M there. *)
Lemma pre_filter_do_bit_keeps_upper_case :
  edns_do_query query_do_upper 13 1 /\
  byte_at query_do_upper 23 = 77 /\
  case_flip 77 = 109 /\
  (fun lk => byte_at (lk_wire_data lk) 23)
    <$> continued (pre_filter_question query_do_upper) = Some 77.
Proof.
  split; [exact edns_do_query_upper|].
  repeat split; vm_compute; reflexivity.
Qed.

(** The example response stored with the clock at 5000 into a cache whose
    [now] is 1000, and the query for "EXAMPLE.com" answered at 1100. *)
Lemma filters_time_snapshot_witness :
  dcplugin_sync_post_filter (env_at 5000) cache_1000
    (packet_of response_30_120)
  = Returns DCP_SYNC_FILTER_RESULT_OK cache_one_entry
      (packet_of response_30_120) [Ev_calloc true; Ev_malloc true] /\
  now cache_one_entry = now cache_1000 /\
  (forall e, e ∈ cache_entries cache_one_entry ->
             deadline e = now cache_1000 + 120) /\
  result_of (dcplugin_sync_pre_filter (env_at 1100) cache_one_entry
               (packet_of query_upper))
  = Some DCP_SYNC_FILTER_RESULT_DIRECT /\
  now <$> cache_of (dcplugin_sync_pre_filter (env_at 1100) cache_one_entry
                      (packet_of query_upper))
  = Some (env_time (env_at 1100)).
Proof.
  assert (dcplugin_sync_post_filter (env_at 5000) cache_1000
            (packet_of response_30_120)
          = Returns DCP_SYNC_FILTER_RESULT_OK cache_one_entry
              (packet_of response_30_120) [Ev_calloc true; Ev_malloc true])
    as Hpost by (vm_compute; reflexivity).
  destruct (filters_time_snapshot (env_at 5000) cache_1000
              (packet_of response_30_120)) as (Hp & _ & _).
  destruct (Hp _ _ _ _ Hpost) as (_ & Hnow & Hdl).
  split; [exact Hpost|]. split; [exact Hnow|]. split.
  { intros e He. destruct (Hdl e He) as [Hin|(cp & Hcp & ->)].
    - vm_compute in Hin. apply elem_of_nil in Hin. contradiction.
    - vm_compute in Hcp. inversion Hcp. reflexivity. }
  destruct (filters_time_snapshot (env_at 1100) cache_one_entry
              (packet_of query_upper)) as (_ & _ & Hq).
  destruct (dcplugin_sync_pre_filter (env_at 1100) cache_one_entry
              (packet_of query_upper)) as [r c' p' tr|] eqn:E.
  - destruct (Hq _ _ _ _ eq_refl) as [[[Hnil _]|[_ Hsample]] _].
    + subst tr. vm_compute in E. discriminate.
    + split; [vm_compute in E; inversion E; reflexivity|].
      cbn [cache_of fmap option_fmap option_map].
      rewrite Hsample. reflexivity.
  - vm_compute in E. discriminate.
Defined.

(** ** When the pre-filter answers from the cache *)

Lemma pre_filter_scan_elem (entries : list CacheEntry) (name : list byte)
    (n t : Z) (e : CacheEntry) :
  pre_filter_scan entries name n t = Some e ->
  e ∈ entries /\ entry_matches e name n t = true.
Proof.
  induction entries as [|x l IH]; [discriminate|]. simpl.
  destruct (entry_matches x name n t) eqn:E.
  - intros H. inversion H; subst. split; [apply elem_of_cons; auto|exact E].
  - intros H. apply IH in H as [? ?]. split; [apply elem_of_cons; auto|auto].
Qed.

(** The check of line 277 never fires: a record that [next_rr] accepted has
    its ten fixed bytes inside the message. *)
Lemma rewrite_ttls_ok (fuel : nat) (wd : list byte) (len i ttl : Z) :
  0 <= len < 2 ^ 64 -> 0 <= i ->
  (rewrite_ttls fuel wd len i i ttl).1 = true.
Proof.
  intros Hlen. revert wd i.
  induction fuel as [|fuel IH]; intros wd i Hi; [reflexivity|].
  simpl.
  destruct (rr_offset (next_rr wd len false i)) as [i'|] eqn:E; [|reflexivity].
  destruct (next_rr_record_Some len Hlen wd i i' Hi E) as (o & Hs & Hi' & Hle & Hr).
  pose proof (skip_name_bounds len Hlen wd i o Hi Hs) as [Hb _].
  pose proof (be16_range wd (o + 8)).
  rewrite Hr. cbn [rr_name_len from_option id].
  rewrite size_sub_small by lia.
  destruct (Z.gtb_spec 4 (len - (i + (o - i) + 4))); [lia|].
  apply IH. lia.
Qed.

Lemma pre_filter_hit_result (t : Z) (e : CacheEntry) (lk : Lookup) :
  0 <= response_len e < 2 ^ 64 ->
  (pre_filter_hit t e lk).1
  = match rr_offset (next_rr (pre_filter_overwrite e lk) (response_len e)
                             true 12) with
    | Some _ => DCP_SYNC_FILTER_RESULT_DIRECT
    | None => DCP_SYNC_FILTER_RESULT_ERROR
    end.
Proof.
  intros Hlen. unfold pre_filter_hit.
  destruct (rr_offset _) as [i|] eqn:E; [|reflexivity].
  destruct (next_rr_question_Some _ Hlen _ 12 i ltac:(lia) E)
    as (o & Hs & -> & _).
  pose proof (skip_name_bounds _ Hlen _ 12 o ltac:(lia) Hs) as [Hb _].
  pose proof (rewrite_ttls_ok (Z.to_nat (response_len e))
                (pre_filter_overwrite e lk) (response_len e) (o + 4)
                (u32 (deadline e - t)) Hlen ltac:(lia)) as Hok.
  destruct (rewrite_ttls _ _ _ _ _ _) as [[|] wd]; [reflexivity|discriminate].
Qed.

(** C7, as amended.  Once the pre-filter has reached the lookup, it returns
    the handled-directly result exactly when the scan finds an entry (the
    first one that matches the key and type), that entry's [response_len]
    is at most the packet's capacity, the time just sampled is strictly
    before its deadline, and the cached response, with the query's
    question name written over its own, still parses as a question; if it
    does not, the result is the error result.  When the entry found has its
    deadline at or before the sampled time the call is a miss: the result
    is OK and the query goes on. *)
Theorem pre_filter_direct_iff (env : Env) (cache : Cache)
    (pkt : DCPluginDNSPacket) (lk : Lookup) :
  cache_wf cache ->
  pre_filter_question (dns_wire_data pkt) = Continue lk ->
  (result_of (dcplugin_sync_pre_filter env cache pkt)
   = Some DCP_SYNC_FILTER_RESULT_DIRECT
   <->
   exists e,
     pre_filter_scan (cache_entries cache) (lk_qname lk) (lk_qname_len lk)
                     (lk_qtype lk) = Some e /\
     response_len e <= dns_wire_data_max_len pkt /\
     env_time env < deadline e /\
     is_Some (rr_offset (next_rr (pre_filter_overwrite e lk) (response_len e)
                                 true 12)))
  /\
  (forall e,
     pre_filter_scan (cache_entries cache) (lk_qname lk) (lk_qname_len lk)
                     (lk_qtype lk) = Some e ->
     response_len e <= dns_wire_data_max_len pkt ->
     env_time env < deadline e ->
     rr_offset (next_rr (pre_filter_overwrite e lk) (response_len e) true 12)
     = None ->
     result_of (dcplugin_sync_pre_filter env cache pkt)
     = Some DCP_SYNC_FILTER_RESULT_ERROR)
  /\
  (forall e,
     pre_filter_scan (cache_entries cache) (lk_qname lk) (lk_qname_len lk)
                     (lk_qtype lk) = Some e ->
     deadline e <= env_time env ->
     dcplugin_sync_pre_filter env cache pkt
     = Returns DCP_SYNC_FILTER_RESULT_OK (set_now cache (env_time env))
         (mkPacket (lk_wire_data lk) (dns_wire_data_max_len pkt)) [Ev_time]).
Proof.
  intros Hwf Hq.
  assert (dcplugin_sync_pre_filter env cache pkt
          = match pre_filter_scan (cache_entries cache) (lk_qname lk)
                                  (lk_qname_len lk) (lk_qtype lk) with
            | Some e =>
                if (response_len e <=? dns_wire_data_max_len pkt)
                   && (env_time env <? deadline e)
                then Returns (pre_filter_hit (env_time env) e lk).1
                       (set_now cache (env_time env))
                       (mkPacket (pre_filter_hit (env_time env) e lk).2
                                 (dns_wire_data_max_len pkt)) [Ev_time]
                else Returns DCP_SYNC_FILTER_RESULT_OK
                       (set_now cache (env_time env))
                       (mkPacket (lk_wire_data lk) (dns_wire_data_max_len pkt))
                       [Ev_time]
            | None => Returns DCP_SYNC_FILTER_RESULT_OK
                        (set_now cache (env_time env))
                        (mkPacket (lk_wire_data lk) (dns_wire_data_max_len pkt))
                        [Ev_time]
            end) as ->.
  { unfold dcplugin_sync_pre_filter. rewrite Hq.
    destruct (pre_filter_scan _ _ _ _); [|reflexivity].
    cbn [now set_now]. destruct (_ && _); [|reflexivity].
    destruct (pre_filter_hit _ _ _); reflexivity. }
  destruct (pre_filter_scan _ _ _ _) as [e|] eqn:Es.
  2: { split; [|split]; try discriminate.
       split; [discriminate|]. intros (e & He & _). discriminate. }
  assert (0 <= response_len e < 2 ^ 64) as Hlen.
  { apply pre_filter_scan_elem in Es as [Hin _].
    unfold cache_wf in Hwf. rewrite Forall_forall in Hwf.
    destruct (Hwf e Hin) as [? _]. lia. }
  pose proof (pre_filter_hit_result (env_time env) e lk Hlen) as Hhit.
  destruct (pre_filter_hit (env_time env) e lk) as [r wd] eqn:Eh.
  cbn [fst snd] in *.
  destruct (Z.leb_spec (response_len e) (dns_wire_data_max_len pkt)) as [Hfit|Hfit];
    destruct (Z.ltb_spec (env_time env) (deadline e)) as [Hfresh|Hfresh];
    cbn [andb result_of].
  - split; [|split].
    + split.
      * intros Hr. exists e. repeat split; auto.
        destruct (rr_offset _); [eauto|]. congruence.
      * intros (e' & He' & _ & _ & [i Hi]). inversion He'; subst e'.
        rewrite Hi in Hhit. congruence.
    + intros e' He' _ _ Hno. inversion He'; subst e'.
      rewrite Hno in Hhit. congruence.
    + intros e' He' Hexp. inversion He'; subst e'. lia.
  - split; [|split].
    + split; [discriminate|].
      intros (e' & He' & _ & ? & _). inversion He'; subst e'. lia.
    + intros e' He' _ ?. inversion He'; subst e'. lia.
    + reflexivity.
  - split; [|split].
    + split; [discriminate|].
      intros (e' & He' & ? & _). inversion He'; subst e'. lia.
    + intros e' He' ?. inversion He'; subst e'. lia.
    + intros e' He' ?. inversion He'; subst e'. lia.
  - split; [|split].
    + split; [discriminate|].
      intros (e' & He' & ? & _). inversion He'; subst e'. lia.
    + intros e' He' ?. inversion He'; subst e'. lia.
    + reflexivity.
Qed.

Lemma cache_one_entry_wf : cache_wf cache_one_entry.
Proof.
  unfold cache_wf. repeat constructor; vm_compute; congruence.
Defined.

(** With the example response resident (deadline 1120), the query for
    "EXAMPLE.com" is answered from the cache at time 1100 and passes
    through at time 1120. *)
Lemma pre_filter_direct_iff_witness :
  cache_wf cache_one_entry /\
  pre_filter_question (dns_wire_data (packet_of query_upper))
  = Continue lookup_upper /\
  result_of (dcplugin_sync_pre_filter (env_at 1100) cache_one_entry
               (packet_of query_upper))
  = Some DCP_SYNC_FILTER_RESULT_DIRECT /\
  dcplugin_sync_pre_filter (env_at 1120) cache_one_entry (packet_of query_upper)
  = Returns DCP_SYNC_FILTER_RESULT_OK (set_now cache_one_entry 1120)
      (packet_of query_upper) [Ev_time].
Proof.
  assert (pre_filter_question (dns_wire_data (packet_of query_upper))
          = Continue lookup_upper) as Hq by (vm_compute; reflexivity).
  split; [exact cache_one_entry_wf|]. split; [exact Hq|]. split.
  - apply (proj1 (pre_filter_direct_iff (env_at 1100) cache_one_entry
                    (packet_of query_upper) lookup_upper
                    cache_one_entry_wf Hq)).
    destruct (cache_entries cache_one_entry) as [|e l] eqn:E;
      [vm_compute in E; discriminate|].
    exists e. vm_compute in E. inversion E; subst e l.
    split; [vm_compute; reflexivity|]. split; [vm_compute; discriminate|].
    split; [vm_compute; reflexivity|]. vm_compute. eauto.
  - destruct (cache_entries cache_one_entry) as [|e l] eqn:E;
      [vm_compute in E; discriminate|].
    apply (proj2 (proj2 (pre_filter_direct_iff (env_at 1120) cache_one_entry
                           (packet_of query_upper) lookup_upper
                           cache_one_entry_wf Hq)) e).
    + rewrite E. vm_compute in E. inversion E; subst e l.
      vm_compute. reflexivity.
    + vm_compute in E. inversion E; subst e l. vm_compute. discriminate.
Defined.

(** C7 as stated fails in one direction.  [response_long] is resident with
    deadline 1200; at time 1100 the key of [query_long] matches that entry,
    whose 131 bytes fit the packet, and yet the pre-filter returns the
    error result: with the 128-byte question name of the query written
    over the 99-byte name of the response, the question no longer parses
    within 131 bytes. *)
Lemma pre_filter_hit_can_fail :
  cache_of (dcplugin_sync_post_filter (env_at 0) cache_1000
              (packet_of response_long)) = Some cache_long /\
  ((fun lk => pre_filter_scan (cache_entries cache_long) (lk_qname lk)
                              (lk_qname_len lk) (lk_qtype lk))
     <$> continued (pre_filter_question query_long))
  = Some (head (cache_entries cache_long)) /\
  response_len <$> head (cache_entries cache_long) = Some 131 /\
  131 <= dns_wire_data_max_len (packet_of query_long) /\
  deadline <$> head (cache_entries cache_long) = Some 1200 /\
  env_time (env_at 1100) < 1200 /\
  result_of (dcplugin_sync_pre_filter (env_at 1100) cache_long
               (packet_of query_long))
  = Some DCP_SYNC_FILTER_RESULT_ERROR.
Proof.
  split; [vm_compute; reflexivity|]. split; [vm_compute; reflexivity|].
  split; [vm_compute; reflexivity|]. split; [vm_compute; discriminate|].
  split; [vm_compute; reflexivity|]. split; vm_compute; reflexivity.
Qed.

(** ** Names on the wire are a prefix code *)

Lemma wire_name_length (l : list byte) (n : nat) :
  wire_name l n -> (n <= length l)%nat.
Proof.
  induction 1 as [b b' rest H|b rest H|b rest m H1 H2 H3 H4 IH]; simpl; try lia.
  rewrite length_drop in IH. lia.
Qed.

Lemma wire_name_det (l : list byte) (n m : nat) :
  wire_name l n -> wire_name l m -> n = m.
Proof.
  intros Hn. revert m.
  induction Hn as [b b' rest H|b rest H|b rest k H1 H2 H3 H4 IH];
    intros m Hm; inversion Hm; subst; try reflexivity; try congruence.
  - match goal with Hz : byte_Z b = 0 |- _ => rewrite Hz in H end.
    discriminate.
  - match goal with Hz : Z.land (byte_Z b) 192 = 192 |- _ =>
      rewrite H in Hz end.
    discriminate.
  - f_equal. f_equal. apply IH. assumption.
Qed.

(** Only the bytes of the name itself decide where it ends. *)
Lemma wire_name_prefix (l l' : list byte) (n : nat) :
  wire_name l n -> take n l = take n l' -> (n <= length l')%nat ->
  wire_name l' n.
Proof.
  intros Hn. revert l'.
  induction Hn as [b b' rest H|b rest H|b rest k H1 H2 H3 H4 IH];
    intros l' Ht Hlen.
  - destruct l' as [|c [|c' r']]; simpl in *; try lia.
    inversion Ht; subst. constructor. assumption.
  - destruct l' as [|c r']; simpl in *; try lia.
    inversion Ht; subst. constructor. assumption.
  - destruct l' as [|c r']; simpl in *; try lia.
    inversion Ht as [[Hc Hr]]. subst c.
    apply wire_name_length in H4 as Hk. rewrite length_drop in Hk.
    constructor; try assumption.
    + lia.
    + apply IH.
      * rewrite !take_drop_commute, Hr. reflexivity.
      * rewrite length_drop. lia.
Qed.

Lemma wire_name_eq_of_prefix (a b : list byte) (pad : list byte) :
  wire_name a (length a) -> wire_name b (length b) ->
  take (length b) (a ++ pad) = b ->
  a = b.
Proof.
  intros Ha Hb Ht.
  assert (length b <= length (a ++ pad))%nat as Hlen.
  { rewrite <- Ht at 1. rewrite length_take. lia. }
  assert (wire_name (a ++ pad) (length a)) as Ha'.
  { eapply wire_name_prefix; eauto.
    - rewrite take_app_length, take_ge by lia. reflexivity.
    - rewrite length_app. lia. }
  assert (wire_name (a ++ pad) (length b)) as Hb'.
  { eapply wire_name_prefix; eauto.
    rewrite take_ge, Ht by lia. reflexivity. }
  pose proof (wire_name_det _ _ _ Ha' Hb') as Heq.
  rewrite <- Heq, take_app_length in Ht. exact Ht.
Qed.

Lemma skip_name_loop_wire_name (fuel : nat) (p : list byte) (off nl off' : Z) :
  Z.of_nat (length p) < 2 ^ 64 ->
  0 <= off < Z.of_nat (length p) -> 0 <= nl <= DNS_MAX_HOSTNAME_LEN ->
  skip_name_loop fuel p (Z.of_nat (length p)) off nl = Some off' ->
  wire_name (drop (Z.to_nat off) p) (Z.to_nat (off' - off)).
Proof.
  intros Hlen. revert off nl.
  induction fuel as [|fuel IH]; intros off nl Hoff Hnl H; [discriminate|].
  assert (0 <= Z.of_nat (length p) < 2 ^ 64) as Hlen' by lia.
  pose proof (skip_name_loop_bounds _ Hlen' _ _ _ _ _ Hoff Hnl H) as [Hb _].
  destruct (lookup_lt_is_Some_2 p (Z.to_nat off) ltac:(lia)) as [b Hp].
  rewrite (drop_S _ _ _ Hp).
  simpl in H. rewrite (byte_at_lookup _ _ _ Hp) in H.
  pose proof (byte_Z_range b) as Hr.
  rewrite !size_sub_small in H by (rewrite ?size_sub_small; lia).
  destruct (Z.eqb_spec (Z.land (byte_Z b) 192) 192) as [Hptr|Hptr].
  { destruct (Z.gtb_spec 2 (Z.of_nat (length p) - off)); [discriminate|].
    inversion H; subst off'.
    destruct (lookup_lt_is_Some_2 p (S (Z.to_nat off)) ltac:(lia)) as [b' Hp'].
    rewrite (drop_S _ _ _ Hp').
    replace (Z.to_nat (off + 2 - off)) with 2%nat by lia.
    constructor. exact Hptr. }
  destruct (Z.geb_spec (byte_Z b) (Z.of_nat (length p) - off - 1));
    [discriminate|].
  unfold DNS_MAX_HOSTNAME_LEN in *.
  destruct (Z.gtb_spec (nl + byte_Z b + 1) 256); [discriminate|].
  destruct (Z.eqb_spec (byte_Z b) 0) as [Hz|Hz].
  { inversion H; subst off'.
    replace (Z.to_nat (off + (byte_Z b + 1) - off)) with 1%nat by lia.
    constructor. exact Hz. }
  pose proof (skip_name_loop_bounds _ Hlen' fuel p (off + (byte_Z b + 1))
                (nl + byte_Z b + 1) off' ltac:(lia)
                ltac:(unfold DNS_MAX_HOSTNAME_LEN; lia) H) as [Hb' _].
  apply IH in H; [|lia|lia].
  replace (Z.to_nat (off' - off))
    with (S (Z.to_nat (byte_Z b)
             + Z.to_nat (off' - (off + (byte_Z b + 1)))))%nat by lia.
  constructor; try assumption.
  - rewrite length_drop. lia.
  - rewrite drop_drop.
    replace (S (Z.to_nat off) + Z.to_nat (byte_Z b))%nat
      with (Z.to_nat (off + (byte_Z b + 1))) by lia.
    exact H.
Qed.

Lemma skip_name_wire_name (p : list byte) (off off' : Z) :
  Z.of_nat (length p) < 2 ^ 64 -> 0 <= off ->
  skip_name p (Z.of_nat (length p)) off = Some off' ->
  wire_name (bytes_at p off (off' - off)) (Z.to_nat (off' - off)).
Proof.
  intros Hlen Hoff H.
  assert (0 <= Z.of_nat (length p) < 2 ^ 64) as Hlen' by lia.
  pose proof (skip_name_bounds _ Hlen' _ _ _ Hoff H) as [Hb _].
  unfold skip_name in H.
  destruct (_ || _); [discriminate|].
  destruct (skip_name_loop _ _ _ _ _) as [o|] eqn:E; [|discriminate].
  destruct (o >=? _); [discriminate|]. inversion H; subst o.
  apply skip_name_loop_wire_name in E; [|lia|lia|unfold DNS_MAX_HOSTNAME_LEN; lia].
  unfold bytes_at. eapply wire_name_prefix; eauto.
  - rewrite take_take, Nat.min_id. reflexivity.
  - rewrite length_take, length_drop. lia.
Qed.

(** What it takes for a response to be filed: the gates passed, a question
    name of at most 256 bytes, which is one well-delimited wire name. *)
Lemma response_key_spec (wd : list byte) (name : list byte) (t : Z) :
  Z.of_nat (length wd) < 2 ^ 64 ->
  response_key wd = Some (name, t) ->
  exists i,
    post_filter_gate wd = Continue (Z.of_nat (length name), t, i) /\
    name = bytes_at wd 12 (Z.of_nat (length name)) /\
    Z.of_nat (length name) <= DNS_MAX_HOSTNAME_LEN /\
    wire_name name (length name) /\
    0 <= i <= Z.of_nat (length wd) /\
    rr_offset (next_rr wd (Z.of_nat (length wd)) true 12) = Some i /\
    i = 12 + Z.of_nat (length name) + 4.
Proof.
  intros Hlen. unfold response_key.
  destruct (post_filter_gate wd) as [r| |[[n t'] i]] eqn:Eg; try discriminate.
  destruct (Z.leb_spec n DNS_MAX_HOSTNAME_LEN) as [Hn|Hn]; [|discriminate].
  intros H. inversion H; subst t'. clear H.
  unfold post_filter_gate in Eg.
  destruct (_ || _); [discriminate|].
  destruct (negb _); [discriminate|].
  destruct (_ && _); [discriminate|].
  destruct (rr_offset _) as [i'|] eqn:Eo; [|discriminate].
  assert (0 <= Z.of_nat (length wd) < 2 ^ 64) as Hlen' by lia.
  destruct (next_rr_question_Some _ Hlen' wd 12 i' ltac:(lia) Eo)
    as (o & Hs & -> & Hend & Hq).
  rewrite Hq in Eg. cbn [rr_name_len rr_qtype rr_qclass from_option id] in Eg.
  destruct (negb _); [discriminate|]. inversion Eg; subst n t i. clear Eg.
  pose proof (skip_name_bounds _ Hlen' wd 12 o ltac:(lia) Hs) as [Hb _].
  assert (Z.of_nat (length (bytes_at wd 12 (o - 12))) = o - 12) as Hl
    by (apply bytes_at_length; lia).
  exists (o + 4). rewrite Hl.
  split; [reflexivity|]. split; [reflexivity|]. split; [lia|]. split.
  { replace (length (bytes_at wd 12 (o - 12))) with (Z.to_nat (o - 12)) by lia.
    apply skip_name_wire_name; auto. lia. }
  split; [lia|]. split; [reflexivity|lia].
Qed.

(** ** The scan of the post-filter *)

(** The scan stops at the first entry that matches; [last_cache_entry] is
    then that entry and [last_cache_entry_parent] the one before it.
    Without a match they are the last entry and the one before the last. *)
Lemma post_filter_scan_spec (es : list CacheEntry) (pos : nat)
    (name : list byte) (n t : Z) (last parent : option nat) (count : Z) :
  post_filter_scan es pos name n t last parent count
  = match list_find (fun e => entry_matches e name n t = true) es with
    | Some (k, e) =>
        mkScan (Some ((pos + k)%nat, e)) (Some (pos + k)%nat)
               (match k with O => last | S k' => Some (pos + k')%nat end)
               (count + Z.of_nat k + 1)
    | None =>
        mkScan None
               (match length es with O => last | S m => Some (pos + m)%nat end)
               (match length es with
                | O => parent
                | 1%nat => last
                | S (S m) => Some (pos + m)%nat
                end)
               (count + Z.of_nat (length es))
    end.
Proof.
  revert pos last parent count.
  induction es as [|x es IH]; intros pos last parent count.
  { simpl. f_equal. lia. }
  cbn [post_filter_scan list_find]. case_decide as Hx.
  - rewrite Hx. f_equal; [do 2 f_equal; lia|f_equal; lia|lia].
  - apply not_true_is_false in Hx. rewrite Hx, IH.
    destruct (list_find _ es) as [[k e]|]; cbn [fmap option_fmap option_map prod_map fst snd id].
    + f_equal; [do 2 f_equal; lia|f_equal; lia| |lia].
      destruct k; f_equal; lia.
    + cbn [length]. f_equal; [| |lia].
      * destruct (length es); f_equal; lia.
      * destruct (length es) as [|[|m]]; f_equal; lia.
Qed.

(** ** The capacity bound *)

Lemma post_filter_length (env : Env) (cache : Cache) (pkt : DCPluginDNSPacket)
    (r : DCPluginSyncFilterResult) (cache' : Cache) (pkt' : DCPluginDNSPacket)
    (tr : list event) :
  2 <= cache_entries_max cache ->
  Z.of_nat (length (cache_entries cache)) <= cache_entries_max cache ->
  dcplugin_sync_post_filter env cache pkt = Returns r cache' pkt' tr ->
  cache_entries_max cache' = cache_entries_max cache /\
  Z.of_nat (length (cache_entries cache')) <= cache_entries_max cache.
Proof.
  intros Hmax Hlen. unfold dcplugin_sync_post_filter.
  destruct (post_filter_question _ _ _) as [r0| |c]; try discriminate.
  { intros H. inversion H; subst. auto. }
  destruct (_ && _); [discriminate|].
  rewrite post_filter_scan_spec.
  destruct (list_find _ _) as [[k e]|] eqn:Ef; cbn [scanned_cache_entry].
  - apply list_find_Some in Ef as (Hk & _ & _).
    apply lookup_lt_Some in Hk.
    unfold post_filter_update. cbn [last_cache_entry_parent].
    destruct (_ && _).
    { intros H. inversion H; subst. auto. }
    intros H. inversion H; subst. cbn [set_entries cache_entries cache_entries_max].
    split; [reflexivity|].
    destruct k as [|k'].
    + rewrite length_insert. lia.
    + cbn [length]. rewrite length_take. lia.
  - unfold post_filter_insert.
    cbn [last_cache_entry_parent last_cache_entry cache_entries_count].
    set (es := cache_entries cache) in *.
    assert (exists kept evicted,
              (match match length es with
                     | O => None | 1%nat => None | S (S m) => Some (0 + m)%nat
                     end,
                     match length es with O => None | S m => Some (0 + m)%nat end
               with
               | Some q, Some l =>
                   if 0 + Z.of_nat (length es) >=? cache_entries_max cache
                   then (take (S q) es,
                         match es !! l with
                         | Some last => [Ev_free_response last; Ev_free_entry last]
                         | None => []
                         end)
                   else (es, [])
               | _, _ => (es, [])
               end) = (kept, evicted) /\
              Z.of_nat (length kept) + 1 <= cache_entries_max cache)
      as (kept & evicted & -> & Hkept).
    { destruct (length es) as [|[|m]] eqn:El.
      - eexists _, _. split; [reflexivity|]. lia.
      - eexists _, _. split; [reflexivity|]. lia.
      - destruct (Z.geb_spec (0 + Z.of_nat (S (S m))) (cache_entries_max cache)).
        + eexists _, _. split; [reflexivity|]. rewrite length_take. lia.
        + eexists _, _. split; [reflexivity|]. lia. }
    destruct (negb (env_calloc_ok env)).
    { intros H. inversion H; subst. cbn. split; [reflexivity|lia]. }
    destruct (_ >? _); [discriminate|].
    destruct (negb (env_malloc_ok env)).
    { intros H. inversion H; subst. cbn. split; [reflexivity|lia]. }
    intros H. inversion H; subst. cbn. split; [reflexivity|lia].
Qed.

Lemma pre_filter_entries (env : Env) (cache : Cache) (pkt : DCPluginDNSPacket)
    (r : DCPluginSyncFilterResult) (cache' : Cache) (pkt' : DCPluginDNSPacket)
    (tr : list event) :
  dcplugin_sync_pre_filter env cache pkt = Returns r cache' pkt' tr ->
  cache_entries cache' = cache_entries cache /\
  cache_entries_max cache' = cache_entries_max cache /\
  min_ttl cache' = min_ttl cache.
Proof.
  unfold dcplugin_sync_pre_filter.
  destruct (pre_filter_question _) as [r0| |lk]; try discriminate.
  { intros H. inversion H; subst. auto. }
  destruct (pre_filter_scan _ _ _ _) as [e|].
  - destruct (_ && _).
    + destruct (pre_filter_hit _ _ _). intros H. inversion H; subst. auto.
    + intros H. inversion H; subst. auto.
  - intros H. inversion H; subst. auto.
Qed.

Lemma reachable_capacity (c : Cache) :
  reachable c ->
  cache_entries_max c = DEFAULT_CACHE_ENTRIES_MAX /\
  Z.of_nat (length (cache_entries c)) <= DEFAULT_CACHE_ENTRIES_MAX.
Proof.
  unfold DEFAULT_CACHE_ENTRIES_MAX.
  induction 1 as [|env c pkt r c' pkt' tr Hc [IHm IHl] Hstep
                  |env c pkt r c' pkt' tr Hc [IHm IHl] Hstep].
  - split; [reflexivity|simpl; lia].
  - apply pre_filter_entries in Hstep as (-> & -> & _). auto.
  - apply post_filter_length in Hstep as [-> ?]; lia.
Qed.

Lemma qname_buffer_app (name : list byte) :
  Z.of_nat (length name) <= DNS_MAX_HOSTNAME_LEN ->
  qname_buffer name
  = name ++ replicate (Z.to_nat DNS_MAX_HOSTNAME_LEN - length name) x00.
Proof.
  intros Hn. unfold qname_buffer, memcpy. change (Z.to_nat 0) with 0%nat.
  replace (Z.to_nat DNS_MAX_HOSTNAME_LEN)
    with (length name + (Z.to_nat DNS_MAX_HOSTNAME_LEN - length name))%nat
    at 1 by lia.
  rewrite replicate_add. apply list_inserts_0_r.
  rewrite length_replicate. reflexivity.
Qed.

(** Two responses filed under different (name, type) pairs do not match
    each other in the scan. *)
Lemma filed_no_match (e : CacheEntry) (wd wd' : list byte)
    (name : list byte) (t : Z) :
  Z.of_nat (length wd) < 2 ^ 64 -> Z.of_nat (length wd') < 2 ^ 64 ->
  filed e wd' -> response_key wd = Some (name, t) ->
  response_key wd' <> response_key wd ->
  entry_matches e name (Z.of_nat (length name)) t <> true.
Proof.
  intros Hlen Hlen' (_ & name' & t' & Hk' & Hqn & Hqt) Hk Hne Hm.
  rewrite Hk, Hk' in Hne. apply Hne. clear Hne.
  destruct (response_key_spec _ _ _ Hlen Hk) as (i & _ & _ & Hn & Hw & _).
  destruct (response_key_spec _ _ _ Hlen' Hk') as (i' & _ & _ & Hn' & Hw' & _).
  unfold entry_matches in Hm. apply andb_true_iff in Hm as [Hcmp Hty].
  apply Z.eqb_eq in Hty. unfold memcmp_eq in Hcmp.
  apply bool_decide_eq_true in Hcmp.
  rewrite Nat2Z.id, Hqn, qname_buffer_app in Hcmp by exact Hn'.
  rewrite (take_ge name) in Hcmp by lia.
  apply wire_name_eq_of_prefix in Hcmp; auto. congruence.
Qed.

Lemma post_filter_files_new (env : Env) (cache : Cache)
    (pkt : DCPluginDNSPacket) (name : list byte) (t : Z) :
  dcplugin_get_wire_data_len pkt < 2 ^ 64 ->
  response_key (dns_wire_data pkt) = Some (name, t) ->
  env_calloc_ok env = true -> env_malloc_ok env = true ->
  2 <= cache_entries_max cache ->
  Forall (fun e => entry_matches e name (Z.of_nat (length name)) t <> true)
         (cache_entries cache) ->
  exists ttl,
    dcplugin_sync_post_filter env cache pkt
    = Returns DCP_SYNC_FILTER_RESULT_OK
        (set_entries cache
           ({| response := dns_wire_data pkt;
               response_len := u16 (dcplugin_get_wire_data_len pkt);
               qname := qname_buffer name;
               qtype := t;
               deadline := now cache + ttl |}
            :: (evict_tail (cache_entries_max cache) (cache_entries cache)).1))
        pkt
        ((evict_tail (cache_entries_max cache) (cache_entries cache)).2
         ++ [Ev_calloc true; Ev_malloc true]).
Proof.
  intros Hlen Hk Hc Hm Hmax Hnone.
  destruct (response_key_spec _ _ _ Hlen Hk) as (i & Hg & Hname & Hn & _ & _).
  unfold dcplugin_sync_post_filter, post_filter_question. rewrite Hg.
  destruct (answers_loop _ _ _ _ _ _) as [ttl0 m].
  cbn [cp_qname_len cp_qtype cp_ttl].
  destruct (Z.gtb_spec (Z.of_nat (length name)) DNS_MAX_HOSTNAME_LEN); [lia|].
  cbn [andb]. rewrite post_filter_scan_spec.
  rewrite <- Hname.
  assert (list_find
            (fun e => entry_matches e name (Z.of_nat (length name)) t = true)
            (cache_entries cache) = None) as -> by (apply list_find_None; exact Hnone).
  cbn [scanned_cache_entry].
  unfold post_filter_insert.
  cbn [last_cache_entry_parent last_cache_entry cache_entries_count
       cp_qname_len cp_qtype cp_ttl].
  rewrite Hc, Hm. cbn [negb].
  destruct (Z.gtb_spec (Z.of_nat (length name)) DNS_MAX_HOSTNAME_LEN); [lia|].
  rewrite <- Hname.
  eexists. unfold evict_tail, dcplugin_get_wire_data_len.
  set (es := cache_entries cache).
  destruct (length es) as [|[|k]] eqn:El.
  - destruct (Z.leb_spec (cache_entries_max cache) (Z.of_nat 0)); [lia|].
    reflexivity.
  - destruct (Z.leb_spec (cache_entries_max cache) (Z.of_nat 1)); [lia|].
    reflexivity.
  - rewrite Z.geb_leb. change (0 + Z.of_nat (S (S k))) with (Z.of_nat (S (S k))).
    destruct (Z.leb_spec (cache_entries_max cache) (Z.of_nat (S (S k))));
      [|reflexivity].
    rewrite last_lookup, El. cbn [fst snd Nat.pred].
    replace (S (S k) - 1)%nat with (S k) by lia.
    reflexivity.
Qed.

Lemma post_filter_run_snoc (c c1 : Cache) (calls : list (Env * DCPluginDNSPacket))
    (x : Env * DCPluginDNSPacket) :
  post_filter_run c calls = Some c1 ->
  post_filter_run c (calls ++ [x]) = post_filter_run c1 [x].
Proof.
  revert c. induction calls as [|[env pkt] calls IH]; intros c H.
  - inversion H. reflexivity.
  - simpl in *. destruct (dcplugin_sync_post_filter env c pkt); [|discriminate].
    apply IH. exact H.
Qed.

Lemma filed_responses (es : list CacheEntry) (wds : list (list byte)) :
  Forall2 filed es wds -> response <$> es = wds.
Proof.
  induction 1 as [|e wd es wds He Hrest IH]; [reflexivity|].
  destruct He as [He _]. simpl. rewrite He. f_equal. exact IH.
Qed.

(** From the empty cache, filing responses under pairwise different
    (name, type) pairs keeps the most recent fifty, most recent first. *)
Lemma post_filter_run_distinct (calls : list (Env * DCPluginDNSPacket)) :
  Forall files calls -> NoDup (call_key <$> calls) ->
  exists c,
    post_filter_run dcplugin_init calls = Some c /\
    cache_entries_max c = DEFAULT_CACHE_ENTRIES_MAX /\
    Forall2 filed (cache_entries c)
      (take (Z.to_nat DEFAULT_CACHE_ENTRIES_MAX) (reverse (call_wire <$> calls))).
Proof.
  change (Z.to_nat DEFAULT_CACHE_ENTRIES_MAX) with 50%nat.
  unfold DEFAULT_CACHE_ENTRIES_MAX.
  induction calls as [|x calls IH] using rev_ind; intros Hf Hnd.
  { exists dcplugin_init. repeat split. constructor. }
  rewrite fmap_app in Hnd. apply NoDup_app in Hnd as (Hnd & Hnot & _).
  apply Forall_app in Hf as [Hf Hx]. rewrite Forall_singleton in Hx.
  destruct (IH Hf Hnd) as (c & Hrun & Hmax & Hfiled).
  destruct x as [env pkt].
  destruct Hx as (Hc & Hm & Hlen & Hsome). destruct Hsome as [[name t] Hk].
  cbn [fst snd] in *.
  assert (Forall (fun e => entry_matches e name (Z.of_nat (length name)) t
                           <> true) (cache_entries c)) as Hnone.
  { apply Forall_forall. intros e He.
    apply list_elem_of_lookup in He as [i Hi].
    destruct (Forall2_lookup_l _ _ _ _ _ Hfiled Hi) as (wd' & Hwd' & Hfe).
    apply lookup_take_Some in Hwd' as [Hwd' _].
    apply list_elem_of_lookup_2 in Hwd'. rewrite elem_of_reverse in Hwd'.
    apply list_elem_of_fmap_1 in Hwd' as (call' & -> & Hcall').
    rewrite Forall_forall in Hf.
    destruct (Hf call' Hcall') as (_ & _ & Hlen' & _).
    apply (filed_no_match e (dns_wire_data pkt) (call_wire call') name t
             Hlen Hlen' Hfe Hk).
    intros Heq. apply (Hnot (call_key call')).
    - apply list_elem_of_fmap_2. exact Hcall'.
    - unfold call_key at 1. unfold call_wire in Heq. rewrite Heq.
      apply list_elem_of_singleton. reflexivity. }
  destruct (post_filter_files_new env c pkt name t Hlen Hk Hc Hm
              ltac:(lia) Hnone) as (ttl & Hstep).
  eexists. split.
  { erewrite post_filter_run_snoc by exact Hrun. simpl. rewrite Hstep.
    reflexivity. }
  split; [exact Hmax|]. cbn [set_entries cache_entries].
  rewrite fmap_app.
  change (call_wire <$> [(env, pkt)]) with [dns_wire_data pkt].
  rewrite reverse_snoc. cbn [take].
  constructor.
  { split; [reflexivity|]. exists name, t. auto. }
  unfold evict_tail. rewrite Hmax.
  pose proof (Forall2_length _ _ _ Hfiled) as Hl.
  rewrite length_take, length_reverse in Hl.
  destruct (Z.leb_spec 50 (Z.of_nat (length (cache_entries c)))); cbn [fst].
  - replace (length (cache_entries c) - 1)%nat with 49%nat by lia.
    apply (Forall2_take _ _ _ 49) in Hfiled.
    rewrite take_take in Hfiled. exact Hfiled.
  - rewrite take_ge in Hfiled by (rewrite length_reverse; lia).
    rewrite take_ge by (rewrite length_reverse; lia). exact Hfiled.
Qed.

(** C6.  (1) In every cache the plugin can be in, the capacity is the
    default 50 and the number of resident entries does not exceed it.
    (2) Starting from the cache [dcplugin_init] makes, any run of
    post-filter calls that file responses under pairwise different
    (name, type) pairs leaves the fifty most recently filed responses,
    most recent first; after 51 of them exactly 50 entries are resident
    and the one gone is the first filed, which was at the tail.
    (3) Filing a response that matches no entry into a cache that is full
    releases the response of the tail entry and the tail entry itself
    before it allocates the new entry and its response, and the new entry
    is put in front of what is left of the list. *)
Theorem cache_capacity_bound :
  (forall c, reachable c ->
     cache_entries_max c = DEFAULT_CACHE_ENTRIES_MAX /\
     Z.of_nat (length (cache_entries c)) <= cache_entries_max c)
  /\
  (forall calls, Forall files calls -> NoDup (call_key <$> calls) ->
     exists c,
       post_filter_run dcplugin_init calls = Some c /\
       responses c
       = take (Z.to_nat DEFAULT_CACHE_ENTRIES_MAX)
              (reverse (call_wire <$> calls)) /\
       (Z.of_nat (length calls) = DEFAULT_CACHE_ENTRIES_MAX + 1 ->
        Z.of_nat (length (cache_entries c)) = DEFAULT_CACHE_ENTRIES_MAX /\
        responses c = reverse (drop 1 (call_wire <$> calls))))
  /\
  (forall env cache pkt name t,
     reachable cache ->
     files (env, pkt) ->
     response_key (dns_wire_data pkt) = Some (name, t) ->
     Forall (fun e => entry_matches e name (Z.of_nat (length name)) t <> true)
            (cache_entries cache) ->
     Z.of_nat (length (cache_entries cache)) = cache_entries_max cache ->
     exists ttl tail,
       last (cache_entries cache) = Some tail /\
       dcplugin_sync_post_filter env cache pkt
       = Returns DCP_SYNC_FILTER_RESULT_OK
           (set_entries cache
              ({| response := dns_wire_data pkt;
                  response_len := u16 (dcplugin_get_wire_data_len pkt);
                  qname := qname_buffer name;
                  qtype := t;
                  deadline := now cache + ttl |}
               :: take (length (cache_entries cache) - 1)
                       (cache_entries cache)))
           pkt
           [Ev_free_response tail; Ev_free_entry tail;
            Ev_calloc true; Ev_malloc true]).
Proof.
  split; [|split].
  - intros c Hc. destruct (reachable_capacity c Hc) as [Hm Hl].
    rewrite Hm. auto.
  - intros calls Hf Hnd.
    destruct (post_filter_run_distinct calls Hf Hnd) as (c & Hrun & Hmax & Hfiled).
    exists c. split; [exact Hrun|].
    apply filed_responses in Hfiled as Hresp. unfold responses.
    split; [exact Hresp|].
    intros Hn. unfold DEFAULT_CACHE_ENTRIES_MAX in *.
    change (Z.to_nat 50) with 50%nat in *.
    split.
    + rewrite <- (length_fmap response), Hresp, length_take, length_reverse,
        length_fmap. lia.
    + rewrite Hresp, take_reverse, length_fmap.
      replace (length calls - 50)%nat with 1%nat by lia. reflexivity.
  - intros env cache pkt name t Hreach (Hc & Hm & Hlen & _) Hk Hnone Hfull.
    cbn [fst snd] in *.
    destruct (reachable_capacity cache Hreach) as [Hmax Hl].
    unfold DEFAULT_CACHE_ENTRIES_MAX in *.
    destruct (post_filter_files_new env cache pkt name t Hlen Hk Hc Hm
                ltac:(lia) Hnone) as (ttl & Hstep).
    unfold evict_tail in Hstep.
    destruct (Z.leb_spec (cache_entries_max cache)
                (Z.of_nat (length (cache_entries cache)))); [|lia].
    destruct (last (cache_entries cache)) as [tail|] eqn:El.
    + exists ttl, tail. split; [reflexivity|exact Hstep].
    + apply last_None in El. rewrite El in Hfull. simpl in Hfull. lia.
Qed.

Lemma post_filter_run_reachable (c c' : Cache)
    (calls : list (Env * DCPluginDNSPacket)) :
  reachable c -> post_filter_run c calls = Some c' -> reachable c'.
Proof.
  revert c. induction calls as [|[env pkt] calls IH]; intros c Hc H.
  - inversion H; subst. exact Hc.
  - simpl in H.
    destruct (dcplugin_sync_post_filter env c pkt) as [r c1 p1 tr|] eqn:E;
      [|discriminate].
    apply (IH c1); [|exact H]. eapply reachable_post; eauto.
Qed.

Lemma calls_51_files : Forall files calls_51.
Proof.
  unfold calls_51.
  repeat (apply Forall_cons_2;
          [split; [reflexivity|split; [reflexivity|split;
             [vm_compute; reflexivity|eexists; vm_compute; reflexivity]]]|]).
  apply Forall_nil_2.
Defined.

Lemma calls_51_distinct : NoDup (call_key <$> calls_51).
Proof. apply (bool_decide_unpack _). vm_compute. exact I. Defined.

Lemma cache_50_reachable : reachable cache_50.
Proof.
  apply (post_filter_run_reachable dcplugin_init cache_50 (take 50 calls_51)).
  - apply reachable_init.
  - vm_compute. reflexivity.
Defined.

(** Fifty-one one-letter names: the cache of the first fifty is full, the
    fifty-first call releases the entry of the first name and files its
    own in front. *)
Lemma cache_capacity_bound_witness :
  reachable cache_50 /\ Forall files calls_51 /\
  NoDup (call_key <$> calls_51) /\
  (cache_entries_max cache_50 = DEFAULT_CACHE_ENTRIES_MAX /\
   Z.of_nat (length (cache_entries cache_50)) <= cache_entries_max cache_50) /\
  (exists c,
     post_filter_run dcplugin_init calls_51 = Some c /\
     Z.of_nat (length (cache_entries c)) = DEFAULT_CACHE_ENTRIES_MAX /\
     responses c = reverse (drop 1 (call_wire <$> calls_51))) /\
  (exists tail,
     last (cache_entries cache_50) = Some tail /\
     Some (response tail) = call_wire <$> head calls_51 /\
     trace_of (dcplugin_sync_post_filter (env_at 0) cache_50 (call_51 50).2)
     = [Ev_free_response tail; Ev_free_entry tail;
        Ev_calloc true; Ev_malloc true]).
Proof.
  destruct cache_capacity_bound as (Hbound & Hrun & Hevict).
  split; [exact cache_50_reachable|].
  split; [exact calls_51_files|].
  split; [exact calls_51_distinct|].
  split; [exact (Hbound cache_50 cache_50_reachable)|].
  split.
  - destruct (Hrun calls_51 calls_51_files calls_51_distinct)
      as (c & Hc & _ & H51).
    destruct (H51 ltac:(vm_compute; reflexivity)) as [Hlen Hresp].
    exists c. auto.
  - destruct (Hevict (env_at 0) cache_50 (call_51 50).2
                (bytes (x_com 147)) 1 cache_50_reachable)
      as (ttl & tail & Htail & Hstep).
    + split; [reflexivity|split; [reflexivity|split;
        [vm_compute; reflexivity|eexists; vm_compute; reflexivity]]].
    + vm_compute. reflexivity.
    + apply (bool_decide_unpack _). vm_compute. exact I.
    + vm_compute. reflexivity.
    + exists tail. split; [exact Htail|]. split.
      * vm_compute in Htail. inversion Htail; subst tail.
        vm_compute. reflexivity.
      * rewrite Hstep. reflexivity.
Defined.

(** ** Entries hold values of their C types *)

Lemma next_rr_qtype_range (p : list byte) (len : Z) (q : bool) (off v : Z) :
  rr_qtype (next_rr p len q off) = Some v -> 0 <= v < 2 ^ 16.
Proof.
  unfold next_rr. repeat case_match; cbn [rr_qtype]; intros Hv;
    inversion Hv; apply be16_range.
Qed.

Lemma post_filter_question_qtype (env : Env) (cache : Cache)
    (wd : list byte) (c : Capture) :
  post_filter_question env cache wd = Continue c -> 0 <= cp_qtype c < 2 ^ 16.
Proof.
  unfold post_filter_question, post_filter_gate.
  destruct (_ || _); [discriminate|].
  destruct (negb _); [discriminate|].
  destruct (_ && _); [discriminate|].
  destruct (rr_offset _); [|discriminate].
  destruct (negb _); [discriminate|].
  destruct (answers_loop _ _ _ _ _ _).
  intros H. inversion H. cbn [cp_qtype].
  destruct (rr_qtype _) as [v|] eqn:E; cbn [from_option id]; [|lia].
  eapply next_rr_qtype_range; eauto.
Qed.

Lemma qname_buffer_length (name : list byte) :
  length (qname_buffer name) = Z.to_nat DNS_MAX_HOSTNAME_LEN.
Proof.
  unfold qname_buffer, memcpy. rewrite length_inserts, length_replicate.
  reflexivity.
Qed.

Lemma post_filter_wf (env : Env) (cache : Cache) (pkt : DCPluginDNSPacket)
    (r : DCPluginSyncFilterResult) (cache' : Cache) (pkt' : DCPluginDNSPacket)
    (tr : list event) :
  cache_wf cache ->
  dcplugin_sync_post_filter env cache pkt = Returns r cache' pkt' tr ->
  cache_wf cache'.
Proof.
  unfold cache_wf. intros Hwf. unfold dcplugin_sync_post_filter.
  destruct (post_filter_question _ _ _) as [r0| |c] eqn:Eq; try discriminate.
  { intros H. inversion H; subst. exact Hwf. }
  apply post_filter_question_qtype in Eq.
  assert (0 <= u16 (Z.of_nat (length (dns_wire_data pkt))) < 2 ^ 16) as Hu
    by (apply Z.mod_pos_bound; lia).
  destruct (_ && _); [discriminate|].
  destruct (scanned_cache_entry _) as [[k e]|] eqn:Es.
  - assert (entry_wf e) as (_ & He2 & He3).
    { rewrite post_filter_scan_spec in Es.
      destruct (list_find _ _) as [[k' e']|] eqn:Ef; [|discriminate].
      inversion Es; subst. apply list_find_Some in Ef as (Hk & _).
      rewrite Forall_forall in Hwf. apply Hwf.
      eapply list_elem_of_lookup_2; eauto. }
    unfold post_filter_update. destruct (_ && _).
    { intros H. inversion H; subst. exact Hwf. }
    intros H. inversion H; subst. cbn [set_entries cache_entries].
    match goal with
    | |- Forall _ match _ with Some _ => ?x :: _ | None => _ end =>
        assert (entry_wf x) as Hnew
          by (unfold entry_wf; cbn [response_len qtype qname];
              repeat split; (lia || assumption))
    end.
    destruct (last_cache_entry_parent _).
    + constructor; [exact Hnew|]. apply Forall_take. exact Hwf.
    + apply Forall_insert; assumption.
  - unfold post_filter_insert.
    match goal with
    | |- context [let '(entries, evicted) := ?m in _] =>
        assert (Forall entry_wf m.1) as Hkept;
          [|destruct m as [kept evicted]; cbn [fst] in Hkept]
    end.
    { repeat case_match; cbn [fst];
        first [exact Hwf|apply Forall_take; exact Hwf]. }
    destruct (negb (env_calloc_ok env)).
    { intros H. inversion H; subst. exact Hkept. }
    destruct (_ >? _); [discriminate|].
    destruct (negb (env_malloc_ok env)).
    { intros H. inversion H; subst. exact Hkept. }
    intros H. inversion H; subst. cbn [set_entries cache_entries].
    constructor; [|exact Hkept].
    repeat split; cbn [response_len qtype qname]; try lia.
    apply qname_buffer_length.
Qed.

(** Every cache the plugin can be in satisfies [cache_wf]. *)
Lemma reachable_wf (c : Cache) : reachable c -> cache_wf c.
Proof.
  induction 1 as [|env c pkt r c' pkt' tr Hc IH Hstep
                  |env c pkt r c' pkt' tr Hc IH Hstep].
  - constructor.
  - unfold cache_wf in *.
    unfold dcplugin_sync_pre_filter in Hstep.
    destruct (pre_filter_question _); try discriminate.
    { inversion Hstep; subst. exact IH. }
    destruct (pre_filter_scan _ _ _ _).
    + destruct (_ && _).
      * destruct (pre_filter_hit _ _ _). inversion Hstep; subst. exact IH.
      * inversion Hstep; subst. exact IH.
    + inversion Hstep; subst. exact IH.
  - eapply post_filter_wf; eauto.
Qed.

(** ** Rewriting the TTLs of a cached response *)

Section RewriteTTLs.
Variable len : Z.
Hypothesis len_size_t : 0 <= len < 2 ^ 64.

(** A TTL field lies at least five bytes after the start of its record and
    leaves room for itself and RDLENGTH before the end of the message. *)
Lemma ttl_fields_bounds (fuel : nat) (p : list byte) (i f : Z) :
  0 <= i -> f ∈ ttl_fields fuel p len i -> i + 5 <= f /\ f + 6 <= len.
Proof.
  revert i. induction fuel as [|fuel IH]; intros i Hi Hf.
  { apply elem_of_nil in Hf. contradiction. }
  simpl in Hf.
  destruct (rr_offset (next_rr p len false i)) as [i'|] eqn:E.
  2: { apply elem_of_nil in Hf. contradiction. }
  destruct (next_rr_record_Some len len_size_t p i i' Hi E)
    as (o & Hs & Hi' & Hle & Hr).
  pose proof (skip_name_bounds len len_size_t p i o Hi Hs) as [Hb _].
  pose proof (be16_range p (o + 8)).
  rewrite Hr in Hf. cbn [rr_name_len from_option id] in Hf.
  apply elem_of_cons in Hf as [->|Hf]; [lia|].
  apply IH in Hf; lia.
Qed.

Lemma ttl_fields_ext (fuel : nat) (p p' : list byte) (i : Z) :
  0 <= i ->
  (forall j, i <= j < len -> byte_at p j = byte_at p' j) ->
  ttl_fields fuel p len i = ttl_fields fuel p' len i.
Proof.
  revert i. induction fuel as [|fuel IH]; intros i Hi Hext; [reflexivity|].
  simpl. rewrite <- (next_rr_ext len len_size_t p p' false i Hi Hext).
  destruct (rr_offset (next_rr p len false i)) as [i'|] eqn:E; [|reflexivity].
  destruct (next_rr_record_Some len len_size_t p i i' Hi E)
    as (o & Hs & Hi' & Hle & Hr).
  pose proof (skip_name_bounds len len_size_t p i o Hi Hs) as [Hb _].
  pose proof (be16_range p (o + 8)).
  f_equal. apply IH; [lia|]. intros j Hj. apply Hext. lia.
Qed.

(** The loop of lines 274-285 never returns the error result; it keeps the
    length of the message, changes no byte outside the TTL fields of the
    records it walks, leaves the records where they were, and makes every
    one of their TTL fields read [ttl]. *)
Lemma rewrite_ttls_spec (fuel : nat) (wd : list byte) (i ttl : Z) :
  Z.of_nat (length wd) = len -> 0 <= i ->
  (rewrite_ttls fuel wd len i i ttl).1 = true /\
  length (rewrite_ttls fuel wd len i i ttl).2 = length wd /\
  (forall j, 0 <= j ->
     (forall f, f ∈ ttl_fields fuel wd len i -> ~ (f <= j < f + 4)) ->
     byte_at (rewrite_ttls fuel wd len i i ttl).2 j = byte_at wd j) /\
  ttl_fields fuel (rewrite_ttls fuel wd len i i ttl).2 len i
  = ttl_fields fuel wd len i /\
  (forall f, f ∈ ttl_fields fuel wd len i ->
     be32 (rewrite_ttls fuel wd len i i ttl).2 f = u32 ttl).
Proof.
  revert wd i. induction fuel as [|fuel IH]; intros wd i Hlen Hi.
  { simpl. repeat split; auto. intros f Hf. apply elem_of_nil in Hf. contradiction. }
  cbn [rewrite_ttls ttl_fields].
  destruct (rr_offset (next_rr wd len false i)) as [i'|] eqn:E.
  2: { cbn [fst snd]. rewrite E. repeat split; auto.
       intros f Hf. apply elem_of_nil in Hf. contradiction. }
  destruct (next_rr_record_Some len len_size_t wd i i' Hi E)
    as (o & Hs & Hi' & Hle & Hr).
  pose proof (skip_name_bounds len len_size_t wd i o Hi Hs) as [Hb _].
  pose proof (be16_range wd (o + 8)) as Hrd.
  rewrite Hr. cbn [rr_name_len from_option id].
  replace (i + (o - i) + 4) with (o + 4) by lia.
  rewrite size_sub_small by lia.
  destruct (Z.gtb_spec 4 (len - (o + 4))); [lia|].
  set (wd1 := store_be32 wd (o + 4) ttl).
  assert (Z.of_nat (length wd1) = len) as Hlen1
    by (unfold wd1; rewrite store_be32_length; exact Hlen).
  assert (forall j, 0 <= j -> ~ (o + 4 <= j < o + 8) ->
                    byte_at wd1 j = byte_at wd j) as Hwd1.
  { intros j Hj Hout. unfold wd1. apply byte_at_store_be32_ne; lia. }
  assert (ttl_fields fuel wd1 len i' = ttl_fields fuel wd len i') as Hfields1.
  { apply ttl_fields_ext; [lia|]. intros j Hj. apply Hwd1; lia. }
  destruct (IH wd1 i' Hlen1 ltac:(lia)) as (Hok & HlenP & Hbytes & HfieldsP & Httl).
  set (P := (rewrite_ttls fuel wd1 len i' i' ttl).2) in *.
  rewrite Hfields1 in *.
  assert (forall j, 0 <= j < i' -> byte_at P j = byte_at wd1 j) as Hlow.
  { intros j Hj. apply Hbytes; [lia|]. intros f Hf.
    apply ttl_fields_bounds in Hf; lia. }
  split; [exact Hok|]. split.
  { rewrite HlenP. unfold wd1. apply store_be32_length. }
  split.
  { intros j Hj Hout. rewrite Hbytes.
    - apply Hwd1; [lia|]. intros Hin.
      apply (Hout (o + 4)); [apply elem_of_cons; auto|lia].
    - lia.
    - intros f Hf. apply Hout. apply elem_of_cons. auto. }
  split.
  { assert (next_rr P len false i
            = mkRR (Some (o - i)) (Some (be16 wd o)) (Some (be16 wd (o + 2)))
                   (Some (be32 P (o + 4))) (Some i')) as HrP.
    { apply (next_rr_ext_ttl len len_size_t wd P i o i' Hi Hs E).
      intros j Hj Hout. rewrite Hlow by lia. symmetry. apply Hwd1; lia. }
    rewrite HrP. cbn [rr_offset rr_name_len from_option id].
    replace (i + (o - i) + 4) with (o + 4) by lia.
    rewrite HfieldsP. reflexivity. }
  intros f Hf. apply elem_of_cons in Hf as [->|Hf]; [|apply Httl; exact Hf].
  rewrite (be32_ext P wd1 (o + 4)) by (apply Hlow; lia).
  unfold wd1. apply be32_store_be32; lia.
Qed.

(** The length of the message is fuel enough for the loops over the
    records: every turn moves on by at least eleven bytes. *)
Lemma rewrite_ttls_fuel (fuel fuel' : nat) (wd : list byte) (i a ttl : Z) :
  0 <= i -> len - i <= Z.of_nat fuel -> len - i <= Z.of_nat fuel' ->
  rewrite_ttls fuel wd len i a ttl = rewrite_ttls fuel' wd len i a ttl.
Proof.
  revert fuel' wd i a.
  induction fuel as [|fuel IH]; intros fuel' wd i a Hi Hf Hf'.
  - destruct fuel' as [|fuel']; [reflexivity|]. simpl.
    destruct (rr_offset (next_rr wd len false i)) as [i'|] eqn:E; [|reflexivity].
    destruct (next_rr_record_Some len len_size_t wd i i' Hi E)
      as (o & Hs & Hi' & Hle & Hr).
    pose proof (skip_name_bounds len len_size_t wd i o Hi Hs) as [Hb _]. lia.
  - simpl.
    destruct (rr_offset (next_rr wd len false i)) as [i'|] eqn:E.
    2: { destruct fuel'; simpl; rewrite ?E; reflexivity. }
    destruct (next_rr_record_Some len len_size_t wd i i' Hi E)
      as (o & Hs & Hi' & Hle & Hr).
    pose proof (skip_name_bounds len len_size_t wd i o Hi Hs) as [Hb _].
    pose proof (be16_range wd (o + 8)).
    destruct fuel' as [|fuel']; [lia|]. simpl. rewrite E.
    destruct (_ >? _); [reflexivity|]. apply IH; lia.
Qed.

Lemma answers_loop_fuel (fuel fuel' : nat) (wd : list byte) (i ttl m : Z) :
  0 <= i -> len - i <= Z.of_nat fuel -> len - i <= Z.of_nat fuel' ->
  answers_loop fuel wd len i ttl m = answers_loop fuel' wd len i ttl m.
Proof.
  revert fuel' i ttl m.
  induction fuel as [|fuel IH]; intros fuel' i ttl m Hi Hf Hf'.
  - assert (skip_name wd len i = None) as Hs.
    { destruct (skip_name wd len i) as [o|] eqn:Hs; [|reflexivity].
      pose proof (skip_name_bounds len len_size_t wd i o Hi Hs). lia. }
    destruct fuel' as [|fuel']; [reflexivity|]. simpl.
    unfold next_rr. rewrite Hs. reflexivity.
  - simpl.
    destruct (rr_offset (next_rr wd len false i)) as [i'|] eqn:E.
    2: { destruct fuel'; simpl; rewrite ?E; [|reflexivity].
         assert (skip_name wd len i = None) as Hs.
         { destruct (skip_name wd len i) as [o|] eqn:Hs; [|reflexivity].
           pose proof (skip_name_bounds len len_size_t wd i o Hi Hs). lia. }
         unfold next_rr. rewrite Hs. reflexivity. }
    destruct (next_rr_record_Some len len_size_t wd i i' Hi E)
      as (o & Hs & Hi' & Hle & Hr).
    pose proof (skip_name_bounds len len_size_t wd i o Hi Hs) as [Hb _].
    pose proof (be16_range wd (o + 8)).
    destruct fuel' as [|fuel']; [lia|]. simpl. rewrite E.
    apply IH; lia.
Qed.
End RewriteTTLs.

(** ** Round trip: helpers *)

Lemma next_rr_question_ext_Some (len : Z) (p p' : list byte) (off i : Z) :
  0 <= len < 2 ^ 64 -> 0 <= off ->
  rr_offset (next_rr p len true off) = Some i ->
  (forall j, off <= j < i -> byte_at p j = byte_at p' j) ->
  next_rr p' len true off = next_rr p len true off.
Proof.
  intros Hlen Hoff H Hext.
  destruct (next_rr_question_Some len Hlen p off i Hoff H)
    as (o & Hs & -> & Hend & Hr).
  pose proof (skip_name_bounds len Hlen p off o Hoff Hs) as [Hb _].
  rewrite Hr. unfold next_rr.
  rewrite (skip_name_ext_Some len Hlen p p' off o Hoff Hs)
    by (intros j Hj; apply Hext; lia).
  rewrite !(size_sub_small len o), !(size_sub_small o off) by lia.
  destruct (Z.gtb_spec 6 (len - o)); [lia|].
  rewrite <- (be16_ext p p' o), <- (be16_ext p p' (o + 2))
    by (apply Hext; lia).
  reflexivity.
Qed.

Lemma byte_at_memcpy_same (l : list byte) (i n : Z) (j : Z) :
  0 <= i -> 0 <= n -> i + n <= Z.of_nat (length l) -> 0 <= j ->
  byte_at (memcpy l i (bytes_at l i n)) j = byte_at l j.
Proof.
  intros Hi Hn Hlen Hj. unfold byte_at, memcpy.
  pose proof (bytes_at_length l i n Hi Hn Hlen) as Hl.
  destruct (Z.lt_ge_cases j i).
  { rewrite list_lookup_inserts_lt by lia. reflexivity. }
  destruct (Z.lt_ge_cases j (i + n)).
  - rewrite list_lookup_inserts by lia. unfold bytes_at.
    rewrite lookup_take_lt by lia. rewrite lookup_drop.
    do 3 f_equal. lia.
  - rewrite list_lookup_inserts_ge by lia. reflexivity.
Qed.

Lemma memcpy_length (l : list byte) (i : Z) (src : list byte) :
  length (memcpy l i src) = length l.
Proof. apply length_inserts. Qed.

Lemma byte_at_ext_bytes_at (l l' : list byte) (i n : Z) :
  0 <= i -> 0 <= n ->
  i + n <= Z.of_nat (length l) -> i + n <= Z.of_nat (length l') ->
  (forall j, i <= j < i + n -> byte_at l j = byte_at l' j) ->
  bytes_at l i n = bytes_at l' i n.
Proof.
  intros Hi Hn Hl Hl' Hext. unfold bytes_at.
  apply list_eq. intros k.
  destruct (decide (k < Z.to_nat n)%nat) as [Hk|Hk].
  - rewrite !lookup_take_lt, !lookup_drop by lia.
    specialize (Hext (i + Z.of_nat k) ltac:(lia)). unfold byte_at in Hext.
    replace (Z.to_nat (i + Z.of_nat k)) with (Z.to_nat i + k)%nat in Hext by lia.
    destruct (lookup_lt_is_Some_2 l (Z.to_nat i + k) ltac:(lia)) as [b Hb].
    destruct (lookup_lt_is_Some_2 l' (Z.to_nat i + k) ltac:(lia)) as [b' Hb'].
    rewrite Hb, Hb' in *. simpl in Hext. f_equal. apply byte_Z_inj. exact Hext.
  - rewrite !lookup_take_ge by lia. reflexivity.
Qed.

(** The transaction ID stored by lines 263-264 reads back as it was. *)
Lemma be16_store_tid (l : list byte) (tid : Z) :
  2 <= Z.of_nat (length l) -> 0 <= tid < 2 ^ 16 ->
  be16 (store (store l 0 (Z.shiftr tid 8)) 1 tid) 0 = tid.
Proof.
  intros Hl Ht. rewrite be16_eq. change (0 + 1) with 1.
  rewrite byte_at_store_ne by lia.
  rewrite byte_at_store_eq by lia.
  rewrite byte_at_store_eq by (rewrite store_length; lia).
  rewrite Z.shiftr_div_pow2 by lia. change (2 ^ 8) with 256.
  rewrite (Z.mod_small (tid / 256)) by (split; [apply Z.div_pos; lia|apply Z.div_lt_upper_bound; lia]).
  pose proof (Z.div_mod tid 256 ltac:(lia)). lia.
Qed.

(** The parsing half of the pre-filter leaves the header of the packet
    alone. *)
Lemma pre_filter_question_header_kept (wd : list byte) (lk : Lookup) (j : Z) :
  pre_filter_question wd = Continue lk -> 0 <= j < 12 ->
  byte_at (lk_wire_data lk) j = byte_at wd j.
Proof.
  unfold pre_filter_question. intros H Hj.
  repeat case_match; inversion H; subst; cbn [lk_wire_data]; try reflexivity.
  apply byte_at_store_ne; try lia.
  - unfold size_sub.
    match goal with |- context [?a mod ?b] =>
      pose proof (Z.mod_pos_bound a b ltac:(lia)) end. lia.
  - unfold size_sub.
    match goal with |- context [?a mod ?b] =>
      pose proof (Z.mod_pos_bound a b ltac:(lia)) end. lia.
Qed.

Lemma entry_matches_qname_buffer (name : list byte) (t : Z) (r : list byte)
    (rl d : Z) :
  Z.of_nat (length name) <= DNS_MAX_HOSTNAME_LEN ->
  entry_matches (mkCacheEntry r rl (qname_buffer name) t d) name
                (Z.of_nat (length name)) t = true.
Proof.
  intros Hn. unfold entry_matches, memcmp_eq. cbn [qname qtype].
  rewrite Z.eqb_refl, andb_true_r. apply bool_decide_eq_true.
  rewrite qname_buffer_app by exact Hn.
  rewrite Nat2Z.id, take_app_length, take_ge by lia. reflexivity.
Qed.

(** Whichever way the post-filter takes, refreshing a match or making a new
    entry, what it files ends up at the head of the list. *)
Lemma post_filter_stores (env : Env) (cache : Cache) (pkt : DCPluginDNSPacket)
    (name : list byte) (t : Z) (cp : Capture) :
  response_key (dns_wire_data pkt) = Some (name, t) ->
  dcplugin_get_wire_data_len pkt < 2 ^ 16 ->
  env_calloc_ok env = true -> env_malloc_ok env = true ->
  env_realloc_ok env = true ->
  post_filter_question env cache (dns_wire_data pkt) = Continue cp ->
  exists e rest tr,
    dcplugin_sync_post_filter env cache pkt
    = Returns DCP_SYNC_FILTER_RESULT_OK (set_entries cache (e :: rest)) pkt tr /\
    entry_matches e name (Z.of_nat (length name)) t = true /\
    response_len e = dcplugin_get_wire_data_len pkt /\
    take (Z.to_nat (response_len e)) (response e) = dns_wire_data pkt /\
    deadline e = now cache + cp_ttl cp.
Proof.
  intros Hk Hlen Hc Hm Hre Hq. unfold dcplugin_get_wire_data_len in *.
  set (wd := dns_wire_data pkt) in *.
  destruct (response_key_spec wd name t ltac:(lia) Hk)
    as (i & Hg & Hname & Hn & _ & _).
  assert (cp_qname_len cp = Z.of_nat (length name) /\ cp_qtype cp = t)
    as [Hcn Hct].
  { unfold post_filter_question in Hq. rewrite Hg in Hq.
    destruct (answers_loop _ _ _ _ _ _). inversion Hq. auto. }
  assert (u16 (Z.of_nat (length wd)) = Z.of_nat (length wd)) as Hu16
    by (apply Z.mod_small; lia).
  unfold dcplugin_sync_post_filter. fold wd. rewrite Hq, Hcn, Hct.
  destruct (Z.gtb_spec (Z.of_nat (length name)) DNS_MAX_HOSTNAME_LEN); [lia|].
  cbn [andb]. rewrite post_filter_scan_spec, <- Hname.
  destruct (list_find _ _) as [[k e]|] eqn:Ef; cbn [scanned_cache_entry].
  - apply list_find_Some in Ef as (Hke & He & _).
    unfold post_filter_update. cbn [last_cache_entry_parent].
    rewrite Hre. cbn [negb]. rewrite andb_false_r.
    assert (exists rest,
              match match k with O => None | S k' => Some (0 + k')%nat end with
              | Some q =>
                  {| response :=
                       if Z.of_nat (length wd) >? response_len e then wd
                       else wd ++ drop (length wd) (response e);
                     response_len := u16 (Z.of_nat (length wd));
                     qname := qname e; qtype := qtype e;
                     deadline := now cache + cp_ttl cp |}
                  :: take (S q) (cache_entries cache)
              | None =>
                  <[(0 + k)%nat :=
                     {| response :=
                          if Z.of_nat (length wd) >? response_len e then wd
                          else wd ++ drop (length wd) (response e);
                        response_len := u16 (Z.of_nat (length wd));
                        qname := qname e; qtype := qtype e;
                        deadline := now cache + cp_ttl cp |}]>
                    (cache_entries cache)
              end
              = {| response :=
                     if Z.of_nat (length wd) >? response_len e then wd
                     else wd ++ drop (length wd) (response e);
                   response_len := u16 (Z.of_nat (length wd));
                   qname := qname e; qtype := qtype e;
                   deadline := now cache + cp_ttl cp |} :: rest)
      as [rest ->].
    { destruct k as [|k']; [|eauto].
      destruct (cache_entries cache) as [|e0 tl]; [discriminate|].
      cbn [Nat.add insert list_insert]. eauto. }
    eexists _, rest, _. split; [reflexivity|].
    cbn [response response_len qname qtype deadline].
    split; [exact He|]. split; [exact Hu16|]. split; [|reflexivity].
    rewrite Hu16, Nat2Z.id.
    destruct (_ >? _); [apply take_ge; lia|apply take_app_length].
  - unfold post_filter_insert. rewrite Hc, Hm, Hcn, Hct. cbn [negb].
    destruct (Z.gtb_spec (Z.of_nat (length name)) DNS_MAX_HOSTNAME_LEN); [lia|].
    rewrite <- Hname.
    match goal with
    | |- context [let '(entries, evicted) := ?m in _] =>
        destruct m as [kept evicted]
    end.
    eexists _, _, _. split; [reflexivity|].
    cbn [response response_len qname qtype deadline].
    split; [apply entry_matches_qname_buffer; exact Hn|].
    split; [exact Hu16|]. split; [|reflexivity].
    rewrite Hu16, Nat2Z.id. apply take_ge. lia.
Qed.

Lemma pre_filter_serves (env : Env) (cache1 : Cache) (e : CacheEntry)
    (rest : list CacheEntry) (pkt_q : DCPluginDNSPacket) (lk : Lookup)
    (R name : list byte) (t : Z) :
  cache_entries cache1 = e :: rest ->
  entry_matches e name (Z.of_nat (length name)) t = true ->
  response_len e = Z.of_nat (length R) ->
  take (Z.to_nat (response_len e)) (response e) = R ->
  Z.of_nat (length R) < 2 ^ 16 ->
  response_key R = Some (name, t) ->
  pre_filter_question (dns_wire_data pkt_q) = Continue lk ->
  lk_qname lk = name -> lk_qname_len lk = Z.of_nat (length name) ->
  lk_qtype lk = t ->
  bytes_at (lk_wire_data lk) 12 (lk_qname_len lk) = name ->
  Z.of_nat (length R) <= dns_wire_data_max_len pkt_q ->
  env_time env < deadline e ->
  exists P,
    dcplugin_sync_pre_filter env cache1 pkt_q
    = Returns DCP_SYNC_FILTER_RESULT_DIRECT (set_now cache1 (env_time env))
        (mkPacket P (dns_wire_data_max_len pkt_q)) [Ev_time] /\
    length P = length R /\
    be16 P 0 = be16 (dns_wire_data pkt_q) 0 /\
    (forall j, 2 <= j ->
       (forall f, f ∈ record_ttl_fields R -> ~ (f <= j < f + 4)) ->
       byte_at P j = byte_at R j) /\
    record_ttl_fields P = record_ttl_fields R /\
    (forall f, f ∈ record_ttl_fields R ->
       12 + Z.of_nat (length name) + 4 + 5 <= f /\
       be32 P f = u32 (deadline e - env_time env)).
Proof.
  intros Hes Hmatch Hrl Htake HlenR Hk Hq Hkey Hkn Hkt Hwire Hfit Hfresh.
  set (len := Z.of_nat (length R)) in *.
  assert (0 <= len < 2 ^ 64) as Hlen by lia.
  destruct (response_key_spec R name t ltac:(lia) Hk)
    as (i & Hg & Hname & Hn & _ & Hi & Hoff & Hieq).
  fold len in Hoff, Hi.
  destruct (next_rr_question_Some len Hlen R 12 i ltac:(lia) Hoff)
    as (o & Hs & Hio & Hend & _).
  set (n := Z.of_nat (length name)) in *.
  (* the packet after lines 258-265 *)
  set (W := pre_filter_overwrite e lk).
  set (W0 := store (store R 0 (Z.shiftr (be16 (lk_wire_data lk) 0) 8)) 1
                   (be16 (lk_wire_data lk) 0)).
  assert (length W0 = length R) as HlenW0
    by (unfold W0; rewrite !store_length; reflexivity).
  assert (forall j, 2 <= j -> byte_at W0 j = byte_at R j) as HW0.
  { intros j Hj. unfold W0. rewrite !byte_at_store_ne by lia. reflexivity. }
  assert (name = bytes_at W0 12 n) as HnameW0.
  { rewrite Hname. fold n. symmetry.
    apply byte_at_ext_bytes_at; try lia. intros j Hj. apply HW0. lia. }
  assert (W = memcpy W0 12 (bytes_at W0 12 n)) as HW.
  { unfold W, pre_filter_overwrite. rewrite Hwire, Htake.
    fold W0. rewrite <- HnameW0. reflexivity. }
  assert (length W = length R) as HlenW
    by (rewrite HW, memcpy_length; exact HlenW0).
  assert (forall j, 0 <= j -> byte_at W j = byte_at W0 j) as HWW0.
  { intros j Hj. rewrite HW. apply byte_at_memcpy_same; lia. }
  assert (forall j, 2 <= j -> byte_at W j = byte_at R j) as HWR.
  { intros j Hj. rewrite HWW0 by lia. apply HW0. exact Hj. }
  assert (be16 W 0 = be16 (dns_wire_data pkt_q) 0) as Htid.
  { rewrite (be16_ext W W0 0) by (apply HWW0; lia).
    unfold W0. rewrite be16_store_tid by (try apply be16_range; lia).
    apply be16_ext; apply (pre_filter_question_header_kept _ _ _ Hq); lia. }
  assert (next_rr W len true 12 = next_rr R len true 12) as HqW.
  { symmetry. apply next_rr_ext; [exact Hlen|lia|].
    intros j Hj. symmetry. apply HWR. lia. }
  assert (ttl_fields (Z.to_nat len) W len i = record_ttl_fields R) as HfW.
  { unfold record_ttl_fields. fold len. rewrite Hoff.
    apply ttl_fields_ext; [exact Hlen|lia|]. intros j Hj. apply HWR. lia. }
  destruct (rewrite_ttls_spec len Hlen (Z.to_nat len) W i
              (u32 (deadline e - env_time env)) ltac:(lia) ltac:(lia))
    as (Hok & HlenP & Hbytes & HfP & Httl).
  rewrite HfW in *.
  destruct (rewrite_ttls (Z.to_nat len) W len i i
              (u32 (deadline e - env_time env))) as [ok P] eqn:Erw.
  cbn [fst snd] in *. subst ok.
  assert (forall f, f ∈ record_ttl_fields R -> i + 5 <= f /\ f + 6 <= len)
    as Hfb.
  { intros f Hf. rewrite <- HfW in Hf.
    apply (ttl_fields_bounds len Hlen) in Hf; lia. }
  assert (forall j, 0 <= j < i + 5 -> byte_at P j = byte_at W j) as Hlow.
  { intros j Hj. apply Hbytes; [lia|]. intros f Hf. apply Hfb in Hf. lia. }
  exists P. split.
  { unfold dcplugin_sync_pre_filter. rewrite Hq, Hes, Hkey, Hkn, Hkt.
    cbn [pre_filter_scan]. fold n. rewrite Hmatch.
    unfold set_now at 1 2. cbn [now].
    rewrite Hrl. fold len.
    destruct (Z.leb_spec len (dns_wire_data_max_len pkt_q)); [|lia].
    destruct (Z.ltb_spec (env_time env) (deadline e)); [|lia].
    cbn [andb]. unfold pre_filter_hit. fold W. rewrite Hrl. fold len.
    rewrite HqW, Hoff, Erw. reflexivity. }
  split; [rewrite HlenP; exact HlenW|].
  split.
  { rewrite <- Htid. apply be16_ext; apply Hlow; lia. }
  split.
  { intros j Hj Hout. rewrite Hbytes by (auto; lia). apply HWR. exact Hj. }
  split.
  { unfold record_ttl_fields at 1. rewrite HlenP, HlenW. fold len.
    assert (next_rr P len true 12 = next_rr W len true 12) as HqP.
    { apply next_rr_question_ext_Some with (i := i); [exact Hlen|lia| |].
      - rewrite HqW. exact Hoff.
      - intros j Hj. symmetry. apply Hlow. lia. }
    rewrite HqP, HqW, Hoff. exact HfP. }
  intros f Hf. split; [apply Hfb in Hf; lia|].
  rewrite Httl by exact Hf. unfold u32. apply Z.mod_mod. lia.
Qed.

(** ** Round trip *)

(** C5, as amended.  Let the post-filter file a response of fewer than
    65536 bytes under (name, type), all allocations succeeding, and let a
    query then reach the lookup of the pre-filter with that very name as
    key and as question name in the packet, and that type, in a packet
    that can hold the response, at a time before [now + ttl] of the
    filing.  Then the pre-filter returns the handled-directly result with
    a packet of the length of the stored response that has the query's
    transaction ID, the same question name and answer count, the same
    bytes everywhere from offset 2 on outside the TTL fields of the
    records after the question, those records at the same places, and in
    every one of their TTL fields the one value deadline - now of the
    lookup (as a 32-bit number). *)
Theorem cached_answer_round_trip (env1 env2 : Env) (cache : Cache)
    (pkt_r pkt_q : DCPluginDNSPacket) (name : list byte) (t : Z)
    (cp : Capture) (lk : Lookup) :
  response_key (dns_wire_data pkt_r) = Some (name, t) ->
  dcplugin_get_wire_data_len pkt_r < 2 ^ 16 ->
  env_calloc_ok env1 = true -> env_malloc_ok env1 = true ->
  env_realloc_ok env1 = true ->
  post_filter_question env1 cache (dns_wire_data pkt_r) = Continue cp ->
  pre_filter_question (dns_wire_data pkt_q) = Continue lk ->
  lk_qname lk = name -> lk_qname_len lk = Z.of_nat (length name) ->
  lk_qtype lk = t ->
  bytes_at (lk_wire_data lk) 12 (lk_qname_len lk) = name ->
  dcplugin_get_wire_data_len pkt_r <= dns_wire_data_max_len pkt_q ->
  env_time env2 < now cache + cp_ttl cp ->
  exists cache1 tr P,
    dcplugin_sync_post_filter env1 cache pkt_r
    = Returns DCP_SYNC_FILTER_RESULT_OK cache1 pkt_r tr /\
    dcplugin_sync_pre_filter env2 cache1 pkt_q
    = Returns DCP_SYNC_FILTER_RESULT_DIRECT (set_now cache1 (env_time env2))
        (mkPacket P (dns_wire_data_max_len pkt_q)) [Ev_time] /\
    length P = length (dns_wire_data pkt_r) /\
    be16 P 0 = be16 (dns_wire_data pkt_q) 0 /\
    bytes_at P 12 (Z.of_nat (length name)) = name /\
    ancount P = ancount (dns_wire_data pkt_r) /\
    (forall j, 2 <= j ->
       (forall f, f ∈ record_ttl_fields (dns_wire_data pkt_r) ->
                  ~ (f <= j < f + 4)) ->
       byte_at P j = byte_at (dns_wire_data pkt_r) j) /\
    record_ttl_fields P = record_ttl_fields (dns_wire_data pkt_r) /\
    (forall f, f ∈ record_ttl_fields (dns_wire_data pkt_r) ->
       be32 P f = u32 (now cache + cp_ttl cp - env_time env2)).
Proof.
  intros Hk Hlen Hc Hm Hre Hcp Hq Hkey Hkn Hkt Hwire Hfit Hfresh.
  destruct (post_filter_stores env1 cache pkt_r name t cp Hk Hlen Hc Hm Hre Hcp)
    as (e & rest & tr & Hpost & Hmatch & Hrl & Htake & Hdl).
  unfold dcplugin_get_wire_data_len in *.
  set (R := dns_wire_data pkt_r) in *.
  destruct (pre_filter_serves env2 (set_entries cache (e :: rest)) e rest pkt_q
              lk R name t eq_refl Hmatch Hrl Htake Hlen Hk Hq Hkey Hkn Hkt
              Hwire Hfit ltac:(rewrite Hdl; exact Hfresh))
    as (P & Hpre & HlenP & Htid & Hbytes & Hfields & Httl).
  destruct (response_key_spec R name t ltac:(lia) Hk)
    as (i & _ & Hname & _ & _ & Hi & _ & Hieq).
  assert (forall j, 2 <= j < 12 + Z.of_nat (length name) + 4 ->
                    byte_at P j = byte_at R j) as Hhead.
  { intros j Hj. apply Hbytes; [lia|]. intros f Hf.
    apply Httl in Hf as [Hf _]. lia. }
  exists (set_entries cache (e :: rest)), tr, P.
  split; [exact Hpost|]. split; [exact Hpre|]. split; [exact HlenP|].
  split; [exact Htid|]. split.
  { rewrite Hname at 2. apply byte_at_ext_bytes_at; try lia.
    intros j Hj. apply Hhead. lia. }
  split.
  { unfold ancount. apply be16_ext; apply Hhead; lia. }
  split; [exact Hbytes|]. split; [exact Hfields|].
  intros f Hf. apply Httl in Hf as [_ Hf]. rewrite Hf, Hdl. reflexivity.
Qed.

(** The example response, stored at time 1000 with deadline 1120, and the
    query for "example.com" at time 1100. *)
Lemma cached_answer_round_trip_witness :
  response_key (dns_wire_data (packet_of response_30_120))
  = Some (bytes example_com, 1) /\
  post_filter_question (env_at 0) cache_1000
    (dns_wire_data (packet_of response_30_120))
  = Continue {| cp_qname_len := 13; cp_qtype := 1;
                cp_ttl := 120; cp_min_ttl := 30 |} /\
  pre_filter_question (dns_wire_data (packet_of query_lower))
  = Continue lookup_lower /\
  exists cache1 tr P,
    dcplugin_sync_post_filter (env_at 0) cache_1000 (packet_of response_30_120)
    = Returns DCP_SYNC_FILTER_RESULT_OK cache1 (packet_of response_30_120) tr /\
    dcplugin_sync_pre_filter (env_at 1100) cache1 (packet_of query_lower)
    = Returns DCP_SYNC_FILTER_RESULT_DIRECT (set_now cache1 1100)
        (mkPacket P 4096) [Ev_time] /\
    be16 P 0 = be16 query_lower 0 /\
    ancount P = 2 /\
    record_ttl_fields P = [35; 51] /\
    be32 P 35 = 20 /\ be32 P 51 = 20.
Proof.
  assert (response_key (dns_wire_data (packet_of response_30_120))
          = Some (bytes example_com, 1)) as Hk by (vm_compute; reflexivity).
  assert (post_filter_question (env_at 0) cache_1000
            (dns_wire_data (packet_of response_30_120))
          = Continue (mkCapture 13 1 120 30)) as Hcp by (vm_compute; reflexivity).
  assert (pre_filter_question (dns_wire_data (packet_of query_lower))
          = Continue lookup_lower) as Hq by (vm_compute; reflexivity).
  split; [exact Hk|]. split; [exact Hcp|]. split; [exact Hq|].
  destruct (cached_answer_round_trip (env_at 0) (env_at 1100) cache_1000
              (packet_of response_30_120) (packet_of query_lower)
              (bytes example_com) 1 (mkCapture 13 1 120 30) lookup_lower
              Hk ltac:(vm_compute; reflexivity) eq_refl eq_refl eq_refl Hcp Hq
              ltac:(vm_compute; reflexivity) ltac:(vm_compute; reflexivity)
              ltac:(vm_compute; reflexivity) ltac:(vm_compute; reflexivity)
              ltac:(vm_compute; discriminate) ltac:(vm_compute; reflexivity))
    as (cache1 & tr & P & Hpost & Hpre & HlenP & Htid & Hname & Han & Hbytes
        & Hfields & Httl).
  assert (record_ttl_fields (dns_wire_data (packet_of response_30_120))
          = [35; 51]) as Hf by (vm_compute; reflexivity).
  rewrite Hf in *.
  exists cache1, tr, P.
  split; [exact Hpost|]. split; [exact Hpre|]. split; [exact Htid|].
  split; [rewrite Han; vm_compute; reflexivity|]. split; [exact Hfields|].
  split.
  - rewrite (Httl 35) by (apply elem_of_cons; auto). vm_compute. reflexivity.
  - rewrite (Httl 51) by (apply elem_of_cons; right; apply elem_of_cons; auto).
    vm_compute. reflexivity.
Defined.

(** C5 as stated fails: a response whose question spells "EXAMPLE.com" is
    filed (deadline 1120); the query for that same question, "EXAMPLE.com"
    of type A, at time 1100 is not answered from the cache but passes
    through. *)
Lemma round_trip_misses_upper_case :
  response_key response_upper = Some (bytes EXAMPLE_com, 1) /\
  cache_of (dcplugin_sync_post_filter (env_at 0) cache_1000
              (packet_of response_upper)) = Some cache_upper /\
  deadlines cache_upper = [1120] /\
  bytes_at query_upper 12 13 = bytes EXAMPLE_com /\
  be16 query_upper 25 = 1 /\
  env_time (env_at 1100) < 1120 /\
  dcplugin_sync_pre_filter (env_at 1100) cache_upper (packet_of query_upper)
  = Returns DCP_SYNC_FILTER_RESULT_OK (set_now cache_upper 1100)
      (packet_of query_upper) [Ev_time].
Proof.
  split; [vm_compute; reflexivity|]. split; [vm_compute; reflexivity|].
  split; [vm_compute; reflexivity|]. split; [vm_compute; reflexivity|].
  split; [vm_compute; reflexivity|]. split; vm_compute; reflexivity.
Qed.

(** * Further properties of the code *)

(** ** The parsers *)

Lemma skip_name_loop_complete (l : list byte) (n : nat) :
  wire_name l n ->
  forall (fuel : nat) (p : list byte) (off nl : Z),
    l = drop (Z.to_nat off) p ->
    Z.of_nat (length p) < 2 ^ 64 ->
    0 <= off -> off + Z.of_nat n < Z.of_nat (length p) ->
    0 <= nl -> nl + Z.of_nat n <= DNS_MAX_HOSTNAME_LEN ->
    (n <= fuel)%nat ->
    skip_name_loop fuel p (Z.of_nat (length p)) off nl = Some (off + Z.of_nat n).
Proof.
  unfold DNS_MAX_HOSTNAME_LEN.
  induction 1 as [b b' rest H|b rest H|b rest m H1 H2 H3 H4 IH];
    intros fuel p off nl Hl Hlen Hoff Hend Hnl Hmax Hfuel;
    (destruct fuel as [|fuel]; [lia|]);
    assert (p !! Z.to_nat off = Some b) as Hp
      by (rewrite <- (Nat.add_0_r (Z.to_nat off)), <- lookup_drop, <- Hl;
          reflexivity);
    pose proof (byte_Z_range b) as Hr;
    simpl; unfold DNS_MAX_HOSTNAME_LEN; rewrite (byte_at_lookup _ _ _ Hp);
    rewrite !size_sub_small by (rewrite ?size_sub_small; lia).
  - rewrite H, Z.eqb_refl.
    destruct (Z.gtb_spec 2 (Z.of_nat (length p) - off)); [lia|].
    reflexivity.
  - rewrite H. 
    destruct (Z.eqb_spec (Z.land 0 192) 192) as [E|E]; [discriminate E|].
    destruct (Z.geb_spec 0 (Z.of_nat (length p) - off - 1)); [lia|].
    destruct (Z.gtb_spec (nl + 0 + 1) 256); [lia|].
    simpl. reflexivity.
  - destruct (Z.eqb_spec (Z.land (byte_Z b) 192) 192) as [E|E]; [contradiction|].
    destruct (Z.geb_spec (byte_Z b) (Z.of_nat (length p) - off - 1)); [lia|].
    destruct (Z.gtb_spec (nl + byte_Z b + 1) 256); [lia|].
    destruct (Z.eqb_spec (byte_Z b) 0); [contradiction|].
    rewrite (IH fuel p (off + (byte_Z b + 1)) (nl + byte_Z b + 1)); try lia.
    + f_equal. lia.
    + replace (Z.to_nat (off + (byte_Z b + 1)))
        with (S (Z.to_nat off) + Z.to_nat (byte_Z b))%nat by lia.
      rewrite <- drop_drop. f_equal.
      rewrite (drop_S _ _ _ Hp) in Hl. inversion Hl. reflexivity.
Qed.

(** X1.  [skip_name] accepts exactly the encoded names.  For a name of at
    most 256 bytes, it returns the offset [o] from the offset [off] if and
    only if the bytes from [off] to [o] are labels closed by the root label
    or by a two-byte compression pointer, and at least one byte of the
    message follows them.  A pointer is not followed: it ends the name. *)
Theorem skip_name_iff_wire_name (p : list byte) (off o : Z) :
  Z.of_nat (length p) < 2 ^ 64 -> 0 <= off ->
  o - off <= DNS_MAX_HOSTNAME_LEN ->
  (skip_name p (Z.of_nat (length p)) off = Some o
   <->
   off < o < Z.of_nat (length p) /\
   wire_name (drop (Z.to_nat off) p) (Z.to_nat (o - off))).
Proof.
  intros Hlen Hoff Hmax.
  assert (0 <= Z.of_nat (length p) < 2 ^ 64) as Hlen' by lia.
  split.
  - intros H.
    pose proof (skip_name_bounds _ Hlen' _ _ _ Hoff H) as [Hb _].
    split; [exact Hb|].
    unfold skip_name in H.
    destruct (_ || _); [discriminate|].
    destruct (skip_name_loop _ _ _ _ _) as [o'|] eqn:E; [|discriminate].
    destruct (o' >=? _); [discriminate|]. inversion H; subst o'.
    apply skip_name_loop_wire_name in E;
      [exact E|lia|lia|unfold DNS_MAX_HOSTNAME_LEN; lia].
  - intros [Hb Hw]. unfold skip_name.
    destruct (Z.ltb_spec (Z.of_nat (length p)) 1); [lia|].
    rewrite size_sub_small by lia.
    destruct (Z.geb_spec off (Z.of_nat (length p) - 1)); [lia|].
    cbn [orb].
    rewrite (skip_name_loop_complete _ _ Hw (Z.to_nat (Z.of_nat (length p)))
               p off 0 eq_refl) by lia.
    replace (off + Z.of_nat (Z.to_nat (o - off))) with o by lia.
    destruct (Z.geb_spec o (Z.of_nat (length p))); [lia|reflexivity].
Qed.

(** The question name of the sample response, "example.com". *)
Lemma skip_name_iff_wire_name_witness :
  Z.of_nat (length response_30_120) < 2 ^ 64 /\ 0 <= 12 /\
  25 - 12 <= DNS_MAX_HOSTNAME_LEN /\
  (skip_name response_30_120 (Z.of_nat (length response_30_120)) 12 = Some 25
   <->
   12 < 25 < Z.of_nat (length response_30_120) /\
   wire_name (drop (Z.to_nat 12) response_30_120) (Z.to_nat (25 - 12))).
Proof.
  assert (Z.of_nat (length response_30_120) < 2 ^ 64) as H1
    by (vm_compute; reflexivity).
  assert (25 - 12 <= DNS_MAX_HOSTNAME_LEN) as H2
    by (vm_compute; discriminate).
  split; [exact H1|]. split; [lia|]. split; [exact H2|].
  apply (skip_name_iff_wire_name response_30_120 12 25 H1 ltac:(lia) H2).
Defined.

(** X2.  When [next_rr] returns 0, the name it skipped has between 1 and
    258 bytes, so that the assertion of line 158 holds; the new offset is
    the end of the name plus 4 for a question, plus 10 and RDLENGTH for a
    record, and does not pass the length of the message.  For a question
    two more bytes than the four it reads must lie inside the message. *)
Theorem next_rr_stays_in_packet (p : list byte) (len : Z) (q : bool)
    (off i : Z) :
  0 <= len < 2 ^ 64 -> 0 <= off ->
  rr_offset (next_rr p len q off) = Some i ->
  exists n,
    rr_name_len (next_rr p len q off) = Some n /\
    1 <= n <= DNS_MAX_HOSTNAME_LEN + 2 /\
    i = off + n + (if q then 4 else 10 + be16 p (off + n + 8)) /\
    i <= len /\
    (q = true -> i + 2 <= len).
Proof.
  intros Hlen Hoff H. destruct q.
  - destruct (next_rr_question_Some len Hlen p off i Hoff H)
      as (o & Hs & -> & Hend & Hq).
    pose proof (skip_name_bounds len Hlen p off o Hoff Hs) as [Hb Hn].
    exists (o - off). rewrite Hq. cbn [rr_name_len].
    repeat split; lia.
  - destruct (next_rr_record_Some len Hlen p off i Hoff H)
      as (o & Hs & Hi & Hend & Hq).
    pose proof (skip_name_bounds len Hlen p off o Hoff Hs) as [Hb Hn].
    exists (o - off). rewrite Hq. cbn [rr_name_len].
    replace (off + (o - off) + 8) with (o + 8) by lia.
    repeat split; try lia; discriminate.
Qed.

(** The first answer of the sample response. *)
Lemma next_rr_stays_in_packet_witness :
  0 <= 61 < 2 ^ 64 /\ 0 <= 29 /\
  rr_offset (next_rr response_30_120 61 false 29) = Some 45 /\
  exists n,
    rr_name_len (next_rr response_30_120 61 false 29) = Some n /\
    1 <= n <= DNS_MAX_HOSTNAME_LEN + 2 /\
    45 = 29 + n + (if false then 4 else 10 + be16 response_30_120 (29 + n + 8)) /\
    45 <= 61 /\
    (false = true -> 45 + 2 <= 61).
Proof.
  assert (rr_offset (next_rr response_30_120 61 false 29) = Some 45) as H
    by (vm_compute; reflexivity).
  split; [lia|]. split; [lia|]. split; [exact H|].
  apply (next_rr_stays_in_packet response_30_120 61 false 29 45
           ltac:(lia) ltac:(lia) H).
Defined.

(** X3.  [skip_name] and [next_rr] look at no byte before the offset they
    start from nor at or after [dns_packet_len]: on two buffers that agree
    in between they return the same. *)
Theorem parsers_read_inside_packet (p p' : list byte) (len : Z) (q : bool)
    (off : Z) :
  0 <= len < 2 ^ 64 -> 0 <= off ->
  (forall j, off <= j < len -> byte_at p j = byte_at p' j) ->
  skip_name p len off = skip_name p' len off /\
  next_rr p len q off = next_rr p' len q off.
Proof.
  intros Hlen Hoff Hext. split.
  - apply (skip_name_ext len Hlen p p' off Hoff Hext).
  - apply (next_rr_ext len Hlen p p' q off Hoff Hext).
Qed.

(** A bare query, and the same bytes with one more after them. *)
Lemma parsers_read_inside_packet_witness :
  0 <= 29 < 2 ^ 64 /\ 0 <= 12 /\
  (forall j, 12 <= j < 29 ->
     byte_at query_bare j = byte_at (query_bare ++ [x01]) j) /\
  skip_name query_bare 29 12 = skip_name (query_bare ++ [x01]) 29 12 /\
  next_rr query_bare 29 true 12 = next_rr (query_bare ++ [x01]) 29 true 12.
Proof.
  assert (forall j, 12 <= j < 29 ->
            byte_at query_bare j = byte_at (query_bare ++ [x01]) j) as H.
  { intros j Hj. unfold byte_at. rewrite lookup_app_l; [reflexivity|].
    change (length query_bare) with 29%nat. lia. }
  split; [lia|]. split; [lia|]. split; [exact H|].
  apply (parsers_read_inside_packet query_bare (query_bare ++ [x01]) 29 true 12
           ltac:(lia) ltac:(lia) H).
Defined.

(** X4.  A message whose question is followed by fewer than two bytes is
    turned down: [next_rr] asks for six bytes after the name of a question
    (line 162) though the type and the class take four.  The pre-filter
    returns the error result; the post-filter changes nothing, and returns
    the error result unless the response is truncated or carries an RCODE
    other than 0 and 3. *)
Theorem question_needs_two_more_bytes (env : Env) (cache : Cache)
    (pkt : DCPluginDNSPacket) (o : Z) :
  dcplugin_get_wire_data_len pkt < 2 ^ 64 ->
  skip_name (dns_wire_data pkt) (dcplugin_get_wire_data_len pkt) 12 = Some o ->
  dcplugin_get_wire_data_len pkt < o + 6 ->
  dcplugin_sync_pre_filter env cache pkt
  = Returns DCP_SYNC_FILTER_RESULT_ERROR cache pkt [] /\
  exists r,
    dcplugin_sync_post_filter env cache pkt = Returns r cache pkt [] /\
    (truncated (dns_wire_data pkt) = false ->
     rcode (dns_wire_data pkt) = 0 \/ rcode (dns_wire_data pkt) = 3 ->
     r = DCP_SYNC_FILTER_RESULT_ERROR).
Proof.
  unfold dcplugin_get_wire_data_len. intros Hlen Hs Hshort.
  assert (0 <= Z.of_nat (length (dns_wire_data pkt)) < 2 ^ 64) as Hlen' by lia.
  pose proof (skip_name_bounds _ Hlen' (dns_wire_data pkt) 12 o ltac:(lia) Hs)
    as [Hb _].
  assert (rr_offset (next_rr (dns_wire_data pkt)
                       (Z.of_nat (length (dns_wire_data pkt))) true 12) = None)
    as Hq.
  { unfold next_rr. rewrite Hs. rewrite size_sub_small by lia.
    destruct (Z.gtb_spec 6 (Z.of_nat (length (dns_wire_data pkt)) - o));
      [reflexivity|lia]. }
  split.
  - unfold dcplugin_sync_pre_filter, pre_filter_question.
    destruct (_ || _); [reflexivity|]. rewrite Hq. reflexivity.
  - unfold dcplugin_sync_post_filter, post_filter_question, post_filter_gate,
      truncated, rcode.
    destruct (_ || _); [eexists; split; [reflexivity|]|].
    { intros _ _. reflexivity. }
    destruct (Z.eqb_spec (Z.land (byte_at (dns_wire_data pkt) 2) 2) 0) as [E2|E2];
      cbn [negb]; [|eexists; split; [reflexivity|discriminate]].
    destruct (Z.eqb_spec (Z.land (byte_at (dns_wire_data pkt) 3) 15) 0) as [E3|E3];
      cbn [negb andb].
    { rewrite Hq. eexists; split; [reflexivity|]. intros _ _. reflexivity. }
    destruct (Z.eqb_spec (Z.land (byte_at (dns_wire_data pkt) 3) 15) 3) as [E4|E4];
      cbn [negb andb].
    { rewrite Hq. eexists; split; [reflexivity|]. intros _ _. reflexivity. }
    eexists; split; [reflexivity|]. intros _ [?|?]; contradiction.
Qed.

(** A query that ends with its question. *)
Lemma question_needs_two_more_bytes_witness :
  dcplugin_get_wire_data_len (packet_of query_bare) < 2 ^ 64 /\
  skip_name (dns_wire_data (packet_of query_bare))
            (dcplugin_get_wire_data_len (packet_of query_bare)) 12 = Some 25 /\
  dcplugin_get_wire_data_len (packet_of query_bare) < 25 + 6 /\
  dcplugin_sync_pre_filter (env_at 0) dcplugin_init (packet_of query_bare)
  = Returns DCP_SYNC_FILTER_RESULT_ERROR dcplugin_init
      (packet_of query_bare) [].
Proof.
  assert (dcplugin_get_wire_data_len (packet_of query_bare) < 2 ^ 64) as H1
    by (vm_compute; reflexivity).
  assert (skip_name (dns_wire_data (packet_of query_bare))
            (dcplugin_get_wire_data_len (packet_of query_bare)) 12 = Some 25)
    as H2 by (vm_compute; reflexivity).
  assert (dcplugin_get_wire_data_len (packet_of query_bare) < 25 + 6) as H3
    by (vm_compute; reflexivity).
  split; [exact H1|]. split; [exact H2|]. split; [exact H3|].
  exact (proj1 (question_needs_two_more_bytes (env_at 0) dcplugin_init
                  (packet_of query_bare) 25 H1 H2 H3)).
Defined.

(** ** The key of a lookup *)

Lemma tolower_zero (c : Z) : 0 <= c < 256 -> (tolower c = 0 <-> c = 0).
Proof. unfold tolower. intros Hc. repeat (zcase; cbn [andb]); split; lia. Qed.

Lemma tolower_tolower (c : Z) : tolower (tolower c) = tolower c.
Proof.
  unfold tolower.
  destruct (Z.leb_spec 65 c), (Z.leb_spec c 90); cbn [andb];
    repeat (zcase; cbn [andb]); lia.
Qed.

(** X5.  [name_tolower] makes the key of a lookup independent of the case
    of ASCII letters: two buffers whose bytes before the first zero byte
    differ at most in case, and that agree from there on, are mapped to the
    same bytes.  Lower-casing a second time changes nothing, and the length
    is kept. *)
Theorem name_tolower_ignores_case (a b rest : list byte) :
  Forall2 (fun x y => byte_Z x <> 0 /\
                      tolower (byte_Z x) = tolower (byte_Z y)) a b ->
  name_tolower (a ++ x00 :: rest) = name_tolower (b ++ x00 :: rest) /\
  name_tolower (name_tolower (a ++ x00 :: rest))
  = name_tolower (a ++ x00 :: rest) /\
  length (name_tolower (a ++ x00 :: rest)) = length (a ++ x00 :: rest).
Proof.
  intros H. split; [|split].
  - induction H as [|x y a b [Hx Hxy] _ IH]; [reflexivity|].
    cbn [app name_tolower].
    pose proof (byte_Z_range x) as Hrx.
    assert (byte_Z y <> 0) as Hy.
    { intros Hy. rewrite Hy in Hxy. change (tolower 0) with 0 in Hxy.
      apply (proj1 (tolower_zero (byte_Z x) Hrx)) in Hxy. contradiction. }
    destruct (Z.eqb_spec (byte_Z x) 0); [contradiction|].
    destruct (Z.eqb_spec (byte_Z y) 0); [contradiction|].
    rewrite Hxy, IH. reflexivity.
  - generalize (a ++ x00 :: rest). intros l.
    induction l as [|c l IH]; [reflexivity|].
    cbn [name_tolower]. pose proof (byte_Z_range c) as Hc.
    destruct (Z.eqb_spec (byte_Z c) 0) as [Hz|Hz].
    + cbn [name_tolower]. rewrite Hz. reflexivity.
    + cbn [name_tolower].
      pose proof (tolower_range _ Hc) as Hr.
      rewrite byte_Z_u8, Z.mod_small by lia.
      destruct (Z.eqb_spec (tolower (byte_Z c)) 0) as [Hz'|Hz'].
      { apply (proj1 (tolower_zero _ Hc)) in Hz'. contradiction. }
      rewrite tolower_tolower, IH. reflexivity.
  - apply name_tolower_length.
Qed.

(** "EXAMPLE.com" and "example.com". *)
Lemma name_tolower_ignores_case_witness :
  Forall2 (fun x y => byte_Z x <> 0 /\
                      tolower (byte_Z x) = tolower (byte_Z y))
          (bytes [7; 69; 88; 65; 77; 80; 76; 69; 3; 99; 111; 109])
          (bytes [7; 101; 120; 97; 109; 112; 108; 101; 3; 99; 111; 109]) /\
  name_tolower (bytes EXAMPLE_com) = name_tolower (bytes example_com).
Proof.
  assert (Forall2 (fun x y => byte_Z x <> 0 /\
                              tolower (byte_Z x) = tolower (byte_Z y))
            (bytes [7; 69; 88; 65; 77; 80; 76; 69; 3; 99; 111; 109])
            (bytes [7; 101; 120; 97; 109; 112; 108; 101; 3; 99; 111; 109]))
    as H.
  { unfold bytes. cbn [fmap list_fmap].
    repeat (constructor;
            [split; [vm_compute; discriminate|vm_compute; reflexivity]|]).
    constructor. }
  split; [exact H|].
  exact (proj1 (name_tolower_ignores_case _ _ [] H)).
Defined.

(** ** What the pre-filter leaves alone *)

Lemma pre_filter_question_length (wd : list byte) (lk : Lookup) :
  pre_filter_question wd = Continue lk ->
  length (lk_wire_data lk) = length wd.
Proof.
  unfold pre_filter_question. intros H.
  repeat case_match; try discriminate; inversion H; subst; cbn [lk_wire_data];
    rewrite ?store_length; reflexivity.
Qed.

Lemma rewrite_ttls_length (fuel : nat) (wd : list byte) (len i a ttl : Z) :
  length (rewrite_ttls fuel wd len i a ttl).2 = length wd.
Proof.
  revert wd i a. induction fuel as [|fuel IH]; intros wd i a; [reflexivity|].
  simpl. destruct (rr_offset _); [|reflexivity].
  destruct (_ >? _); [reflexivity|].
  rewrite IH. apply store_be32_length.
Qed.

Lemma pre_filter_hit_length (t : Z) (e : CacheEntry) (lk : Lookup) :
  (length (pre_filter_hit t e lk).2 <= Z.to_nat (response_len e))%nat.
Proof.
  assert (length (pre_filter_overwrite e lk) <= Z.to_nat (response_len e))%nat
    as Ho.
  { unfold pre_filter_overwrite.
    rewrite memcpy_length, !store_length, length_take. lia. }
  unfold pre_filter_hit.
  destruct (rr_offset _); [|exact Ho].
  pose proof (rewrite_ttls_length (Z.to_nat (response_len e))
                (pre_filter_overwrite e lk) (response_len e) z z
                (u32 (deadline e - t))) as Hl.
  destruct (rewrite_ttls _ _ _ _ _ _) as [[|] wd]; cbn [snd] in *; lia.
Qed.

Lemma pre_filter_hit_not_ok (t : Z) (e : CacheEntry) (lk : Lookup) :
  (pre_filter_hit t e lk).1 <> DCP_SYNC_FILTER_RESULT_OK.
Proof.
  unfold pre_filter_hit.
  destruct (rr_offset _); [|discriminate].
  destruct (rewrite_ttls _ _ _ _ _ _) as [[|] wd]; discriminate.
Qed.

(** What a call of the pre-filter that gets to the lookup returns. *)
Lemma pre_filter_continue (env : Env) (cache : Cache) (pkt : DCPluginDNSPacket)
    (lk : Lookup) :
  pre_filter_question (dns_wire_data pkt) = Continue lk ->
  dcplugin_sync_pre_filter env cache pkt
  = Returns DCP_SYNC_FILTER_RESULT_OK (set_now cache (env_time env))
      (mkPacket (lk_wire_data lk) (dns_wire_data_max_len pkt)) [Ev_time]
  \/
  exists e,
    e ∈ cache_entries cache /\
    response_len e <= dns_wire_data_max_len pkt /\
    env_time env < deadline e /\
    entry_matches e (lk_qname lk) (lk_qname_len lk) (lk_qtype lk) = true /\
    dcplugin_sync_pre_filter env cache pkt
    = Returns (pre_filter_hit (env_time env) e lk).1
        (set_now cache (env_time env))
        (mkPacket (pre_filter_hit (env_time env) e lk).2
                  (dns_wire_data_max_len pkt)) [Ev_time].
Proof.
  intros Hq. unfold dcplugin_sync_pre_filter. rewrite Hq.
  destruct (pre_filter_scan _ _ _ _) as [e|] eqn:Es; [|left; reflexivity].
  apply pre_filter_scan_elem in Es as [Hin Hm].
  cbn [now set_now].
  destruct (Z.leb_spec (response_len e) (dns_wire_data_max_len pkt));
    cbn [andb]; [|left; reflexivity].
  destruct (Z.ltb_spec (env_time env) (deadline e)); [|left; reflexivity].
  right. exists e. repeat split; try assumption.
  destruct (pre_filter_hit _ _ _). reflexivity.
Qed.

(** X6.  The pre-filter never adds, drops, reorders or rewrites an entry,
    and leaves the capacity and [min_ttl] of the cache as they are: a hit
    does not move the entry to the head, an expired entry stays in the
    list.  It calls neither an allocator nor [free]; the only call it can
    make is [time]. *)
Theorem pre_filter_keeps_cache (env : Env) (cache : Cache)
    (pkt : DCPluginDNSPacket) (r : DCPluginSyncFilterResult) (cache' : Cache)
    (pkt' : DCPluginDNSPacket) (tr : list event) :
  dcplugin_sync_pre_filter env cache pkt = Returns r cache' pkt' tr ->
  cache_entries cache' = cache_entries cache /\
  cache_entries_max cache' = cache_entries_max cache /\
  min_ttl cache' = min_ttl cache /\
  (forall ev, ev ∈ tr -> ev = Ev_time).
Proof.
  intros H.
  destruct (pre_filter_question (dns_wire_data pkt)) as [r0| |lk] eqn:Hq.
  - unfold dcplugin_sync_pre_filter in H. rewrite Hq in H.
    inversion H; subst. repeat split. intros ev Hev. inversion Hev.
  - unfold dcplugin_sync_pre_filter in H. rewrite Hq in H. discriminate.
  - destruct (pre_filter_continue env cache pkt lk Hq)
      as [Hr|(e & _ & _ & _ & _ & Hr)];
      rewrite Hr in H; inversion H; subst; repeat split;
      intros ev Hev; apply list_elem_of_singleton in Hev; exact Hev.
Qed.

(** A lookup at the deadline of the only entry. *)
Lemma pre_filter_keeps_cache_witness :
  dcplugin_sync_pre_filter (env_at 1120) cache_one_entry (packet_of query_upper)
  = Returns DCP_SYNC_FILTER_RESULT_OK (set_now cache_one_entry 1120)
      (packet_of query_upper) [Ev_time] /\
  cache_entries (set_now cache_one_entry 1120) = cache_entries cache_one_entry.
Proof.
  assert (dcplugin_sync_pre_filter (env_at 1120) cache_one_entry
            (packet_of query_upper)
          = Returns DCP_SYNC_FILTER_RESULT_OK (set_now cache_one_entry 1120)
              (packet_of query_upper) [Ev_time]) as H
    by (vm_compute; reflexivity).
  split; [exact H|].
  exact (proj1 (pre_filter_keeps_cache _ _ _ _ _ _ _ H)).
Defined.

(** X7.  The pre-filter keeps the capacity of the packet, and a packet
    that fits its capacity on entry still does on return, also when a
    cached response has been copied into it. *)
Theorem pre_filter_packet_fits (env : Env) (cache : Cache)
    (pkt : DCPluginDNSPacket) (r : DCPluginSyncFilterResult) (cache' : Cache)
    (pkt' : DCPluginDNSPacket) (tr : list event) :
  dcplugin_get_wire_data_len pkt <= dns_wire_data_max_len pkt ->
  dcplugin_sync_pre_filter env cache pkt = Returns r cache' pkt' tr ->
  dns_wire_data_max_len pkt' = dns_wire_data_max_len pkt /\
  dcplugin_get_wire_data_len pkt' <= dns_wire_data_max_len pkt'.
Proof.
  unfold dcplugin_get_wire_data_len. intros Hfit H.
  destruct (pre_filter_question (dns_wire_data pkt)) as [r0| |lk] eqn:Hq.
  - unfold dcplugin_sync_pre_filter in H. rewrite Hq in H.
    inversion H; subst. split; [reflexivity|exact Hfit].
  - unfold dcplugin_sync_pre_filter in H. rewrite Hq in H. discriminate.
  - destruct (pre_filter_continue env cache pkt lk Hq)
      as [Hr|(e & _ & Hle & _ & _ & Hr)];
      rewrite Hr in H; inversion H; subst; cbn [dns_wire_data_max_len dns_wire_data];
      (split; [reflexivity|]).
    + rewrite (pre_filter_question_length _ _ Hq). exact Hfit.
    + pose proof (pre_filter_hit_length (env_time env) e lk). lia.
Qed.

(** A hit on the only entry. *)
Lemma pre_filter_packet_fits_witness :
  dcplugin_get_wire_data_len (packet_of query_upper)
  <= dns_wire_data_max_len (packet_of query_upper) /\
  exists P,
    dcplugin_sync_pre_filter (env_at 1100) cache_one_entry
      (packet_of query_upper)
    = Returns DCP_SYNC_FILTER_RESULT_DIRECT (set_now cache_one_entry 1100)
        (mkPacket P 4096) [Ev_time] /\
    dcplugin_get_wire_data_len (mkPacket P 4096) <= 4096.
Proof.
  assert (dcplugin_get_wire_data_len (packet_of query_upper)
          <= dns_wire_data_max_len (packet_of query_upper)) as Hfit
    by (vm_compute; discriminate).
  split; [exact Hfit|].
  assert (exists P,
            dcplugin_sync_pre_filter (env_at 1100) cache_one_entry
              (packet_of query_upper)
            = Returns DCP_SYNC_FILTER_RESULT_DIRECT (set_now cache_one_entry 1100)
                (mkPacket P 4096) [Ev_time]) as [P HP]
    by (eexists; vm_compute; reflexivity).
  exists P. split; [exact HP|].
  exact (proj2 (pre_filter_packet_fits _ _ _ _ _ _ _ Hfit HP)).
Defined.

Lemma pre_filter_question_wire (wd : list byte) (lk : Lookup) :
  Z.of_nat (length wd) < 2 ^ 64 ->
  pre_filter_question wd = Continue lk ->
  lk_wire_data lk = wd \/
  (byte_at wd 11 = 1 /\
   exists k, 12 <= k < Z.of_nat (length wd) /\
     lk_wire_data lk = store wd k (toupper (byte_at wd k))).
Proof.
  intros Hlen H. unfold pre_filter_question in H.
  destruct (_ || _); [discriminate|].
  destruct (rr_offset (next_rr wd _ true 12)) as [i|] eqn:Eo; [|discriminate].
  assert (0 <= Z.of_nat (length wd) < 2 ^ 64) as Hlen' by lia.
  destruct (next_rr_question_Some _ Hlen' wd 12 i ltac:(lia) Eo)
    as (o & Hs & -> & Hend & Hq).
  pose proof (skip_name_bounds _ Hlen' wd 12 o ltac:(lia) Hs) as [Hb _].
  rewrite Hq in H. cbn [rr_name_len rr_qtype rr_qclass from_option id] in H.
  destruct (negb _); [discriminate|].
  destruct (Z.gtb_spec (o - 12) DNS_MAX_HOSTNAME_LEN); [discriminate|].
  destruct (negb (name_terminated _)); [discriminate|].
  destruct (Z.eqb_spec (byte_at wd 11) 1) as [E11|E11].
  2: { inversion H. left. reflexivity. }
  destruct (rr_offset (next_rr wd _ false (o + 4))); [|discriminate].
  destruct (negb _); [discriminate|].
  destruct (_ =? 32768); cbn [andb] in H.
  2: { inversion H. left. reflexivity. }
  rewrite Z.geb_leb in H.
  destruct (Z.leb_spec 2 (o - 12)) as [Hn2|Hn2].
  2: { inversion H. left. reflexivity. }
  rewrite size_sub_small in H by lia.
  inversion H. cbn [lk_wire_data]. right. split; [exact E11|].
  exists (o - 2). split; [lia|].
  replace (12 + (o - 12 - 2)) with (o - 2) by lia. f_equal.
  rewrite byte_at_store_eq.
  2: { rewrite name_tolower_length, bytes_at_length; lia. }
  rewrite toupper_name_tolower by lia.
  rewrite byte_at_bytes_at by lia.
  replace (12 + (o - 12 - 2)) with (o - 2) by lia.
  apply Z.mod_small, toupper_range, byte_at_range.
Qed.

(** X8.  When the pre-filter returns OK the query goes on with its length
    unchanged.  With ARCOUNT = 0 the packet is returned as it came.
    Otherwise a byte can differ from the one received only in the question
    name or after it, and then it is the upper-case form of that byte. *)
Theorem pre_filter_ok_forwards_query (env : Env) (cache : Cache)
    (pkt : DCPluginDNSPacket) (cache' : Cache) (pkt' : DCPluginDNSPacket)
    (tr : list event) :
  dcplugin_get_wire_data_len pkt < 2 ^ 64 ->
  dcplugin_sync_pre_filter env cache pkt
  = Returns DCP_SYNC_FILTER_RESULT_OK cache' pkt' tr ->
  dcplugin_get_wire_data_len pkt' = dcplugin_get_wire_data_len pkt /\
  (arcount (dns_wire_data pkt) = 0 -> pkt' = pkt) /\
  (forall j, 0 <= j ->
     byte_at (dns_wire_data pkt') j <> byte_at (dns_wire_data pkt) j ->
     12 <= j /\
     byte_at (dns_wire_data pkt') j = toupper (byte_at (dns_wire_data pkt) j)).
Proof.
  unfold dcplugin_get_wire_data_len. intros Hlen H.
  destruct (pre_filter_question (dns_wire_data pkt)) as [r0| |lk] eqn:Hq.
  - unfold dcplugin_sync_pre_filter in H. rewrite Hq in H.
    inversion H; subst. split; [reflexivity|]. split; [reflexivity|].
    intros j _ Hne. contradiction.
  - unfold dcplugin_sync_pre_filter in H. rewrite Hq in H. discriminate.
  - destruct (pre_filter_continue env cache pkt lk Hq)
      as [Hr|(e & _ & _ & _ & _ & Hr)]; rewrite Hr in H.
    2: { exfalso. apply (pre_filter_hit_not_ok (env_time env) e lk).
         congruence. }
    inversion H; subst. cbn [dns_wire_data].
    split; [rewrite (pre_filter_question_length _ _ Hq); reflexivity|].
    destruct (pre_filter_question_wire _ _ Hlen Hq)
      as [Hw|(E11 & k & Hk & Hw)]; rewrite Hw.
    + split; [intros _; destruct pkt; reflexivity|].
      intros j _ Hne. contradiction.
    + split.
      * unfold arcount. rewrite be16_eq. change (10 + 1) with 11.
        pose proof (byte_at_range (dns_wire_data pkt) 10). lia.
      * intros j Hj Hne.
        destruct (Z.eq_dec k j) as [->|Hkj].
        2: { rewrite byte_at_store_ne in Hne by lia. contradiction. }
        split; [lia|].
        rewrite byte_at_store_eq by lia.
        apply Z.mod_small, toupper_range, byte_at_range.
Qed.

(** A miss of a query with the DO bit set. *)
Lemma pre_filter_ok_forwards_query_witness :
  dcplugin_get_wire_data_len (packet_of query_do_lower) < 2 ^ 64 /\
  dcplugin_sync_pre_filter (env_at 7) cache_abc (packet_of query_do_lower)
  = Returns DCP_SYNC_FILTER_RESULT_OK (set_now cache_abc 7)
      (packet_of query_do_upper) [Ev_time] /\
  (forall j, 0 <= j ->
     byte_at query_do_upper j <> byte_at query_do_lower j ->
     12 <= j /\ byte_at query_do_upper j = toupper (byte_at query_do_lower j)).
Proof.
  assert (dcplugin_get_wire_data_len (packet_of query_do_lower) < 2 ^ 64) as H1
    by (vm_compute; reflexivity).
  assert (dcplugin_sync_pre_filter (env_at 7) cache_abc
            (packet_of query_do_lower)
          = Returns DCP_SYNC_FILTER_RESULT_OK (set_now cache_abc 7)
              (packet_of query_do_upper) [Ev_time]) as H2
    by (vm_compute; reflexivity).
  split; [exact H1|]. split; [exact H2|].
  exact (proj2 (proj2 (pre_filter_ok_forwards_query _ _ _ _ _ _ H1 H2))).
Defined.

Lemma qdcount_one (p : list byte) :
  qdcount p = 1 <-> byte_at p 4 = 0 /\ byte_at p 5 = 1.
Proof.
  unfold qdcount. rewrite be16_eq. change (4 + 1) with 5.
  pose proof (byte_at_range p 4). pose proof (byte_at_range p 5). lia.
Qed.




(** ** What the post-filter does to the list *)

(** The scan over a list whose first match is the entry after [front]. *)
Lemma post_filter_scan_app (front back : list CacheEntry) (e : CacheEntry)
    (pos : nat) (name : list byte) (n t : Z) (last parent : option nat)
    (count : Z) :
  Forall (fun x => entry_matches x name n t = false) front ->
  entry_matches e name n t = true ->
  post_filter_scan (front ++ e :: back) pos name n t last parent count
  = mkScan (Some ((pos + length front)%nat, e))
           (Some (pos + length front)%nat)
           (match front with
            | [] => last
            | _ :: _ => Some (pos + length front - 1)%nat
            end)
           (count + Z.of_nat (length front) + 1).
Proof.
  intros Hf He. revert pos last parent count.
  induction Hf as [|x front Hx Hf IH]; intros pos last parent count.
  - cbn [app post_filter_scan length]. rewrite He.
    f_equal; [do 2 f_equal; lia|f_equal; lia|lia].
  - cbn [app post_filter_scan length]. rewrite Hx, IH.
    f_equal; [do 2 f_equal; lia|f_equal; lia| |lia].
    destruct front; f_equal; cbn [length]; lia.
Qed.

(** The scan over a list without a match. *)
Lemma post_filter_scan_none (es : list CacheEntry) (name : list byte)
    (n t : Z) :
  Forall (fun x => entry_matches x name n t = false) es ->
  post_filter_scan es 0 name n t None None 0
  = mkScan None
           (match length es with O => None | S m => Some m end)
           (match length es with
            | O => None
            | 1%nat => None
            | S (S m) => Some m
            end)
           (Z.of_nat (length es)).
Proof.
  intros Hf. rewrite post_filter_scan_spec.
  destruct (list_find _ es) as [[k x]|] eqn:E.
  - apply list_find_Some in E as (Hx & Hm & _).
    apply list_elem_of_lookup_2 in Hx.
    rewrite Forall_forall in Hf. rewrite (Hf _ Hx) in Hm. discriminate.
  - reflexivity.
Qed.

(** X10.  The update of a resident entry, as the code does it.  When the
    first entry that matches the response stands after the entries
    [front], it is put at the head with the new response, length and
    deadline, its name and type kept; [realloc] is called only when the
    response is longer than the one stored.  If [front] is empty the
    entries behind it stay; otherwise the list that remains is the new
    head followed by [front], and the entries behind the one found are no
    longer in the list (line 365). *)
Theorem post_filter_refreshes_entry (env : Env) (cache : Cache)
    (pkt : DCPluginDNSPacket) (cp : Capture)
    (front back : list CacheEntry) (e : CacheEntry) :
  post_filter_question env cache (dns_wire_data pkt) = Continue cp ->
  cp_qname_len cp <= DNS_MAX_HOSTNAME_LEN ->
  cache_entries cache = front ++ e :: back ->
  Forall (fun x =>
            entry_matches x (bytes_at (dns_wire_data pkt) 12 (cp_qname_len cp))
                          (cp_qname_len cp) (cp_qtype cp) = false) front ->
  entry_matches e (bytes_at (dns_wire_data pkt) 12 (cp_qname_len cp))
                (cp_qname_len cp) (cp_qtype cp) = true ->
  (response_len e < dcplugin_get_wire_data_len pkt ->
   env_realloc_ok env = true) ->
  dcplugin_sync_post_filter env cache pkt
  = Returns DCP_SYNC_FILTER_RESULT_OK
      (set_entries cache
         ({| response :=
               if dcplugin_get_wire_data_len pkt >? response_len e
               then dns_wire_data pkt
               else dns_wire_data pkt
                    ++ drop (length (dns_wire_data pkt)) (response e);
             response_len := u16 (dcplugin_get_wire_data_len pkt);
             qname := qname e;
             qtype := qtype e;
             deadline := now cache + cp_ttl cp |}
          :: match front with [] => back | _ :: _ => front end))
      pkt
      (if dcplugin_get_wire_data_len pkt >? response_len e
       then [Ev_realloc true] else []).
Proof.
  unfold dcplugin_get_wire_data_len.
  intros Hq Hn Hes Hfront He Hre.
  unfold dcplugin_sync_post_filter. rewrite Hq.
  destruct (Z.gtb_spec (cp_qname_len cp) DNS_MAX_HOSTNAME_LEN); [lia|].
  cbn [andb]. rewrite Hes.
  rewrite (post_filter_scan_app front back e 0 _ _ _ None None 0 Hfront He).
  cbn [scanned_cache_entry]. unfold post_filter_update.
  cbn [last_cache_entry_parent].
  destruct (Z.gtb_spec (Z.of_nat (length (dns_wire_data pkt))) (response_len e))
    as [Hg|Hg]; cbn [andb].
  - rewrite (Hre Hg). cbn [negb]. rewrite Hes.
    f_equal. f_equal. f_equal.
    destruct front as [|x front]; [reflexivity|].
    replace (S (0 + length (x :: front) - 1)) with (length (x :: front))
      by (cbn [length]; lia).
    rewrite take_app_length. reflexivity.
  - rewrite Hes. f_equal. f_equal. f_equal.
    destruct front as [|x front]; [reflexivity|].
    replace (S (0 + length (x :: front) - 1)) with (length (x :: front))
      by (cbn [length]; lia).
    rewrite take_app_length. reflexivity.
Qed.

(** A second response for b.com, the middle one of three entries. *)
Lemma post_filter_refreshes_entry_witness :
  post_filter_question (env_at 0) cache_abc
    (dns_wire_data (packet_of response_b'))
  = Continue {| cp_qname_len := 7; cp_qtype := 1;
                cp_ttl := 200; cp_min_ttl := 200 |} /\
  cache_entries cache_abc
  = [entry_at cache_abc 0] ++ entry_at cache_abc 1 :: [entry_at cache_abc 2] /\
  responses cache_abc = [response_a; response_b; response_c] /\
  dcplugin_sync_post_filter (env_at 0) cache_abc (packet_of response_b')
  = Returns DCP_SYNC_FILTER_RESULT_OK
      (set_entries cache_abc
         [{| response := response_b';
             response_len := 39;
             qname := qname (entry_at cache_abc 1);
             qtype := 1;
             deadline := 1000 + 200 |};
          entry_at cache_abc 0])
      (packet_of response_b') [].
Proof.
  assert (post_filter_question (env_at 0) cache_abc
            (dns_wire_data (packet_of response_b'))
          = Continue {| cp_qname_len := 7; cp_qtype := 1;
                        cp_ttl := 200; cp_min_ttl := 200 |}) as Hq
    by (vm_compute; reflexivity).
  assert (cache_entries cache_abc
          = [entry_at cache_abc 0] ++ entry_at cache_abc 1
              :: [entry_at cache_abc 2]) as Hes
    by (vm_compute; reflexivity).
  split; [exact Hq|]. split; [exact Hes|].
  split; [vm_compute; reflexivity|].
  rewrite (post_filter_refreshes_entry (env_at 0) cache_abc
             (packet_of response_b') _ _ _ _ Hq
             ltac:(vm_compute; discriminate) Hes
             ltac:(repeat constructor) ltac:(vm_compute; reflexivity)
             ltac:(intros _; reflexivity)).
  vm_compute. reflexivity.
Defined.

Lemma set_entries_same (cache : Cache) :
  set_entries cache (cache_entries cache) = cache.
Proof. destruct cache. reflexivity. Qed.

(** A list of two entries or more, cut before its last entry. *)
Lemma take_last_split (es : list CacheEntry) (m : nat) :
  length es = S (S m) ->
  exists tail,
    es !! S m = Some tail /\ es = take (S m) es ++ [tail] /\ take (S m) es <> [].
Proof.
  intros Hl.
  destruct (lookup_lt_is_Some_2 es (S m) ltac:(lia)) as [tail Ht].
  exists tail. split; [exact Ht|]. split.
  - rewrite <- (take_drop (S m) es) at 1. f_equal.
    rewrite (drop_S _ _ _ Ht). rewrite drop_ge by lia. reflexivity.
  - destruct es; [discriminate|]. discriminate.
Qed.

Ltac event_in H :=
  rewrite ?elem_of_app, ?elem_of_cons, ?elem_of_nil in H;
  intuition discriminate.

(** X11.  A failed allocation stores nothing and is not reported: the
    post-filter returns OK.  The cache is left as it was, except that a
    list that had reached its capacity has already lost its last entry,
    which was released before [calloc] was tried. *)
Theorem post_filter_failed_allocation (env : Env) (cache : Cache)
    (pkt : DCPluginDNSPacket) (r : DCPluginSyncFilterResult) (cache' : Cache)
    (pkt' : DCPluginDNSPacket) (tr : list event) :
  dcplugin_sync_post_filter env cache pkt = Returns r cache' pkt' tr ->
  Ev_calloc false ∈ tr \/ Ev_malloc false ∈ tr \/ Ev_realloc false ∈ tr ->
  r = DCP_SYNC_FILTER_RESULT_OK /\
  (cache' = cache \/
   exists front tail,
     cache_entries cache = front ++ [tail] /\ front <> [] /\
     cache_entries_max cache <= Z.of_nat (length (cache_entries cache)) /\
     cache' = set_entries cache front /\
     Ev_free_response tail ∈ tr /\ Ev_free_entry tail ∈ tr).
Proof.
  intros H Hfail. unfold dcplugin_sync_post_filter in H.
  destruct (post_filter_question _ _ _) as [r0| |c]; [| discriminate |].
  { inversion H; subst. event_in Hfail. }
  destruct (_ && _); [discriminate|].
  rewrite post_filter_scan_spec in H.
  destruct (list_find _ _) as [[k e]|] eqn:Ef; cbn [scanned_cache_entry] in H.
  - (* a resident entry: only [realloc] can fail *)
    unfold post_filter_update in H.
    destruct (_ >? _); cbn [andb] in H.
    + destruct (env_realloc_ok env); cbn [negb] in H; inversion H; subst.
      * event_in Hfail.
      * split; [reflexivity|]. left. reflexivity.
    + inversion H; subst. event_in Hfail.
  - (* a new entry *)
    unfold post_filter_insert in H.
    cbn [last_cache_entry_parent last_cache_entry cache_entries_count] in H.
    destruct (cache_entries cache) as [|x [|y es]] eqn:Ees.
    + (* empty cache *)
      cbn [length] in H.
      destruct (env_calloc_ok env); cbn [negb] in H.
      2: { inversion H; subst. split; [reflexivity|]. left.
           rewrite <- Ees. apply set_entries_same. }
      destruct (_ >? _); [discriminate|].
      destruct (env_malloc_ok env); cbn [negb] in H; inversion H; subst.
      * event_in Hfail.
      * split; [reflexivity|]. left. rewrite <- Ees. apply set_entries_same.
    + (* one entry: nothing is evicted *)
      cbn [length] in H.
      destruct (env_calloc_ok env); cbn [negb] in H.
      2: { inversion H; subst. split; [reflexivity|]. left.
           rewrite <- Ees. apply set_entries_same. }
      destruct (_ >? _); [discriminate|].
      destruct (env_malloc_ok env); cbn [negb] in H; inversion H; subst.
      * event_in Hfail.
      * split; [reflexivity|]. left. rewrite <- Ees. apply set_entries_same.
    + (* two entries or more *)
      rewrite <- Ees in *.
      assert (length (cache_entries cache) = S (S (length es))) as Hl
        by (rewrite Ees; reflexivity).
      rewrite Hl in H.
      destruct (take_last_split _ _ Hl) as (tail & Ht & Hsplit & Hne).
      cbn [Nat.add] in H. rewrite Ht in H.
      rewrite <- Hl, Z.add_0_l, Z.geb_leb in H.
      destruct (Z.leb_spec (cache_entries_max cache)
                  (Z.of_nat (length (cache_entries cache)))) as [Hfull|Hfull].
      * assert (forall tr',
                  tr = [Ev_free_response tail; Ev_free_entry tail] ++ tr' ->
                  cache' = set_entries cache (take (S (length es))
                                                (cache_entries cache)) ->
                  r = DCP_SYNC_FILTER_RESULT_OK ->
                  r = DCP_SYNC_FILTER_RESULT_OK /\
                  (cache' = cache \/
                   exists front tail0,
                     cache_entries cache = front ++ [tail0] /\ front <> [] /\
                     cache_entries_max cache
                     <= Z.of_nat (length (cache_entries cache)) /\
                     cache' = set_entries cache front /\
                     Ev_free_response tail0 ∈ tr /\ Ev_free_entry tail0 ∈ tr))
          as Hgoal.
        { intros tr' -> -> ->. split; [reflexivity|]. right.
          exists (take (S (length es)) (cache_entries cache)), tail.
          repeat split; try assumption.
          - apply elem_of_app. left. apply elem_of_cons. left. reflexivity.
          - apply elem_of_app. left. apply elem_of_cons. right.
            apply elem_of_cons. left. reflexivity. }
        destruct (env_calloc_ok env); cbn [negb] in H.
        2: { inversion H; subst. eapply Hgoal; reflexivity. }
        destruct (_ >? _); [discriminate|].
        destruct (env_malloc_ok env); cbn [negb] in H; inversion H; subst.
        -- event_in Hfail.
        -- eapply Hgoal; reflexivity.
      * destruct (env_calloc_ok env); cbn [negb] in H.
        2: { inversion H; subst. split; [reflexivity|]. left.
             apply set_entries_same. }
        destruct (_ >? _); [discriminate|].
        destruct (env_malloc_ok env); cbn [negb] in H; inversion H; subst.
        -- event_in Hfail.
        -- split; [reflexivity|]. left. apply set_entries_same.
Qed.

(** [calloc] failing on a full cache. *)
Lemma post_filter_failed_allocation_witness :
  dcplugin_sync_post_filter env_no_calloc cache_50 (call_51 50).2
  = Returns DCP_SYNC_FILTER_RESULT_OK
      (set_entries cache_50 (take 49 (cache_entries cache_50)))
      (call_51 50).2
      [Ev_free_response (entry_at cache_50 49);
       Ev_free_entry (entry_at cache_50 49); Ev_calloc false] /\
  (Ev_calloc false
   ∈ [Ev_free_response (entry_at cache_50 49);
      Ev_free_entry (entry_at cache_50 49); Ev_calloc false]) /\
  (DCP_SYNC_FILTER_RESULT_OK = DCP_SYNC_FILTER_RESULT_OK /\
   (set_entries cache_50 (take 49 (cache_entries cache_50)) = cache_50 \/
    exists front tail,
      cache_entries cache_50 = front ++ [tail] /\ front <> [] /\
      cache_entries_max cache_50 <= Z.of_nat (length (cache_entries cache_50)) /\
      set_entries cache_50 (take 49 (cache_entries cache_50))
      = set_entries cache_50 front /\
      Ev_free_response tail
      ∈ [Ev_free_response (entry_at cache_50 49);
         Ev_free_entry (entry_at cache_50 49); Ev_calloc false] /\
      Ev_free_entry tail
      ∈ [Ev_free_response (entry_at cache_50 49);
         Ev_free_entry (entry_at cache_50 49); Ev_calloc false])).
Proof.
  assert (dcplugin_sync_post_filter env_no_calloc cache_50 (call_51 50).2
          = Returns DCP_SYNC_FILTER_RESULT_OK
              (set_entries cache_50 (take 49 (cache_entries cache_50)))
              (call_51 50).2
              [Ev_free_response (entry_at cache_50 49);
               Ev_free_entry (entry_at cache_50 49); Ev_calloc false]) as H
    by (vm_compute; reflexivity).
  assert (Ev_calloc false
          ∈ [Ev_free_response (entry_at cache_50 49);
             Ev_free_entry (entry_at cache_50 49); Ev_calloc false]) as Hin
    by (apply elem_of_cons; right; apply elem_of_cons; right;
        apply elem_of_cons; left; reflexivity).
  split; [exact H|]. split; [exact Hin|].
  exact (post_filter_failed_allocation _ _ _ _ _ _ _ H (or_introl Hin)).
Defined.

(** Every way a post-filter call that returns can leave the list: as it
    was; with the entry found refreshed and moved to the head; or cut to
    its first [m] entries, with or without a new entry at the head. *)
Lemma post_filter_inv (env : Env) (cache : Cache) (pkt : DCPluginDNSPacket)
    (r : DCPluginSyncFilterResult) (cache' : Cache) (pkt' : DCPluginDNSPacket)
    (tr : list event) :
  dcplugin_sync_post_filter env cache pkt = Returns r cache' pkt' tr ->
  cache' = set_entries cache (cache_entries cache') /\
  (cache_entries cache' = cache_entries cache
   \/
   (exists cp k e buffer,
      post_filter_question env cache (dns_wire_data pkt) = Continue cp /\
      list_find (fun x =>
                   entry_matches x
                     (bytes_at (dns_wire_data pkt) 12 (cp_qname_len cp))
                     (cp_qname_len cp) (cp_qtype cp) = true)
                (cache_entries cache) = Some (k, e) /\
      (length (dns_wire_data pkt) <= length buffer)%nat /\
      cache_entries cache'
      = {| response := buffer;
           response_len := u16 (dcplugin_get_wire_data_len pkt);
           qname := qname e;
           qtype := qtype e;
           deadline := now cache + cp_ttl cp |}
        :: match k with
           | O => drop 1 (cache_entries cache)
           | S _ => take k (cache_entries cache)
           end)
   \/
   (exists cp m,
      post_filter_question env cache (dns_wire_data pkt) = Continue cp /\
      cp_qname_len cp <= DNS_MAX_HOSTNAME_LEN /\
      list_find (fun x =>
                   entry_matches x
                     (bytes_at (dns_wire_data pkt) 12 (cp_qname_len cp))
                     (cp_qname_len cp) (cp_qtype cp) = true)
                (cache_entries cache) = None /\
      (cache_entries cache' = take m (cache_entries cache) \/
       cache_entries cache'
       = {| response := dns_wire_data pkt;
            response_len := u16 (dcplugin_get_wire_data_len pkt);
            qname := qname_buffer
                       (bytes_at (dns_wire_data pkt) 12 (cp_qname_len cp));
            qtype := cp_qtype cp;
            deadline := now cache + cp_ttl cp |}
         :: take m (cache_entries cache)))).
Proof.
  unfold dcplugin_get_wire_data_len.
  intros H. unfold dcplugin_sync_post_filter in H.
  destruct (post_filter_question _ _ _) as [r0| |cp] eqn:Hq; [| discriminate |].
  { injection H as <- <- <- <-. split; [symmetry; apply set_entries_same|].
    left. reflexivity. }
  destruct (_ && _) eqn:Hfault; [discriminate|].
  rewrite post_filter_scan_spec in H.
  destruct (list_find _ _) as [[k e]|] eqn:Ef; cbn [scanned_cache_entry] in H.
  - unfold post_filter_update in H. cbn [last_cache_entry_parent] in H.
    cbn [Nat.add] in H.
    destruct (Z.gtb_spec (Z.of_nat (length (dns_wire_data pkt)))
                (response_len e)) as [Hg|Hg]; cbn [andb] in H.
    + destruct (env_realloc_ok env); cbn [negb] in H;
        injection H as <- <- <- <-.
      2: { split; [symmetry; apply set_entries_same|]. left. reflexivity. }
      split; [reflexivity|]. right. left.
      exists cp, k, e, (dns_wire_data pkt).
      split; [reflexivity|]. split; [exact Ef|]. split; [lia|].
      cbn [cache_entries set_entries]. f_equal.
      destruct k; [|reflexivity].
      apply list_find_Some in Ef as (Hx & _).
      destruct (cache_entries cache); [discriminate|]. reflexivity.
    + injection H as <- <- <- <-.
      split; [reflexivity|]. right. left.
      exists cp, k, e,
        (dns_wire_data pkt ++ drop (length (dns_wire_data pkt)) (response e)).
      split; [reflexivity|]. split; [exact Ef|].
      split; [rewrite length_app; lia|].
      cbn [cache_entries set_entries]. f_equal.
      destruct k; [|reflexivity].
      apply list_find_Some in Ef as (Hx & _).
      destruct (cache_entries cache); [discriminate|]. reflexivity.
  - unfold post_filter_insert in H.
    cbn [last_cache_entry_parent last_cache_entry cache_entries_count] in H.
    assert (exists m ev,
              (let '(entries, evicted) :=
                 match
                   match length (cache_entries cache) with
                   | O => None
                   | 1%nat => None
                   | S (S m) => Some (0 + m)%nat
                   end,
                   match length (cache_entries cache) with
                   | O => None
                   | S m => Some (0 + m)%nat
                   end
                 with
                 | Some p, Some l =>
                     if 0 + Z.of_nat (length (cache_entries cache))
                        >=? cache_entries_max cache
                     then (take (S p) (cache_entries cache),
                           match cache_entries cache !! l with
                           | Some last =>
                               [Ev_free_response last; Ev_free_entry last]
                           | None => []
                           end)
                     else (cache_entries cache, [])
                 | _, _ => (cache_entries cache, [])
                 end in (entries, evicted))
              = (take m (cache_entries cache), ev)) as (m & ev & Hev).
    { destruct (length (cache_entries cache)) as [|[|n]] eqn:El.
      - exists 0%nat, []. destruct (cache_entries cache); [reflexivity|discriminate].
      - exists 1%nat, []. rewrite take_ge by lia. reflexivity.
      - destruct (_ >=? _).
        + eexists _, _. reflexivity.
        + exists (S (S n)), []. rewrite take_ge by lia. reflexivity. }
    destruct (match match length (cache_entries cache) with
                    | O => None | 1%nat => None | S (S m) => Some (0 + m)%nat
                    end,
                    match length (cache_entries cache) with
                    | O => None | S m => Some (0 + m)%nat
                    end
              with
              | Some p, Some l => _
              | _, _ => _
              end) as [entries evicted].
    inversion Hev; subst entries evicted. clear Hev.
    destruct (env_calloc_ok env); cbn [negb] in H.
    2: { injection H as <- <- <- <-. split; [reflexivity|].
         cbn [cache_entries set_entries].
         destruct (Z.gtb_spec (cp_qname_len cp) DNS_MAX_HOSTNAME_LEN) as [Hn|Hn].
         - (* the name is too long, so the list is empty *)
           left. cbn [andb] in Hfault. apply Z.ltb_ge in Hfault.
           destruct (cache_entries cache); [|cbn [length] in Hfault; lia].
           apply take_nil.
         - right. right. exists cp, m.
           split; [reflexivity|]. split; [exact Hn|]. split; [exact Ef|].
           left. reflexivity. }
    destruct (Z.gtb_spec (cp_qname_len cp) DNS_MAX_HOSTNAME_LEN) as [Hn|Hn];
      [discriminate|].
    destruct (env_malloc_ok env); cbn [negb] in H;
      injection H as <- <- <- <-;
      (split; [reflexivity|]); right; right; exists cp, m;
      (split; [reflexivity|]); (split; [exact Hn|]); (split; [exact Ef|]).
    + right. reflexivity.
    + left. reflexivity.
Qed.

Lemma elem_of_take_list (x : CacheEntry) (n : nat) (l : list CacheEntry) :
  x ∈ take n l -> x ∈ l.
Proof.
  intros H. rewrite <- (take_drop n l). apply elem_of_app. left. exact H.
Qed.

Lemma elem_of_drop_list (x : CacheEntry) (n : nat) (l : list CacheEntry) :
  x ∈ drop n l -> x ∈ l.
Proof.
  intros H. rewrite <- (take_drop n l). apply elem_of_app. right. exact H.
Qed.

(** What the parsing half of the post-filter hands over: a question name
    that lies inside the message, a 16-bit type, and a lifetime that is a
    32-bit value not below the cache's [min_ttl]. *)
Lemma next_rr_ttl_range (p : list byte) (len : Z) (q : bool) (off v : Z) :
  rr_ttl (next_rr p len q off) = Some v -> 0 <= v < 2 ^ 32.
Proof.
  unfold next_rr. pose proof (be32_range p) as Hr.
  repeat case_match; cbn [rr_ttl]; intros Hv; inversion Hv; subst; apply Hr.
Qed.

Lemma answers_loop_ttl_range (fuel : nat) (wd : list byte)
    (len i ttl m : Z) :
  0 <= ttl < 2 ^ 32 ->
  0 <= (answers_loop fuel wd len i ttl m).1 < 2 ^ 32.
Proof.
  revert i ttl m. induction fuel as [|fuel IH]; intros i ttl m Ht; [exact Ht|].
  cbn [answers_loop].
  assert (0 <= default ttl (rr_ttl (next_rr wd len false i)) < 2 ^ 32) as Ht'.
  { destruct (rr_ttl _) as [v|] eqn:E; cbn [from_option id]; [|exact Ht].
    exact (next_rr_ttl_range _ _ _ _ _ E). }
  destruct (rr_offset _); [|exact Ht'].
  apply IH. exact Ht'.
Qed.

Lemma u32_range (z : Z) : 0 <= u32 z < 2 ^ 32.
Proof. unfold u32. apply Z.mod_pos_bound. lia. Qed.

Lemma post_filter_question_spec (env : Env) (cache : Cache) (wd : list byte)
    (cp : Capture) :
  Z.of_nat (length wd) < 2 ^ 64 ->
  post_filter_question env cache wd = Continue cp ->
  1 <= cp_qname_len cp /\
  12 + cp_qname_len cp + 6 <= Z.of_nat (length wd) /\
  0 <= cp_ttl cp < 2 ^ 32 /\
  (0 <= min_ttl cache < 2 ^ 32 -> min_ttl cache <= cp_ttl cp).
Proof.
  intros Hlen H. unfold post_filter_question in H.
  destruct (post_filter_gate wd) as [r| |[[n t] i]] eqn:Eg; try discriminate.
  unfold post_filter_gate in Eg.
  destruct (_ || _); [discriminate|].
  destruct (negb _); [discriminate|].
  destruct (_ && _); [discriminate|].
  destruct (rr_offset _) as [i'|] eqn:Eo; [|discriminate].
  assert (0 <= Z.of_nat (length wd) < 2 ^ 64) as Hlen' by lia.
  destruct (next_rr_question_Some _ Hlen' wd 12 i' ltac:(lia) Eo)
    as (o & Hs & -> & Hend & Hq).
  rewrite Hq in Eg. cbn [rr_name_len rr_qtype rr_qclass from_option id] in Eg.
  destruct (negb _); [discriminate|]. inversion Eg; subst n t i. clear Eg.
  pose proof (skip_name_bounds _ Hlen' wd 12 o ltac:(lia) Hs) as [Hb _].
  pose proof (answers_loop_ttl_range (Z.to_nat (Z.of_nat (length wd))) wd
                (Z.of_nat (length wd)) (o + 4) (u32 (env_ttl_indet env))
                MAX_TTL (u32_range _)) as Hr.
  destruct (answers_loop _ _ _ _ _ _) as [ttl m]. cbn [fst] in Hr.
  inversion H; subst cp. cbn [cp_qname_len cp_ttl].
  split; [lia|]. split; [lia|].
  destruct (Z.ltb_spec ttl (min_ttl cache)) as [Hlt|Hge].
  - split; [apply u32_range|].
    intros Hm. unfold u32. rewrite Z.mod_small by lia. lia.
  - split; [exact Hr|]. intros _. exact Hge.
Qed.

(** X12.  Every entry the post-filter puts in the list lives at least
    [cache->min_ttl] seconds past [cache->now], and less than 2^32
    seconds. *)
Theorem post_filter_lifetime_floor (env : Env) (cache : Cache)
    (pkt : DCPluginDNSPacket) (r : DCPluginSyncFilterResult) (cache' : Cache)
    (pkt' : DCPluginDNSPacket) (tr : list event) (e : CacheEntry) :
  dcplugin_get_wire_data_len pkt < 2 ^ 64 ->
  0 <= min_ttl cache < 2 ^ 32 ->
  dcplugin_sync_post_filter env cache pkt = Returns r cache' pkt' tr ->
  e ∈ cache_entries cache' ->
  e ∈ cache_entries cache \/
  min_ttl cache <= deadline e - now cache < 2 ^ 32.
Proof.
  unfold dcplugin_get_wire_data_len. intros Hlen Hm H He.
  destruct (post_filter_inv _ _ _ _ _ _ _ H)
    as (_ & [Hs|[(cp & k & x & buf & Hq & Hf & _ & Hs)
                |(cp & m & Hq & _ & _ & [Hs|Hs])]]);
    rewrite Hs in He;
    try (destruct (post_filter_question_spec _ _ _ _ Hlen Hq)
           as (_ & _ & Hr & Hfloor); specialize (Hfloor Hm)).
  - left. exact He.
  - apply elem_of_cons in He as [->|He]; [right; cbn [deadline]; lia|].
    left. destruct k; [eapply elem_of_drop_list|eapply elem_of_take_list];
      exact He.
  - left. eapply elem_of_take_list. exact He.
  - apply elem_of_cons in He as [->|He]; [right; cbn [deadline]; lia|].
    left. eapply elem_of_take_list. exact He.
Qed.

(** The sample response, stored at time 1000. *)
Lemma post_filter_lifetime_floor_witness :
  dcplugin_get_wire_data_len (packet_of response_30_120) < 2 ^ 64 /\
  0 <= min_ttl cache_1000 < 2 ^ 32 /\
  dcplugin_sync_post_filter (env_at 0) cache_1000 (packet_of response_30_120)
  = Returns DCP_SYNC_FILTER_RESULT_OK cache_one_entry
      (packet_of response_30_120) [Ev_calloc true; Ev_malloc true] /\
  entry_at cache_one_entry 0 ∈ cache_entries cache_one_entry /\
  (entry_at cache_one_entry 0 ∈ cache_entries cache_1000 \/
   min_ttl cache_1000
   <= deadline (entry_at cache_one_entry 0) - now cache_1000 < 2 ^ 32).
Proof.
  assert (dcplugin_get_wire_data_len (packet_of response_30_120) < 2 ^ 64)
    as H1 by (vm_compute; reflexivity).
  assert (0 <= min_ttl cache_1000 < 2 ^ 32) as H2
    by (split; vm_compute; [discriminate|reflexivity]).
  assert (dcplugin_sync_post_filter (env_at 0) cache_1000
            (packet_of response_30_120)
          = Returns DCP_SYNC_FILTER_RESULT_OK cache_one_entry
              (packet_of response_30_120) [Ev_calloc true; Ev_malloc true])
    as H3 by (vm_compute; reflexivity).
  assert (entry_at cache_one_entry 0 ∈ cache_entries cache_one_entry) as H4
    by (apply elem_of_cons; left; reflexivity).
  split; [exact H1|]. split; [exact H2|]. split; [exact H3|].
  split; [exact H4|].
  exact (post_filter_lifetime_floor _ _ _ _ _ _ _ _ H1 H2 H3 H4).
Defined.

(** The key a new entry is filed under is not the key of an entry that the
    scan passed over. *)
Lemma no_match_key (x : CacheEntry) (name : list byte) (t : Z) :
  Z.of_nat (length name) <= DNS_MAX_HOSTNAME_LEN ->
  entry_matches x name (Z.of_nat (length name)) t <> true ->
  entry_key x <> (qname_buffer name, t).
Proof.
  intros Hn Hm Hk. apply Hm. destruct x as [r rl q ty d].
  unfold entry_key in Hk. cbn [qname qtype] in Hk. inversion Hk; subst.
  apply entry_matches_qname_buffer. exact Hn.
Qed.

Lemma NoDup_key_front (l : list CacheEntry) (k : nat) (e : CacheEntry) :
  NoDup (entry_key <$> l) -> l !! k = Some e ->
  NoDup (entry_key e :: (entry_key <$> take k l)).
Proof.
  intros Hnd Hk. rewrite <- (take_drop_middle l k e Hk) in Hnd.
  rewrite fmap_app, fmap_cons in Hnd.
  apply NoDup_app in Hnd as (Ht & Hdis & _).
  apply NoDup_cons. split; [|exact Ht].
  intros Hin. apply (Hdis _ Hin). apply elem_of_cons. left. reflexivity.
Qed.

(** The [memcmp] of line 346 and the [memcpy] of line 384 run past the
    256 bytes of [qname] only for a question name of 257 or 258 bytes. *)
Lemma post_filter_fault_name (env : Env) (cache : Cache)
    (pkt : DCPluginDNSPacket) :
  dcplugin_get_wire_data_len pkt < 2 ^ 64 ->
  dcplugin_sync_post_filter env cache pkt = Fault ->
  exists o,
    skip_name (dns_wire_data pkt) (dcplugin_get_wire_data_len pkt) 12
    = Some o /\
    DNS_MAX_HOSTNAME_LEN < o - 12 <= DNS_MAX_HOSTNAME_LEN + 2.
Proof.
  unfold dcplugin_get_wire_data_len. intros Hlen H.
  assert (0 <= Z.of_nat (length (dns_wire_data pkt)) < 2 ^ 64) as Hlen' by lia.
  unfold dcplugin_sync_post_filter in H.
  destruct (post_filter_question _ _ _) as [r| |cp] eqn:Hq; try discriminate.
  { unfold post_filter_question in Hq.
    destruct (post_filter_gate _) as [r| |[[n t] i]] eqn:Eg; try discriminate.
    - unfold post_filter_gate in Eg. repeat case_match; discriminate.
    - destruct (answers_loop _ _ _ _ _ _). discriminate. }
  assert (cp_qname_len cp > DNS_MAX_HOSTNAME_LEN) as Hn.
  { destruct (Z.gtb_spec (cp_qname_len cp) DNS_MAX_HOSTNAME_LEN) as [Hn|Hn];
      [lia|]. exfalso. cbn [andb] in H.
    destruct (scanned_cache_entry _) as [[k e]|].
    - destruct (post_filter_update _ _ _ _ _ _ _). discriminate.
    - unfold post_filter_insert in H.
      destruct (Z.gtb_spec (cp_qname_len cp) DNS_MAX_HOSTNAME_LEN); [lia|].
      repeat case_match; discriminate. }
  unfold post_filter_question in Hq.
  destruct (post_filter_gate _) as [r| |[[n t] i]] eqn:Eg; try discriminate.
  destruct (answers_loop _ _ _ _ _ _). inversion Hq; subst cp.
  cbn [cp_qname_len] in Hn.
  unfold post_filter_gate in Eg.
  destruct (_ || _); [discriminate|].
  destruct (negb _); [discriminate|].
  destruct (_ && _); [discriminate|].
  destruct (rr_offset _) as [i'|] eqn:Eo; [|discriminate].
  destruct (next_rr_question_Some _ Hlen' _ 12 i' ltac:(lia) Eo)
    as (o & Hs & _ & _ & Hr).
  pose proof (skip_name_bounds _ Hlen' (dns_wire_data pkt) 12 o
                ltac:(lia) Hs) as [_ Hb].
  rewrite Hr in Eg. cbn [rr_name_len from_option id] in Eg.
  destruct (negb _); [discriminate|].
  inversion Eg; subst. exists o. split; [exact Hs|]. lia.
Qed.

(** X13.  For a response whose question name spans at most 256 bytes (in
    a message shorter than 2^64 bytes) the post-filter returns and never
    files a second entry under a stored name and type: if no two entries
    of the list have the same [qname] and [qtype] before the call, none
    have after it.  A name of 257 or 258 bytes, which overruns [qname] at
    lines 346 and 384, is outside this property. *)
Theorem post_filter_keeps_keys_distinct (env : Env) (cache : Cache)
    (pkt : DCPluginDNSPacket) :
  dcplugin_get_wire_data_len pkt < 2 ^ 64 ->
  (forall o,
     skip_name (dns_wire_data pkt) (dcplugin_get_wire_data_len pkt) 12
     = Some o ->
     o - 12 <= DNS_MAX_HOSTNAME_LEN) ->
  NoDup (entry_key <$> cache_entries cache) ->
  exists r cache' pkt' tr,
    dcplugin_sync_post_filter env cache pkt = Returns r cache' pkt' tr /\
    NoDup (entry_key <$> cache_entries cache').
Proof.
  intros Hlen Hname Hnd.
  destruct (dcplugin_sync_post_filter env cache pkt)
    as [r cache' pkt' tr|] eqn:H.
  2: { exfalso.
       destruct (post_filter_fault_name env cache pkt Hlen H) as (o & Hs & Ho).
       specialize (Hname o Hs). lia. }
  exists r, cache', pkt', tr. split; [reflexivity|].
  unfold dcplugin_get_wire_data_len in Hlen.
  destruct (post_filter_inv _ _ _ _ _ _ _ H)
    as (_ & [Hs|[(cp & k & x & buf & Hq & Hf & _ & Hs)
                |(cp & m & Hq & Hn & Hf & [Hs|Hs])]]);
    rewrite Hs.
  - exact Hnd.
  - apply list_find_Some in Hf as (Hk & _).
    rewrite fmap_cons. change (entry_key _) with (entry_key x) at 1.
    destruct k as [|k].
    + destruct (cache_entries cache) as [|y l]; [discriminate|].
      inversion Hk; subst y. exact Hnd.
    + apply NoDup_key_front; assumption.
  - rewrite fmap_take. eapply sublist_NoDup; [exact Hnd|apply sublist_take].
  - destruct (post_filter_question_spec _ _ _ _ Hlen Hq) as (Hn1 & Hn2 & _).
    assert (Z.of_nat (length (bytes_at (dns_wire_data pkt) 12
                                (cp_qname_len cp))) = cp_qname_len cp) as Hl
      by (apply bytes_at_length; lia).
    rewrite fmap_cons. apply NoDup_cons. split.
    2: { rewrite fmap_take. eapply sublist_NoDup; [exact Hnd|apply sublist_take]. }
    intros Hin. apply list_elem_of_fmap in Hin as (x & Hx & Hin).
    apply elem_of_take_list in Hin.
    apply list_find_None in Hf. rewrite Forall_forall in Hf.
    specialize (Hf x Hin). rewrite <- Hl in Hf at 2.
    apply (no_match_key x (bytes_at (dns_wire_data pkt) 12 (cp_qname_len cp))
             (cp_qtype cp)); [rewrite Hl; exact Hn|exact Hf|].
    symmetry. exact Hx.
Qed.

(** A second response for b.com. *)
Lemma post_filter_keeps_keys_distinct_witness :
  dcplugin_get_wire_data_len (packet_of response_b') < 2 ^ 64 /\
  (forall o,
     skip_name (dns_wire_data (packet_of response_b'))
               (dcplugin_get_wire_data_len (packet_of response_b')) 12
     = Some o ->
     o - 12 <= DNS_MAX_HOSTNAME_LEN) /\
  NoDup (entry_key <$> cache_entries cache_abc) /\
  dcplugin_sync_post_filter (env_at 0) cache_abc (packet_of response_b')
  = Returns DCP_SYNC_FILTER_RESULT_OK cache_ba (packet_of response_b') [] /\
  exists r cache' pkt' tr,
    dcplugin_sync_post_filter (env_at 0) cache_abc (packet_of response_b')
    = Returns r cache' pkt' tr /\
    NoDup (entry_key <$> cache_entries cache').
Proof.
  assert (dcplugin_get_wire_data_len (packet_of response_b') < 2 ^ 64) as H1
    by (vm_compute; reflexivity).
  assert (forall o,
            skip_name (dns_wire_data (packet_of response_b'))
              (dcplugin_get_wire_data_len (packet_of response_b')) 12
            = Some o ->
            o - 12 <= DNS_MAX_HOSTNAME_LEN) as H2.
  { intros o Ho. vm_compute in Ho. injection Ho as <-.
    vm_compute. discriminate. }
  assert (NoDup (entry_key <$> cache_entries cache_abc)) as H3
    by (apply (bool_decide_unpack _); vm_compute; exact I).
  split; [exact H1|]. split; [exact H2|]. split; [exact H3|].
  split; [vm_compute; reflexivity|].
  exact (post_filter_keeps_keys_distinct (env_at 0) cache_abc
           (packet_of response_b') H1 H2 H3).
Defined.

(** X14.  The comparison of both scans, [memcmp] over the length of the
    name looked up, is exact on encoded names: the entry filed under the
    name [a] and the type [t] matches the name [b] and the type [t'] if
    and only if [a = b] and [t = t'].  No name is taken for another one it
    is a prefix of. *)
Theorem stored_name_matches_only_itself (a b : list byte) (t t' : Z)
    (r : list byte) (rl d : Z) :
  wire_name a (length a) -> wire_name b (length b) ->
  Z.of_nat (length a) <= DNS_MAX_HOSTNAME_LEN ->
  Z.of_nat (length b) <= DNS_MAX_HOSTNAME_LEN ->
  (entry_matches (mkCacheEntry r rl (qname_buffer a) t d) b
                 (Z.of_nat (length b)) t' = true
   <-> a = b /\ t = t').
Proof.
  intros Ha Hb Hla Hlb. split.
  - unfold entry_matches, memcmp_eq. cbn [qname qtype].
    intros H. apply andb_true_iff in H as [Hm Ht].
    apply bool_decide_eq_true in Hm. apply Z.eqb_eq in Ht.
    split; [|exact Ht].
    rewrite qname_buffer_app in Hm by exact Hla.
    rewrite Nat2Z.id in Hm. rewrite (take_ge b) in Hm by lia.
    exact (wire_name_eq_of_prefix a b _ Ha Hb Hm).
  - intros [-> ->]. apply entry_matches_qname_buffer. exact Hlb.
Qed.

(** "a.com" and "example.com". *)
Lemma stored_name_matches_only_itself_witness :
  wire_name (bytes (x_com 97)) (length (bytes (x_com 97))) /\
  wire_name (bytes example_com) (length (bytes example_com)) /\
  Z.of_nat (length (bytes (x_com 97))) <= DNS_MAX_HOSTNAME_LEN /\
  Z.of_nat (length (bytes example_com)) <= DNS_MAX_HOSTNAME_LEN /\
  (entry_matches (mkCacheEntry [] 0 (qname_buffer (bytes (x_com 97))) 1 0)
                 (bytes example_com)
                 (Z.of_nat (length (bytes example_com))) 1 = true
   <-> bytes (x_com 97) = bytes example_com /\ 1 = 1).
Proof.
  assert (wire_name (bytes (x_com 97)) (length (bytes (x_com 97)))) as H1
    by exact (skip_name_wire_name response_a 12 19
                ltac:(vm_compute; reflexivity) ltac:(lia)
                ltac:(vm_compute; reflexivity)).
  assert (wire_name (bytes example_com) (length (bytes example_com))) as H2
    by exact (skip_name_wire_name response_30_120 12 25
                ltac:(vm_compute; reflexivity) ltac:(lia)
                ltac:(vm_compute; reflexivity)).
  assert (Z.of_nat (length (bytes (x_com 97))) <= DNS_MAX_HOSTNAME_LEN) as H3
    by (vm_compute; discriminate).
  assert (Z.of_nat (length (bytes example_com)) <= DNS_MAX_HOSTNAME_LEN) as H4
    by (vm_compute; discriminate).
  split; [exact H1|]. split; [exact H2|]. split; [exact H3|].
  split; [exact H4|].
  exact (stored_name_matches_only_itself _ _ 1 1 [] 0 0 H1 H2 H3 H4).
Defined.

(** ** The results of the post-filter *)

Lemma post_filter_gate_error (wd : list byte) :
  (post_filter_gate wd = Stop DCP_SYNC_FILTER_RESULT_ERROR
   <->
   Z.of_nat (length wd) < 15 \/ qdcount wd <> 1 \/
   (truncated wd = false /\ (rcode wd = 0 \/ rcode wd = 3) /\
    rr_offset (next_rr wd (Z.of_nat (length wd)) true 12) = None))
  /\ post_filter_gate wd <> Stop DCP_SYNC_FILTER_RESULT_DIRECT
  /\ post_filter_gate wd <> Abort.
Proof.
  unfold truncated, rcode. rewrite qdcount_one. unfold post_filter_gate.
  destruct (Z.ltb_spec (Z.of_nat (length wd)) 15) as [H15|H15]; cbn [orb].
  { split; [|split; discriminate].
    split; [intros _; left; exact H15|reflexivity]. }
  destruct (Z.eqb_spec (byte_at wd 4) 0) as [E4|E4]; cbn [negb orb].
  2: { split; [|split; discriminate].
       split; [intros _; right; left; tauto|reflexivity]. }
  destruct (Z.eqb_spec (byte_at wd 5) 1) as [E5|E5]; cbn [negb orb].
  2: { split; [|split; discriminate].
       split; [intros _; right; left; tauto|reflexivity]. }
  destruct (Z.eqb_spec (Z.land (byte_at wd 2) 2) 0) as [E2|E2]; cbn [negb].
  2: { split; [|split; discriminate]. split; [discriminate|].
       intros [?|[?|(? & _)]]; [lia|tauto|discriminate]. }
  destruct (Z.eqb_spec (Z.land (byte_at wd 3) 15) 0) as [E0|E0];
    destruct (Z.eqb_spec (Z.land (byte_at wd 3) 15) 3) as [E3|E3];
    cbn [negb andb].
  4: { split; [|split; discriminate]. split; [discriminate|].
       intros [?|[?|(_ & [?|?] & _)]]; [lia|tauto|contradiction|contradiction]. }
  all: destruct (rr_offset _) as [i|] eqn:Eo;
    [destruct (negb _);
     (split; [|split; discriminate]); (split; [discriminate|]);
     intros [?|[?|(_ & _ & ?)]]; [lia|tauto|discriminate|lia|tauto|discriminate]
    |split; [|split; discriminate]; split; [|reflexivity];
     intros _; right; right; repeat split; tauto].
Qed.

Lemma post_filter_continue_result (env : Env) (cache : Cache)
    (pkt : DCPluginDNSPacket) (c : Capture) :
  post_filter_question env cache (dns_wire_data pkt) = Continue c ->
  result_of (dcplugin_sync_post_filter env cache pkt)
  = Some DCP_SYNC_FILTER_RESULT_OK \/
  result_of (dcplugin_sync_post_filter env cache pkt) = None.
Proof.
  intros Hq. unfold dcplugin_sync_post_filter. rewrite Hq.
  destruct (_ && _); [right; reflexivity|].
  destruct (scanned_cache_entry _) as [[k e]|].
  - destruct (post_filter_update _ _ _ _ _ _ _). left. reflexivity.
  - destruct (post_filter_insert _ _ _ _ _) as [[? ?]|];
      [left|right]; reflexivity.
Qed.

Lemma post_filter_question_gate (env : Env) (cache : Cache) (wd : list byte) :
  match post_filter_gate wd with
  | Stop r => post_filter_question env cache wd = Stop r
  | Abort => True
  | Continue _ => exists c, post_filter_question env cache wd = Continue c
  end.
Proof.
  unfold post_filter_question.
  destruct (post_filter_gate wd) as [r| |[[n t] i]]; [reflexivity|exact I|].
  destruct (answers_loop _ _ _ _ _ _). eexists. reflexivity.
Qed.

(** X15.  The post-filter returns the error result exactly when the
    message has fewer than 15 bytes, or QDCOUNT is not 1, or, for a
    response that is neither truncated nor of an RCODE other than 0 and 3,
    the question does not parse.  It never returns the handled-directly
    result. *)
Theorem post_filter_error_iff (env : Env) (cache : Cache)
    (pkt : DCPluginDNSPacket) :
  (result_of (dcplugin_sync_post_filter env cache pkt)
   = Some DCP_SYNC_FILTER_RESULT_ERROR
   <->
   dcplugin_get_wire_data_len pkt < 15 \/
   qdcount (dns_wire_data pkt) <> 1 \/
   (truncated (dns_wire_data pkt) = false /\
    (rcode (dns_wire_data pkt) = 0 \/ rcode (dns_wire_data pkt) = 3) /\
    rr_offset (next_rr (dns_wire_data pkt) (dcplugin_get_wire_data_len pkt)
                       true 12) = None))
  /\
  result_of (dcplugin_sync_post_filter env cache pkt)
  <> Some DCP_SYNC_FILTER_RESULT_DIRECT.
Proof.
  unfold dcplugin_get_wire_data_len.
  destruct (post_filter_gate_error (dns_wire_data pkt)) as (Herr & Hnd & Hna).
  rewrite <- Herr. clear Herr.
  pose proof (post_filter_question_gate env cache (dns_wire_data pkt)) as Hg.
  destruct (post_filter_gate (dns_wire_data pkt)) as [r| |x] eqn:Eg.
  - unfold dcplugin_sync_post_filter. rewrite Hg. cbn [result_of].
    split; [split; intros H; inversion H; reflexivity|].
    intros H. inversion H; subst. contradiction.
  - contradiction.
  - destruct Hg as [c Hq].
    destruct (post_filter_continue_result env cache pkt c Hq) as [-> | ->];
      (split; [split; discriminate|discriminate]).
Qed.

Lemma answers_loop_first (fuel : nat) (wd : list byte) (len i ttl ttl' m : Z) :
  is_Some (rr_ttl (next_rr wd len false i)) ->
  answers_loop (S fuel) wd len i ttl m = answers_loop (S fuel) wd len i ttl' m.
Proof.
  intros [v Hv]. cbn [answers_loop]. rewrite Hv. reflexivity.
Qed.

(** X16.  The lifetime of a response without records.  When the first
    [next_rr] after the question fails before it has stored a TTL, the
    local [ttl] is read without ever having been written: the lifetime
    kept is whatever that variable held, raised to [cache->min_ttl].  As
    soon as one TTL has been read the initial content plays no part. *)
Theorem post_filter_ttl_without_record (env : Env) (cache : Cache)
    (wd : list byte) (n t i : Z) :
  post_filter_gate wd = Continue (n, t, i) ->
  (rr_ttl (next_rr wd (Z.of_nat (length wd)) false i) = None ->
   post_filter_question env cache wd
   = Continue
       {| cp_qname_len := n;
          cp_qtype := t;
          cp_ttl := if u32 (env_ttl_indet env) <? min_ttl cache
                    then u32 (min_ttl cache) else u32 (env_ttl_indet env);
          cp_min_ttl := MAX_TTL |})
  /\
  (is_Some (rr_ttl (next_rr wd (Z.of_nat (length wd)) false i)) ->
   forall v,
     post_filter_question
       (mkEnv (env_time env) (env_calloc_ok env) (env_malloc_ok env)
              (env_realloc_ok env) v) cache wd
     = post_filter_question env cache wd).
Proof.
  intros Hg.
  assert (exists fuel, Z.to_nat (Z.of_nat (length wd)) = S fuel) as [fuel Hf].
  { unfold post_filter_gate in Hg.
    destruct (Z.ltb_spec (Z.of_nat (length wd)) 15); [discriminate|].
    exists (Z.to_nat (Z.of_nat (length wd)) - 1)%nat. lia. }
  unfold post_filter_question. rewrite Hg, Hf. split.
  - intros Hnone. cbn [answers_loop]. rewrite Hnone.
    cbn [from_option id].
    assert (rr_offset (next_rr wd (Z.of_nat (length wd)) false i) = None) as Ho.
    { revert Hnone. unfold next_rr. repeat case_match; cbn [rr_ttl rr_offset];
        intros; try reflexivity; discriminate. }
    rewrite Ho. reflexivity.
  - intros Hsome v. cbn [env_ttl_indet].
    rewrite (answers_loop_first fuel wd _ i (u32 v) (u32 (env_ttl_indet env))
               MAX_TTL Hsome).
    reflexivity.
Qed.

(** A response without records, with 7777 in the local [ttl]. *)
Lemma post_filter_ttl_without_record_witness :
  post_filter_gate response_empty = Continue (13, 1, 29) /\
  rr_ttl (next_rr response_empty (Z.of_nat (length response_empty)) false 29)
  = None /\
  post_filter_question (mkEnv 0 true true true 7777) cache_1000 response_empty
  = Continue {| cp_qname_len := 13; cp_qtype := 1;
                cp_ttl := 7777; cp_min_ttl := MAX_TTL |}.
Proof.
  assert (post_filter_gate response_empty = Continue (13, 1, 29)) as Hg
    by (vm_compute; reflexivity).
  assert (rr_ttl (next_rr response_empty (Z.of_nat (length response_empty))
                    false 29) = None) as Hn
    by (vm_compute; reflexivity).
  split; [exact Hg|]. split; [exact Hn|].
  exact (proj1 (post_filter_ttl_without_record
                  (mkEnv 0 true true true 7777) cache_1000 response_empty
                  13 1 29 Hg) Hn).
Defined.

(** ** Invariants of the caches the plugin can be in *)

Lemma u16_le (z : Z) : 0 <= z -> 0 <= u16 z <= z.
Proof.
  intros Hz. unfold u16. split.
  - apply Z.mod_pos_bound. lia.
  - apply Z.mod_le; lia.
Qed.

Lemma post_filter_backed (env : Env) (cache : Cache) (pkt : DCPluginDNSPacket)
    (r : DCPluginSyncFilterResult) (cache' : Cache) (pkt' : DCPluginDNSPacket)
    (tr : list event) :
  Forall entry_backed (cache_entries cache) ->
  dcplugin_sync_post_filter env cache pkt = Returns r cache' pkt' tr ->
  Forall entry_backed (cache_entries cache').
Proof.
  intros Hb H.
  pose proof (u16_le (dcplugin_get_wire_data_len pkt)
                ltac:(unfold dcplugin_get_wire_data_len; lia)) as Hu.
  unfold dcplugin_get_wire_data_len in Hu.
  destruct (post_filter_inv _ _ _ _ _ _ _ H)
    as (_ & [Hs|[(cp & k & x & buf & _ & _ & Hbuf & Hs)
                |(cp & m & _ & _ & _ & [Hs|Hs])]]);
    rewrite Hs.
  - exact Hb.
  - apply Forall_cons. split.
    + unfold entry_backed, dcplugin_get_wire_data_len.
      cbn [response response_len]. lia.
    + destruct k; [apply Forall_drop|apply Forall_take]; exact Hb.
  - apply Forall_take. exact Hb.
  - apply Forall_cons. split.
    + unfold entry_backed, dcplugin_get_wire_data_len.
      cbn [response response_len]. lia.
    + apply Forall_take. exact Hb.
Qed.

Lemma reachable_backed (c : Cache) :
  reachable c -> Forall entry_backed (cache_entries c).
Proof.
  induction 1 as [|env c pkt r c' pkt' tr _ IH H|env c pkt r c' pkt' tr _ IH H].
  - apply Forall_nil_2.
  - destruct (pre_filter_entries _ _ _ _ _ _ _ H) as (-> & _). exact IH.
  - exact (post_filter_backed _ _ _ _ _ _ _ IH H).
Qed.

(** X17.  In every cache reached from [dcplugin_init] through filter
    calls, [min_ttl] is still [DEFAULT_MIN_TTL], and every entry has a
    buffer of at least [response_len] bytes, a [response_len] and a
    [qtype] below 2^16, and a [qname] of 256 bytes. *)
Theorem reachable_entries_sound (c : Cache) :
  reachable c ->
  min_ttl c = DEFAULT_MIN_TTL /\
  Forall (fun e =>
            0 <= response_len e <= Z.of_nat (length (response e)) /\
            response_len e < 2 ^ 16 /\
            0 <= qtype e < 2 ^ 16 /\
            length (qname e) = Z.to_nat DNS_MAX_HOSTNAME_LEN)
         (cache_entries c).
Proof.
  intros Hr. split.
  - induction Hr
      as [|env c pkt r c' pkt' tr _ IH H|env c pkt r c' pkt' tr _ IH H].
    + reflexivity.
    + destruct (pre_filter_entries _ _ _ _ _ _ _ H) as (_ & _ & ->). exact IH.
    + destruct (post_filter_inv _ _ _ _ _ _ _ H) as (-> & _). exact IH.
  - pose proof (reachable_backed c Hr) as Hb.
    pose proof (reachable_wf c Hr) as Hw. unfold cache_wf in Hw.
    rewrite Forall_forall in Hb, Hw. apply Forall_forall. intros e He.
    destruct (Hw e He) as ([_ Hl] & Hq & Hn).
    split; [exact (Hb e He)|]. split; [exact Hl|]. split; [exact Hq|exact Hn].
Qed.

(** The cache after fifty responses. *)
Lemma reachable_entries_sound_witness :
  reachable cache_50 /\
  min_ttl cache_50 = DEFAULT_MIN_TTL /\
  Forall (fun e =>
            0 <= response_len e <= Z.of_nat (length (response e)) /\
            response_len e < 2 ^ 16 /\
            0 <= qtype e < 2 ^ 16 /\
            length (qname e) = Z.to_nat DNS_MAX_HOSTNAME_LEN)
         (cache_entries cache_50).
Proof.
  split; [exact cache_50_reachable|].
  exact (reachable_entries_sound cache_50 cache_50_reachable).
Defined.

(** ** The answer served from the cache *)

Lemma byte_at_take (l : list byte) (n j : Z) :
  0 <= j < n -> byte_at (take (Z.to_nat n) l) j = byte_at l j.
Proof.
  intros Hj. unfold byte_at. rewrite lookup_take_lt by lia. reflexivity.
Qed.

Lemma byte_at_memcpy (l : list byte) (i j : Z) (src : list byte) :
  0 <= i -> 0 <= j < Z.of_nat (length l) ->
  byte_at (memcpy l i src) j
  = if (i <=? j) && (j <? i + Z.of_nat (length src))
    then byte_at src (j - i) else byte_at l j.
Proof.
  intros Hi Hj. unfold byte_at, memcpy.
  destruct (Z.leb_spec i j); cbn [andb].
  - destruct (Z.ltb_spec j (i + Z.of_nat (length src))).
    + rewrite list_lookup_inserts by lia. do 3 f_equal. lia.
    + rewrite list_lookup_inserts_ge by lia. reflexivity.
  - rewrite list_lookup_inserts_lt by lia. reflexivity.
Qed.

Lemma be16_bytes (p : list byte) :
  Z.shiftr (be16 p 0) 8 mod 256 = byte_at p 0 /\
  be16 p 0 mod 256 = byte_at p 1.
Proof.
  rewrite be16_eq. change (0 + 1) with 1.
  pose proof (byte_at_range p 0) as H0. pose proof (byte_at_range p 1) as H1.
  rewrite Z.shiftr_div_pow2 by lia. change (2 ^ 8) with 256.
  replace ((byte_at p 0 * 256 + byte_at p 1) / 256) with (byte_at p 0)
    by (apply Z.div_unique with (r := byte_at p 1); lia).
  split; [apply Z.mod_small; lia|].
  rewrite Z.add_comm, Z.mod_add by lia. apply Z.mod_small. lia.
Qed.

(** X18.  Lines 258-265, for an entry whose buffer holds [response_len]
    bytes and a question name that lies inside the query.  The packet gets
    the length of the cached response; its first two bytes (the
    transaction ID) and the bytes of the question name are those of the
    query, every other byte is the byte of the cached response. *)
Theorem pre_filter_overwrite_bytes (e : CacheEntry) (lk : Lookup) (j : Z) :
  0 <= response_len e <= Z.of_nat (length (response e)) ->
  0 <= lk_qname_len lk ->
  12 + lk_qname_len lk <= Z.of_nat (length (lk_wire_data lk)) ->
  Z.of_nat (length (pre_filter_overwrite e lk)) = response_len e /\
  (0 <= j < response_len e ->
   byte_at (pre_filter_overwrite e lk) j
   = if (j <? 2) || ((12 <=? j) && (j <? 12 + lk_qname_len lk))
     then byte_at (lk_wire_data lk) j
     else byte_at (response e) j).
Proof.
  intros Hb Hn Hfit.
  assert (Z.of_nat (length (take (Z.to_nat (response_len e)) (response e)))
          = response_len e) as Hl by (rewrite length_take; lia).
  unfold pre_filter_overwrite. split.
  { rewrite memcpy_length, !store_length. exact Hl. }
  intros Hj.
  pose proof (bytes_at_length (lk_wire_data lk) 12 (lk_qname_len lk)
                ltac:(lia) Hn Hfit) as Hln.
  destruct (be16_bytes (lk_wire_data lk)) as [Hb0 Hb1].
  rewrite byte_at_memcpy by (rewrite ?store_length; lia).
  rewrite Hln.
  destruct (Z.leb_spec 12 j) as [H12|H12]; cbn [andb].
  - destruct (Z.ltb_spec j 2); [lia|]. cbn [orb].
    destruct (Z.ltb_spec j (12 + lk_qname_len lk)).
    + rewrite byte_at_bytes_at by lia. f_equal. lia.
    + rewrite !byte_at_store_ne by lia. apply byte_at_take. lia.
  - rewrite orb_false_r.
    destruct (Z.ltb_spec j 2).
    + destruct (Z.eq_dec j 0) as [->|Hj0].
      * rewrite byte_at_store_ne by lia.
        rewrite byte_at_store_eq by lia. exact Hb0.
      * replace j with 1 by lia.
        rewrite byte_at_store_eq by (rewrite store_length; lia). exact Hb1.
    + rewrite !byte_at_store_ne by lia. apply byte_at_take. lia.
Qed.

(** The first letter of the name in the answer to "EXAMPLE.com". *)
Lemma pre_filter_overwrite_bytes_witness :
  0 <= response_len (entry_at cache_one_entry 0)
    <= Z.of_nat (length (response (entry_at cache_one_entry 0))) /\
  0 <= lk_qname_len lookup_upper /\
  12 + lk_qname_len lookup_upper
    <= Z.of_nat (length (lk_wire_data lookup_upper)) /\
  Z.of_nat (length (pre_filter_overwrite (entry_at cache_one_entry 0)
                      lookup_upper))
  = response_len (entry_at cache_one_entry 0) /\
  (0 <= 13 < response_len (entry_at cache_one_entry 0) ->
   byte_at (pre_filter_overwrite (entry_at cache_one_entry 0) lookup_upper) 13
   = if (13 <? 2) || ((12 <=? 13) && (13 <? 12 + lk_qname_len lookup_upper))
     then byte_at (lk_wire_data lookup_upper) 13
     else byte_at (response (entry_at cache_one_entry 0)) 13).
Proof.
  assert (0 <= response_len (entry_at cache_one_entry 0)
            <= Z.of_nat (length (response (entry_at cache_one_entry 0))))
    as H1 by (split; vm_compute; discriminate).
  assert (0 <= lk_qname_len lookup_upper) as H2 by (vm_compute; discriminate).
  assert (12 + lk_qname_len lookup_upper
            <= Z.of_nat (length (lk_wire_data lookup_upper))) as H3
    by (vm_compute; discriminate).
  split; [exact H1|]. split; [exact H2|]. split; [exact H3|].
  exact (pre_filter_overwrite_bytes (entry_at cache_one_entry 0) lookup_upper 13
           H1 H2 H3).
Defined.

Lemma cache_one_entry_reachable : reachable cache_one_entry.
Proof.
  apply (reachable_post (env_at 0) cache_1000 (packet_of response_30_120)
           DCP_SYNC_FILTER_RESULT_OK cache_one_entry
           (packet_of response_30_120) [Ev_calloc true; Ev_malloc true]).
  - apply (reachable_pre (env_at 1000) dcplugin_init (packet_of query_upper)
             DCP_SYNC_FILTER_RESULT_OK cache_1000 (packet_of query_upper)
             [Ev_time]).
    + apply reachable_init.
    + vm_compute. reflexivity.
  - vm_compute. reflexivity.
Defined.

(** X19.  What a handled-directly answer is.  It comes from an entry of
    the list that matches the key of the query, fits the packet and has
    its deadline after the time sampled; it has the length of the cached
    response; and it is the packet made by lines 258-265 in which the
    four TTL bytes of every record that [next_rr] walks read
    [deadline - now], and nothing else has changed. *)
Theorem pre_filter_direct_answer (env : Env) (cache : Cache)
    (pkt : DCPluginDNSPacket) (cache' : Cache) (pkt' : DCPluginDNSPacket)
    (tr : list event) :
  reachable cache ->
  dcplugin_sync_pre_filter env cache pkt
  = Returns DCP_SYNC_FILTER_RESULT_DIRECT cache' pkt' tr ->
  exists e lk,
    pre_filter_question (dns_wire_data pkt) = Continue lk /\
    e ∈ cache_entries cache /\
    entry_matches e (lk_qname lk) (lk_qname_len lk) (lk_qtype lk) = true /\
    response_len e <= dns_wire_data_max_len pkt /\
    env_time env < deadline e /\
    dcplugin_get_wire_data_len pkt' = response_len e /\
    (forall j, 0 <= j ->
       (forall f, f ∈ record_ttl_fields (pre_filter_overwrite e lk) ->
                  ~ (f <= j < f + 4)) ->
       byte_at (dns_wire_data pkt') j
       = byte_at (pre_filter_overwrite e lk) j) /\
    record_ttl_fields (dns_wire_data pkt')
    = record_ttl_fields (pre_filter_overwrite e lk) /\
    (forall f, f ∈ record_ttl_fields (pre_filter_overwrite e lk) ->
       be32 (dns_wire_data pkt') f = u32 (deadline e - env_time env)).
Proof.
  intros Hreach H. unfold dcplugin_get_wire_data_len.
  destruct (pre_filter_question (dns_wire_data pkt)) as [r0| |lk] eqn:Hq.
  - unfold dcplugin_sync_pre_filter in H. rewrite Hq in H.
    injection H as -> _ _ _.
    exfalso. exact (pre_filter_question_not_direct _ _ Hq eq_refl).
  - unfold dcplugin_sync_pre_filter in H. rewrite Hq in H. discriminate.
  - destruct (pre_filter_continue env cache pkt lk Hq)
      as [Hr|(e & Hin & Hfit & Hfresh & Hm & Hr)]; rewrite Hr in H;
      [discriminate|].
    injection H as Hres _ Hpkt _. subst pkt'. cbn [dns_wire_data].
    exists e, lk.
    split; [reflexivity|]. split; [exact Hin|]. split; [exact Hm|].
    split; [exact Hfit|]. split; [exact Hfresh|].
    pose proof (reachable_backed cache Hreach) as Hb.
    pose proof (reachable_wf cache Hreach) as Hw. unfold cache_wf in Hw.
    rewrite Forall_forall in Hb, Hw.
    specialize (Hb e Hin). destruct (Hw e Hin) as (Hl16 & _ & _).
    unfold entry_backed in Hb.
    set (O := pre_filter_overwrite e lk) in *.
    set (len := response_len e) in *.
    assert (0 <= len < 2 ^ 64) as Hlen by lia.
    assert (Z.of_nat (length O) = len) as HlenO.
    { unfold O, pre_filter_overwrite.
      rewrite memcpy_length, !store_length, length_take. lia. }
    unfold pre_filter_hit in Hres |- *. fold O len in Hres |- *.
    destruct (rr_offset (next_rr O len true 12)) as [i|] eqn:Eo;
      [|discriminate].
    destruct (next_rr_question_Some len Hlen O 12 i ltac:(lia) Eo)
      as (o & Hs & Hio & Hend & _).
    pose proof (skip_name_bounds len Hlen O 12 o ltac:(lia) Hs) as [Hbo _].
    destruct (rewrite_ttls_spec len Hlen (Z.to_nat len) O i
                (u32 (deadline e - env_time env)) HlenO ltac:(lia))
      as (Hok & HlenP & Hbytes & HfP & Httl).
    assert (record_ttl_fields O = ttl_fields (Z.to_nat len) O len i) as HfO.
    { unfold record_ttl_fields. rewrite HlenO, Eo. reflexivity. }
    destruct (rewrite_ttls (Z.to_nat len) O len i i
                (u32 (deadline e - env_time env))) as [ok P] eqn:Erw.
    cbn [fst snd] in *. subst ok. clear Hres.
    rewrite HfO.
    assert (forall j, 0 <= j < i + 5 -> byte_at P j = byte_at O j) as Hlow.
    { intros j Hj. apply Hbytes; [lia|]. intros f Hf.
      apply (ttl_fields_bounds len Hlen) in Hf; lia. }
    cbn [snd]. split; [lia|]. split; [exact Hbytes|]. split.
    { unfold record_ttl_fields. rewrite HlenP, HlenO.
      assert (next_rr P len true 12 = next_rr O len true 12) as HqP.
      { apply next_rr_question_ext_Some with (i := i); [exact Hlen|lia|exact Eo|].
        intros j Hj. symmetry. apply Hlow. lia. }
      rewrite HqP, Eo. exact HfP. }
    intros f Hf. rewrite Httl by exact Hf. unfold u32. apply Z.mod_mod. lia.
Qed.

(** The answer to the query for "EXAMPLE.com" at time 1100. *)
Lemma pre_filter_direct_answer_witness :
  reachable cache_one_entry /\
  dcplugin_sync_pre_filter (env_at 1100) cache_one_entry (packet_of query_upper)
  = Returns DCP_SYNC_FILTER_RESULT_DIRECT (set_now cache_one_entry 1100)
      answer_upper [Ev_time] /\
  exists e lk,
    pre_filter_question (dns_wire_data (packet_of query_upper)) = Continue lk /\
    e ∈ cache_entries cache_one_entry /\
    entry_matches e (lk_qname lk) (lk_qname_len lk) (lk_qtype lk) = true /\
    response_len e <= dns_wire_data_max_len (packet_of query_upper) /\
    env_time (env_at 1100) < deadline e /\
    dcplugin_get_wire_data_len answer_upper = response_len e /\
    (forall j, 0 <= j ->
       (forall f, f ∈ record_ttl_fields (pre_filter_overwrite e lk) ->
                  ~ (f <= j < f + 4)) ->
       byte_at (dns_wire_data answer_upper) j
       = byte_at (pre_filter_overwrite e lk) j) /\
    record_ttl_fields (dns_wire_data answer_upper)
    = record_ttl_fields (pre_filter_overwrite e lk) /\
    (forall f, f ∈ record_ttl_fields (pre_filter_overwrite e lk) ->
       be32 (dns_wire_data answer_upper) f
       = u32 (deadline e - env_time (env_at 1100))).
Proof.
  assert (dcplugin_sync_pre_filter (env_at 1100) cache_one_entry
            (packet_of query_upper)
          = Returns DCP_SYNC_FILTER_RESULT_DIRECT (set_now cache_one_entry 1100)
              answer_upper [Ev_time]) as H
    by (vm_compute; reflexivity).
  split; [exact cache_one_entry_reachable|]. split; [exact H|].
  exact (pre_filter_direct_answer _ _ _ _ _ _ cache_one_entry_reachable H).
Defined.

(** ** Where the filters leave defined behaviour *)

(** X20.  Where the filters stop being defined around their 256-byte
    [qname] buffers.  The pre-filter gets to the failing assertion of line
    219 only with a question name of 257 or 258 bytes (labels of 255 or
    256 bytes closed by a compression pointer), and to a [name_tolower]
    that runs past the bytes copied only with a question name of at most
    256 bytes none of which is zero.  The [memcmp] and [memcpy] of the
    post-filter run past [qname] only with a question name of 257 or 258
    bytes. *)
Theorem filters_fault_only_on_bad_name (env : Env) (cache : Cache)
    (pkt : DCPluginDNSPacket) :
  dcplugin_get_wire_data_len pkt < 2 ^ 64 ->
  (dcplugin_sync_pre_filter env cache pkt = Fault ->
   exists o,
     skip_name (dns_wire_data pkt) (dcplugin_get_wire_data_len pkt) 12
     = Some o /\
     (DNS_MAX_HOSTNAME_LEN < o - 12 <= DNS_MAX_HOSTNAME_LEN + 2 \/
      (o - 12 <= DNS_MAX_HOSTNAME_LEN /\
       name_terminated (bytes_at (dns_wire_data pkt) 12 (o - 12)) = false)))
  /\
  (dcplugin_sync_post_filter env cache pkt = Fault ->
   exists o,
     skip_name (dns_wire_data pkt) (dcplugin_get_wire_data_len pkt) 12
     = Some o /\
     DNS_MAX_HOSTNAME_LEN < o - 12 <= DNS_MAX_HOSTNAME_LEN + 2).
Proof.
  unfold dcplugin_get_wire_data_len. intros Hlen.
  assert (0 <= Z.of_nat (length (dns_wire_data pkt)) < 2 ^ 64) as Hlen' by lia.
  assert (forall i,
            rr_offset (next_rr (dns_wire_data pkt)
                         (Z.of_nat (length (dns_wire_data pkt))) true 12)
            = Some i ->
            exists o,
              skip_name (dns_wire_data pkt)
                (Z.of_nat (length (dns_wire_data pkt))) 12 = Some o /\
              default 0 (rr_name_len (next_rr (dns_wire_data pkt)
                           (Z.of_nat (length (dns_wire_data pkt))) true 12))
              = o - 12 /\
              o - 12 <= DNS_MAX_HOSTNAME_LEN + 2)
    as Hname.
  { intros i Eo.
    destruct (next_rr_question_Some _ Hlen' _ 12 i ltac:(lia) Eo)
      as (o & Hs & _ & _ & Hq).
    pose proof (skip_name_bounds _ Hlen' (dns_wire_data pkt) 12 o
                  ltac:(lia) Hs) as [_ Hb].
    rewrite Hq. cbn [rr_name_len from_option id].
    exists o. split; [exact Hs|]. split; [reflexivity|lia]. }
  split; intros H.
  - unfold dcplugin_sync_pre_filter in H.
    destruct (pre_filter_question _) as [r| |lk] eqn:Hq; try discriminate.
    2: { repeat case_match; discriminate. }
    unfold pre_filter_question in Hq.
    destruct (_ || _); [discriminate|].
    destruct (rr_offset _) as [i|] eqn:Eo; [|discriminate].
    destruct (Hname i eq_refl) as (o & Hs & Hn & Hmax). rewrite Hn in Hq.
    exists o. split; [exact Hs|].
    destruct (negb (_ =? 1)); [discriminate|].
    destruct (Z.gtb_spec (o - 12) DNS_MAX_HOSTNAME_LEN) as [Hgt|Hle].
    { left. lia. }
    destruct (name_terminated _) eqn:Et; cbn [negb] in Hq.
    { repeat case_match; discriminate. }
    right. split; [exact Hle|reflexivity].
  - apply (post_filter_fault_name env cache pkt); [|exact H].
    unfold dcplugin_get_wire_data_len. exact Hlen.
Qed.

(** A query for a name that a compression pointer closes and that has no
    zero byte: one label, "a", and the pointer. *)
Lemma filters_fault_only_on_bad_name_witness :
  dcplugin_get_wire_data_len (packet_of query_pointer) < 2 ^ 64 /\
  dcplugin_sync_pre_filter (env_at 0) dcplugin_init (packet_of query_pointer)
  = Fault /\
  exists o,
    skip_name (dns_wire_data (packet_of query_pointer))
              (dcplugin_get_wire_data_len (packet_of query_pointer)) 12
    = Some o /\
    (DNS_MAX_HOSTNAME_LEN < o - 12 <= DNS_MAX_HOSTNAME_LEN + 2 \/
     (o - 12 <= DNS_MAX_HOSTNAME_LEN /\
      name_terminated (bytes_at (dns_wire_data (packet_of query_pointer)) 12
                         (o - 12)) = false)).
Proof.
  assert (dcplugin_get_wire_data_len (packet_of query_pointer) < 2 ^ 64) as H1
    by (vm_compute; reflexivity).
  assert (dcplugin_sync_pre_filter (env_at 0) dcplugin_init
            (packet_of query_pointer) = Fault) as H2
    by (vm_compute; reflexivity).
  split; [exact H1|]. split; [exact H2|].
  exact (proj1 (filters_fault_only_on_bad_name (env_at 0) dcplugin_init
                  (packet_of query_pointer) H1) H2).
Defined.

(** ** Releasing the cache *)

Lemma destroy_entries_spec (es : list CacheEntry) :
  destroy_entries es = Ev_free_response <$> es.
Proof. induction es as [|e es IH]; [reflexivity|]. simpl. rewrite IH. reflexivity. Qed.

(** X21.  [dcplugin_destroy] on a cache reached through filter calls
    returns 0, releases the [Cache] and the response buffer of every entry,
    in list order, at most 50 of them, and releases no [CacheEntry]
    block. *)
Theorem dcplugin_destroy_leaves_entries (c : Cache) :
  reachable c ->
  exists tr,
    dcplugin_destroy (Some c) = (0, tr, true) /\
    tr = Ev_free_response <$> cache_entries c /\
    Z.of_nat (length tr) <= DEFAULT_CACHE_ENTRIES_MAX /\
    (forall e, Ev_free_entry e ∉ tr).
Proof.
  intros Hr. exists (destroy_entries (cache_entries c)).
  rewrite destroy_entries_spec.
  split; [reflexivity|]. split; [reflexivity|]. split.
  - rewrite length_fmap. apply (reachable_capacity c Hr).
  - intros e Hin. apply list_elem_of_fmap in Hin as (x & Hx & _). discriminate.
Qed.

(** The cache after fifty responses. *)
Lemma dcplugin_destroy_leaves_entries_witness :
  reachable cache_50 /\
  exists tr,
    dcplugin_destroy (Some cache_50) = (0, tr, true) /\
    tr = Ev_free_response <$> cache_entries cache_50 /\
    Z.of_nat (length tr) <= DEFAULT_CACHE_ENTRIES_MAX /\
    (forall e, Ev_free_entry e ∉ tr).
Proof.
  split; [exact cache_50_reachable|].
  exact (dcplugin_destroy_leaves_entries cache_50 cache_50_reachable).
Defined.

(** ** The error result of the pre-filter *)



(** ** Entries that no lookup finds *)

Lemma tolower_not_upper (c : Z) : ~ (65 <= tolower c <= 90).
Proof. unfold tolower. repeat (zcase; cbn [andb]); lia. Qed.

(** What [name_tolower] leaves before the first zero byte is never an
    upper-case letter. *)
Lemma name_tolower_no_upper (l : list byte) (k : nat) :
  (forall j, (j < k)%nat ->
     byte_Z (default x00 (name_tolower l !! j)) <> 0) ->
  ~ (65 <= byte_Z (default x00 (name_tolower l !! k)) <= 90).
Proof.
  revert k. induction l as [|c l IH]; intros k Hnz.
  { cbn [name_tolower]. rewrite lookup_nil. cbn. lia. }
  cbn [name_tolower] in *.
  destruct (Z.eqb_spec (byte_Z c) 0) as [Hz|Hz].
  - destruct k as [|k].
    + cbn. lia.
    + exfalso. apply (Hnz 0%nat); [lia|]. cbn. exact Hz.
  - destruct k as [|k].
    + cbn. rewrite byte_Z_u8, Z.mod_small
        by (apply tolower_range, byte_Z_range).
      apply tolower_not_upper.
    + cbn [lookup list_lookup]. apply IH. intros j Hj.
      apply (Hnz (S j)). lia.
Qed.

Lemma take_eq_byte_at (a b : list byte) (n j : Z) :
  take (Z.to_nat n) a = take (Z.to_nat n) b -> 0 <= j < n ->
  byte_at a j = byte_at b j.
Proof.
  intros Ht Hj. unfold byte_at.
  rewrite <- (lookup_take_lt a (Z.to_nat n)), <- (lookup_take_lt b (Z.to_nat n))
    by lia.
  rewrite Ht. reflexivity.
Qed.

Lemma toupper_zero (c : Z) : 0 <= c < 256 -> toupper c = 0 -> c = 0.
Proof. unfold toupper. intros Hc. repeat (zcase; cbn [andb]); lia. Qed.

(** The key of a lookup is the lower-cased name, but for the byte that the
    DO bit has upper-cased. *)
Lemma pre_filter_question_key (wd : list byte) (lk : Lookup) :
  pre_filter_question wd = Continue lk ->
  exists l,
    forall j, 0 <= j ->
      (j <> lk_qname_len lk - 2 ->
       byte_at (lk_qname lk) j = byte_at (name_tolower l) j) /\
      (byte_at (lk_qname lk) j <> 0 -> byte_at (name_tolower l) j <> 0).
Proof.
  intros Hq. unfold pre_filter_question in Hq.
  destruct (_ || _); [discriminate|].
  destruct (rr_offset _); [|discriminate].
  destruct (negb _); [discriminate|].
  destruct (_ >? _); [discriminate|].
  destruct (negb (name_terminated _)); [discriminate|].
  set (n := default 0 (rr_name_len _)) in *.
  set (t := name_tolower _) in *.
  assert (forall j : Z, 0 <= j ->
            (j <> n - 2 -> byte_at t j = byte_at t j) /\
            (byte_at t j <> 0 -> byte_at t j <> 0)) as Hsame by tauto.
  destruct (_ =? 1).
  2: { inversion Hq. exists (bytes_at wd 12 n). exact Hsame. }
  destruct (rr_offset _); [|discriminate].
  destruct (negb _); [discriminate|].
  destruct (_ =? 32768); cbn [andb] in Hq.
  2: { inversion Hq. exists (bytes_at wd 12 n). exact Hsame. }
  rewrite Z.geb_leb in Hq.
  destruct (Z.leb_spec 2 n) as [Hn|Hn].
  2: { inversion Hq. exists (bytes_at wd 12 n). exact Hsame. }
  assert (n < 2 ^ 64) as Hn64.
  { unfold n, next_rr. destruct (skip_name _ _ _); cbn; [|lia].
    unfold size_sub.
    repeat case_match; cbn; apply Z.mod_pos_bound; lia. }
  rewrite size_sub_small in Hq by lia.
  inversion Hq. cbn [lk_qname lk_qname_len]. exists (bytes_at wd 12 n).
  fold t. intros j Hj. split.
  - intros Hne. apply byte_at_store_ne; lia.
  - destruct (Z.eq_dec j (n - 2)) as [->|Hne].
    2: { rewrite byte_at_store_ne by lia. tauto. }
    destruct (Z.lt_ge_cases (n - 2) (Z.of_nat (length t))) as [Hin|Hout].
    + rewrite byte_at_store_eq by lia.
      pose proof (byte_at_range t (n - 2)) as Hr.
      rewrite Z.mod_small by (apply toupper_range; exact Hr).
      intros Hu Hz. apply Hu. rewrite Hz. reflexivity.
    + unfold store. rewrite list_insert_ge by lia. tauto.
Qed.

(** X23.  An entry whose stored name has an upper-case ASCII letter at a
    position [k] among the bytes that the lookup compares
    ([0 <= k < qname_len] of the name looked up), with no zero byte before
    it, is found by no lookup, unless [k] is the second-to-last position of
    the name looked up (the byte that the DO bit upper-cases): the key of a
    lookup is lower-cased.  A letter at or past the length of the name
    looked up is not compared and does not stand in the way of a match. *)
Theorem upper_case_entry_is_never_hit (wd : list byte) (lk : Lookup)
    (e : CacheEntry) (k : Z) :
  pre_filter_question wd = Continue lk ->
  0 <= k < lk_qname_len lk -> k <> lk_qname_len lk - 2 ->
  65 <= byte_at (qname e) k <= 90 ->
  (forall j, 0 <= j < k -> byte_at (qname e) j <> 0) ->
  entry_matches e (lk_qname lk) (lk_qname_len lk) (lk_qtype lk) = false.
Proof.
  intros Hq Hk Hk2 Hup Hnz.
  destruct (pre_filter_question_key wd lk Hq) as [l Hl].
  destruct (entry_matches _ _ _ _) eqn:Em; [exfalso|reflexivity].
  unfold entry_matches, memcmp_eq in Em.
  apply andb_true_iff in Em as [Hm _]. apply bool_decide_eq_true in Hm.
  assert (forall j, 0 <= j < lk_qname_len lk ->
            byte_at (qname e) j = byte_at (lk_qname lk) j) as Heq
    by (intros j Hj; apply (take_eq_byte_at _ _ _ _ Hm Hj)).
  apply (name_tolower_no_upper l (Z.to_nat k)).
  - intros j Hj.
    specialize (Heq (Z.of_nat j) ltac:(lia)).
    specialize (Hnz (Z.of_nat j) ltac:(lia)).
    destruct (Hl (Z.of_nat j) ltac:(lia)) as [_ Hz].
    rewrite Heq in Hnz. apply Hz in Hnz.
    unfold byte_at in Hnz. rewrite Nat2Z.id in Hnz. exact Hnz.
  - specialize (Heq k Hk).
    destruct (Hl k ltac:(lia)) as [Hsame _]. rewrite (Hsame Hk2) in Heq.
    unfold byte_at in Heq, Hup. rewrite <- Heq. exact Hup.
Qed.

(** The entry stored for "EXAMPLE.com" and the query for "example.com". *)
Lemma upper_case_entry_is_never_hit_witness :
  pre_filter_question query_lower = Continue lookup_lower /\
  0 <= 1 < lk_qname_len lookup_lower /\
  1 <> lk_qname_len lookup_lower - 2 /\
  65 <= byte_at (qname (entry_at cache_upper 0)) 1 <= 90 /\
  (forall j, 0 <= j < 1 -> byte_at (qname (entry_at cache_upper 0)) j <> 0) /\
  entry_matches (entry_at cache_upper 0) (lk_qname lookup_lower)
                (lk_qname_len lookup_lower) (lk_qtype lookup_lower) = false.
Proof.
  assert (pre_filter_question query_lower = Continue lookup_lower) as H1
    by (vm_compute; reflexivity).
  assert (0 <= 1 < lk_qname_len lookup_lower) as H2
    by (split; vm_compute; [discriminate|reflexivity]).
  assert (1 <> lk_qname_len lookup_lower - 2) as H3
    by (vm_compute; discriminate).
  assert (65 <= byte_at (qname (entry_at cache_upper 0)) 1 <= 90) as H4
    by (split; vm_compute; discriminate).
  assert (forall j, 0 <= j < 1 ->
            byte_at (qname (entry_at cache_upper 0)) j <> 0) as H5.
  { intros j Hj. replace j with 0 by lia. vm_compute. discriminate. }
  split; [exact H1|]. split; [exact H2|]. split; [exact H3|].
  split; [exact H4|]. split; [exact H5|].
  exact (upper_case_entry_is_never_hit query_lower lookup_lower
           (entry_at cache_upper 0) 1 H1 H2 H3 H4 H5).
Defined.
